(** * pdf_toolkit: a shallow embedding of [pdf_toolkit.py]

    The toolkit stamps headers and page numbers on PDF pages, draws
    calibration grids, redacts rectangles and concatenates documents.
    Every function of the module is embedded below as a function over an
    explicit world (file system, log, document sessions).

    Numbers.  Python floats and ints used as coordinates are modelled as
    exact rationals [Q]; [int(x)] is truncation towards zero.
    Strings.  A Python [str] is modelled as a [string] whose characters
    are the code points below 256.
    Exceptions.  A statement continues, returns from the function or
    raises; [try / except / finally] is a combinator on such statements.
    Collaborators.  What pymupdf and [os.path] decide ([Rect.is_valid],
    the rectangles [show_pdf_page] accepts, [save], [abspath]) is a
    parameter of the operations (class [Collaborators]). *)

From Stdlib Require Import ZArith QArith Qminmax List String Ascii Bool Lia Lqa.
From Stdlib Require Import DecimalString Qround.
Import ListNotations.

Open Scope Z_scope.

(* ================================================================== *)
(** ** Python built-ins used by the module *)
(* ================================================================== *)

Module Py.

(** Exceptions raised by the built-ins and by the collaborators. *)
Inductive Exn : Type :=
| ValueError (msg : string)
| IndexError
| FileDataError (path : string).

(** The outcome of an expression that may raise. *)
Inductive Res (A : Type) : Type :=
| Ok (a : A)
| Raise (e : Exn).
Arguments Ok {A} a.
Arguments Raise {A} e.

Definition bind {A B : Type} (m : Res A) (k : A -> Res B) : Res B :=
  match m with
  | Ok a => k a
  | Raise e => Raise e
  end.

(** [int(x)] on a float: truncation towards zero. *)
Definition int (x : Q) : Z := Z.quot (Qnum x) (Zpos (Qden x)).

(** [float(n)] on an int. *)
Definition float (n : Z) : Q := inject_Z n.

(** [range(0, stop, step)]: the values [k * step], [k >= 0], that lie
    before [stop] in the direction of [step]; a zero step raises. *)
Definition range0 (stop step : Z) : Res (list Z) :=
  if step =? 0 then Raise (ValueError "range() arg 3 must not be zero")
  else
    let n := if 0 <? step
             then Z.to_nat ((stop + step - 1) / step)
             else Z.to_nat ((- stop + (- step) - 1) / (- step)) in
    Ok (map (fun k => Z.of_nat k * step) (seq 0 n)).

(** [min(a, b)]: the second argument only when it is strictly smaller. *)
Definition min (a b : Q) : Q := Qmin a b.

(** [a > b] on numbers. *)
Definition gt (a b : Q) : bool := negb (Qle_bool a b).

(** [a <= b] on numbers. *)
Definition le (a b : Q) : bool := Qle_bool a b.

(** [l[0]]. *)
Definition index0 {A : Type} (l : list A) : Res A :=
  match l with
  | [] => Raise IndexError
  | x :: _ => Ok x
  end.

(** [str.isspace] on one character (code points below 256). *)
Definition isspace (c : ascii) : bool :=
  let n := nat_of_ascii c in
  ((9 <=? n) && (n <=? 13) || (28 <=? n) && (n <=? 32)
   || (n =? 133) || (n =? 160))%nat.

(** [s.split(sep)] for a one-character separator: every segment. *)
Fixpoint split_sep (sep : ascii) (s : string) : list string :=
  match s with
  | EmptyString => [EmptyString]
  | String c s' =>
      if Ascii.eqb c sep then EmptyString :: split_sep sep s'
      else match split_sep sep s' with
           | seg :: segs => String c seg :: segs
           | [] => [String c EmptyString]
           end
  end.

(** [s.split()]: the maximal runs of non-whitespace characters. *)
Fixpoint split_ws (s : string) : list string :=
  match s with
  | EmptyString => []
  | String c s' =>
      if isspace c then split_ws s'
      else match s' with
           | EmptyString => [String c EmptyString]
           | String c' _ =>
               if isspace c' then String c EmptyString :: split_ws s'
               else match split_ws s' with
                    | w :: ws => String c w :: ws
                    | [] => [String c EmptyString]
                    end
           end
  end.

(** [f"{n}"] for a non-negative int. *)
Definition str (n : nat) : string := NilEmpty.string_of_uint (Nat.to_uint n).

(** Index of the last occurrence of [c] in [s] ([str.rfind]), if any. *)
Fixpoint rfind (c : ascii) (s : string) : option nat :=
  match s with
  | EmptyString => None
  | String a s' =>
      match rfind c s' with
      | Some i => Some (S i)
      | None => if Ascii.eqb a c then Some O else None
      end
  end.

(** [os.path.basename]: what follows the last slash. *)
Definition basename (p : string) : string :=
  match rfind "/" p with
  | Some i => substring (S i) (String.length p - S i) p
  | None => p
  end.

(** True when every character of [s] is [c]. *)
Fixpoint all_char (c : ascii) (s : string) : bool :=
  match s with
  | EmptyString => true
  | String a s' => Ascii.eqb a c && all_char c s'
  end.

(** [os.path.splitext(p)[0]] on a name without directory part: the
    name up to its last dot, unless only dots precede that dot. *)
Definition splitext_root (p : string) : string :=
  match rfind "." p with
  | Some i => if all_char "." (substring 0 i p) then p else substring 0 i p
  | None => p
  end.

End Py.

Import Py.

(* ================================================================== *)
(** ** Delimiters and [split_by_delimiter] *)
(* ================================================================== *)

Inductive Delimiters : Type :=
| No | Space | Colon | Semicolon | Comma | Hyphen
| Underscore | Slash | Backslash | At | Pipe.

Definition split_by_delimiter (text : string) (delimiter : Delimiters)
  : Res string :=
  match delimiter with
  | No => Ok text
  | Space => index0 (split_ws text)
  | Colon => index0 (split_sep ":" text)
  | Semicolon => index0 (split_sep ";" text)
  | Comma => index0 (split_sep "," text)
  | Hyphen => index0 (split_sep "-" text)
  | Underscore => index0 (split_sep "_" text)
  | Slash => index0 (split_sep "/" text)
  | Backslash => index0 (split_sep "\" text)
  | At => index0 (split_sep "@" text)
  | Pipe => index0 (split_sep "|" text)
  end.

(** The character each variant names ([No] names none). *)
Definition delimiter_char (d : Delimiters) : option ascii :=
  match d with
  | No => None
  | Space => Some " "%char
  | Colon => Some ":"%char
  | Semicolon => Some ";"%char
  | Comma => Some ","%char
  | Hyphen => Some "-"%char
  | Underscore => Some "_"%char
  | Slash => Some "/"%char
  | Backslash => Some "\"%char
  | At => Some "@"%char
  | Pipe => Some "|"%char
  end.

(** The rule in the words of the specification: the segment before the
    first occurrence of the character, the whole string when absent. *)
Fixpoint segment_before (c : ascii) (s : string) : string :=
  match s with
  | EmptyString => EmptyString
  | String a s' => if Ascii.eqb a c then EmptyString
                   else String a (segment_before c s')
  end.

Definition first_segment_spec (text : string) (d : Delimiters) : string :=
  match delimiter_char d with
  | None => text
  | Some c => segment_before c text
  end.

(** The first whitespace-delimited word of a string. *)
Fixpoint take_word (s : string) : string :=
  match s with
  | EmptyString => EmptyString
  | String a s' => if isspace a then EmptyString else String a (take_word s')
  end.

Fixpoint first_word (s : string) : string :=
  match s with
  | EmptyString => EmptyString
  | String a s' => if isspace a then first_word s' else String a (take_word s')
  end.

Fixpoint has_word (s : string) : bool :=
  match s with
  | EmptyString => false
  | String a s' => negb (isspace a) || has_word s'
  end.

(* ================================================================== *)
(** ** The document model ([pymupdf]) *)
(* ================================================================== *)

Open Scope Q_scope.

Record Rect : Type := mkRect { x0 : Q; y0 : Q; x1 : Q; y1 : Q }.

Definition Point : Type := (Q * Q)%type.
Definition Color : Type := (Q * Q * Q)%type.

(** [Rect.width] and [Rect.height], read as the specification does
    ([content.height = 300 - 150 - 160 = -10]). *)
Definition rect_width (r : Rect) : Q := x1 r - x0 r.
Definition rect_height (r : Rect) : Q := y1 r - y0 r.

Definition create_rect (x y width height : Q) : Rect :=
  mkRect x y (x + width) (y + height).

Inductive Align : Type :=
| TEXT_ALIGN_LEFT | TEXT_ALIGN_CENTER | TEXT_ALIGN_RIGHT.

(** What a page carries, in drawing order: content the file came with
    ([Native]), and one item per drawing call issued on the page. *)
Inductive Content : Type :=
| Native (n : nat)
| ShownPage (rect : Rect) (src : string) (pno : nat)
| TextBox (rect : Rect) (text : string) (fontname : string) (fontsize : Q)
          (color : Color) (align : Align)
| Line (p0 p1 : Point) (color : Color) (width : Q)
| Path (rects : list Rect) (width : Q) (color : Color)
| Redaction (rect : Rect) (fill : Color).

Record Page : Type := mkPage {
  p_width : Q;
  p_height : Q;
  p_rotation : Z;
  p_contents : list Content;
  p_redact_annots : list (Rect * Color)
}.

Definition Document : Type := list Page.

Definition new_page (width height : Q) : Page :=
  mkPage width height 0%Z [] [].

Definition remove_rotation (p : Page) : Page :=
  mkPage (p_width p) (p_height p) 0%Z (p_contents p) (p_redact_annots p).

(** [if page.rotation != 0: page.remove_rotation()]. *)
Definition normalize_rotation (p : Page) : Page :=
  if (p_rotation p =? 0)%Z then p else remove_rotation p.

Definition add_content (c : Content) (p : Page) : Page :=
  mkPage (p_width p) (p_height p) (p_rotation p)
         (p_contents p ++ [c]) (p_redact_annots p).

Definition add_redact_annot (r : Rect) (fill : Color) (p : Page) : Page :=
  mkPage (p_width p) (p_height p) (p_rotation p)
         (p_contents p) (p_redact_annots p ++ [(r, fill)]).

(** [page.apply_redactions()]: every registered rectangle is burnt into
    the page; a page without redaction annotations is left as it is. *)
Definition apply_redactions (p : Page) : Page :=
  match p_redact_annots p with
  | [] => p
  | annots =>
      mkPage (p_width p) (p_height p) (p_rotation p)
             (p_contents p ++ map (fun a => Redaction (fst a) (snd a)) annots)
             []
  end.

(** A [Shape]: rectangles drawn since the last [finish], and the paths
    already finished. *)
Record Shape : Type := mkShape {
  pending : list Rect;
  finished : list Content
}.

Definition new_shape : Shape := mkShape [] [].

Definition draw_rect (r : Rect) (s : Shape) : Shape :=
  mkShape (pending s ++ [r]) (finished s).

Definition finish (width : Q) (color : Color) (s : Shape) : Shape :=
  match pending s with
  | [] => s
  | rects => mkShape [] (finished s ++ [Path rects width color])
  end.

Definition commit (s : Shape) (p : Page) : Page :=
  mkPage (p_width p) (p_height p) (p_rotation p)
         (p_contents p ++ finished s) (p_redact_annots p).

(** Behaviour of the collaborators that the module relies on but does
    not define: [Rect.is_valid], the rectangles [show_pdf_page] accepts
    (it raises [ValueError] on the others), the documents [save]
    accepts, and [os.path.abspath]. *)
Class Collaborators : Type := {
  rect_is_valid : Rect -> bool;
  show_pdf_page_accepts : Rect -> bool;
  save_accepts : Document -> bool;
  abspath : string -> string
}.

(** Modelled from the spec: the validity predicate of a mask rectangle,
    [x1 > x0] and [y1 > y0] ([Rect.is_valid] belongs to pymupdf, which is
    not part of the module). *)
Definition proper_rect (r : Rect) : bool :=
  Py.gt (x1 r) (x0 r) && Py.gt (y1 r) (y0 r).

(** Modelled from the spec: collaborators that take a rectangle as valid
    when [x1 > x0] and [y1 > y0], exclude degenerate rectangles from
    drawing, save every document, and are given absolute paths (so that
    [abspath] leaves them as they are).  Used to run the operations on
    sample inputs. *)
Definition spec_collaborators : Collaborators := {|
  rect_is_valid := proper_rect;
  show_pdf_page_accepts := proper_rect;
  save_accepts := fun _ => true;
  abspath := fun p => p
|}.

(** Values passed in [mask_rect_array]: rectangles, or anything else. *)
Inductive PyObj : Type :=
| ObjRect (r : Rect)
| ObjOther (repr : string).

(* ================================================================== *)
(** ** The world: file system, log and document sessions *)
(* ================================================================== *)

Inductive FileData : Type :=
| PdfFile (pages : Document)
| NotPdf.

Inductive Level : Type := DEBUG | INFO | WARNING | ERROR | FATAL.

Inductive Msg : Type :=
| MsgInputMissing (path func : string)
| MsgSameAsInput (func : string)
| MsgOutputExists (path func : string)
| MsgFolderMissing (path func : string)
| MsgSameFolder (func : string)
| MsgFolderCreated (path : string)
| MsgFolderStart (input output : string)
| MsgFileStart (input output : string)
| MsgInvalidMask (m : PyObj)
| MsgCollapse (page_no : nat)
| MsgException (e : Exn)
| MsgProgress (what : string).

(** A document session: the path it was opened from (none for a new
    document), whether it is closed, and how often it was closed. *)
Record Session : Type := mkSession {
  s_path : option string;
  s_closed : bool;
  s_closes : nat
}.

Definition Handle : Type := nat.

(** [files] lists the files in directory-listing order. *)
Record World : Type := mkWorld {
  dirs : list string;
  files : list (string * FileData);
  log : list (Level * Msg);
  sessions : list Session;
  uncaught : option Exn
}.

Definition path_exists (w : World) (p : string) : bool :=
  existsb (String.eqb p) (dirs w)
  || existsb (fun e => String.eqb p (fst e)) (files w).

Fixpoint lookup {A : Type} (k : string) (l : list (string * A)) : option A :=
  match l with
  | [] => None
  | (k', v) :: rest => if String.eqb k k' then Some v else lookup k rest
  end.

(** Writing a file replaces it in place, or adds it to the listing. *)
Fixpoint write_file (path : string) (d : FileData)
  (l : list (string * FileData)) : list (string * FileData) :=
  match l with
  | [] => [(path, d)]
  | (k, v) :: rest =>
      if String.eqb path k then (k, d) :: rest
      else (k, v) :: write_file path d rest
  end.

Definition is_closed (w : World) (h : Handle) : bool :=
  match nth_error (sessions w) h with
  | Some s => s_closed s
  | None => true
  end.

Fixpoint close_nth (h : nat) (l : list Session) : list Session :=
  match l, h with
  | [], _ => []
  | s :: rest, O => mkSession (s_path s) true (S (s_closes s)) :: rest
  | s :: rest, S h' => s :: close_nth h' rest
  end.

(** The module records messages at level INFO and above
    ([logger.setLevel(logging.INFO)]). *)
Definition emit (lvl : Level) (m : Msg) (w : World) : World :=
  match lvl with
  | DEBUG => w
  | _ => mkWorld (dirs w) (files w) (log w ++ [(lvl, m)]) (sessions w)
                 (uncaught w)
  end.

(** *** Statements of a function body

    A frame holds the world and the local variables that name document
    sessions; a statement continues, returns from the function, or
    raises. *)
Record Frame : Type := mkFrame {
  world : World;
  locals : list (string * Handle)
}.

Inductive Ctl (A : Type) : Type :=
| Next (a : A)
| Ret
| Exc (e : Exn).
Arguments Next {A} a.
Arguments Ret {A}.
Arguments Exc {A} e.

Definition M (A : Type) : Type := Frame -> Ctl A * Frame.

Definition ret {A : Type} (a : A) : M A := fun f => (Next a, f).

Definition bindM {A B : Type} (m : M A) (k : A -> M B) : M B :=
  fun f =>
    match m f with
    | (Next a, f') => k a f'
    | (Ret, f') => (Ret, f')
    | (Exc e, f') => (Exc e, f')
    end.

Notation "x <- m ;; k" := (bindM m (fun x => k))
  (at level 61, m at next level, right associativity).
Notation "m ;;; k" := (bindM m (fun _ => k))
  (at level 61, right associativity).

Definition return_ {A : Type} : M A := fun f => (Ret, f).
Definition raise {A : Type} (e : Exn) : M A := fun f => (Exc e, f).

Definition lift {A : Type} (r : Res A) : M A :=
  match r with
  | Ok a => ret a
  | Raise e => raise e
  end.

Definition when (c : bool) (m : M unit) : M unit :=
  if c then m else ret tt.

Definition on_world (g : World -> World) : M unit :=
  fun f => (Next tt, mkFrame (g (world f)) (locals f)).

Definition logger (lvl : Level) (m : Msg) : M unit := on_world (emit lvl m).

Definition os_path_exists (p : string) : M bool :=
  fun f => (Next (path_exists (world f) p), f).

(** [var = h]. *)
Definition assign (var : string) (h : Handle) : M unit :=
  fun f => (Next tt, mkFrame (world f) ((var, h) :: locals f)).

Definition add_session (s : Session) (w : World) : World :=
  mkWorld (dirs w) (files w) (log w) (sessions w ++ [s]) (uncaught w).

(** [pymupdf.open(path)]: a session on the document stored at [path];
    raises when the file is missing or is not a PDF. *)
Definition pymupdf_open (path : string) : M (Handle * Document) :=
  fun f =>
    match lookup path (files (world f)) with
    | Some (PdfFile pages) =>
        (Next (List.length (sessions (world f)), pages),
         mkFrame (add_session (mkSession (Some path) false O) (world f))
                 (locals f))
    | _ => (Exc (FileDataError path), f)
    end.

(** [pymupdf.open()]: a session on a new, empty document. *)
Definition pymupdf_new : M Handle :=
  fun f =>
    (Next (List.length (sessions (world f))),
     mkFrame (add_session (mkSession None false O) (world f)) (locals f)).

(** [doc.close()]: raises on a session that is already closed. *)
Definition doc_close (h : Handle) : M unit :=
  fun f =>
    if is_closed (world f) h then (Exc (ValueError "document closed"), f)
    else
      let w := world f in
      (Next tt,
       mkFrame (mkWorld (dirs w) (files w) (log w)
                        (close_nth h (sessions w)) (uncaught w))
               (locals f)).

Definition store (path : string) (pages : Document) (w : World) : World :=
  mkWorld (dirs w) (write_file path (PdfFile pages) (files w)) (log w)
          (sessions w) (uncaught w).

(** [doc.save(path, ...)]. *)
Definition doc_save `{Collaborators} (path : string) (pages : Document)
  : M unit :=
  if save_accepts pages then on_world (store path pages)
  else raise (ValueError "cannot save").

(** [if 'var' in locals() and not var.is_closed: var.close()]. *)
Definition close_if_open (var : string) : M unit :=
  fun f =>
    match lookup var (locals f) with
    | Some h =>
        if negb (is_closed (world f) h) then doc_close h f else (Next tt, f)
    | None => (Next tt, f)
    end.

(** [if 'var' in locals() and var.is_closed: var.close()]. *)
Definition close_if_closed (var : string) : M unit :=
  fun f =>
    match lookup var (locals f) with
    | Some h =>
        if is_closed (world f) h then doc_close h f else (Next tt, f)
    | None => (Next tt, f)
    end.

Definition set_uncaught (e : Exn) (w : World) : World :=
  mkWorld (dirs w) (files w) (log w) (sessions w) (Some e).

(** [try: body / except Exception as e: logger.<lvl>(e) / finally: fin],
    run in a fresh frame; an exception raised by [fin] leaves the
    function. *)
Definition try_except_finally (body : M unit) (lvl : Level) (fin : M unit)
  (w : World) : World :=
  let (c, f1) := body (mkFrame w []) in
  let f2 := match c with
            | Exc e => snd (logger lvl (MsgException e) f1)
            | _ => f1
            end in
  let (c', f3) := fin f2 in
  match c' with
  | Exc e => set_uncaught e (world f3)
  | _ => world f3
  end.

Definition LogRec : Type := (Level * Msg)%type.

Definition emit_all (l : list LogRec) : M unit :=
  on_world (fun w => fold_left (fun w r => emit (fst r) (snd r) w) l w).

(** *** The file-system collaborators *)

Definition ends_with_pdf (name : string) : bool :=
  let n := String.length name in
  (4 <=? n)%nat && String.eqb (substring (n - 4) 4 name) ".pdf".

Fixpoint contains_char (c : ascii) (s : string) : bool :=
  match s with
  | EmptyString => false
  | String a s' => Ascii.eqb a c || contains_char c s'
  end.

(** Does [path] match the pattern [dir + "/*.pdf"]? *)
Definition glob_match (dir path : string) : bool :=
  let pre := (dir ++ "/")%string in
  let name := substring (String.length pre)
                        (String.length path - String.length pre) path in
  String.prefix pre path
  && negb (contains_char "/" name)
  && negb (String.prefix "." name)
  && ends_with_pdf name.

(** [glob.glob(dir + "/*.pdf")]: the matching files, in listing order. *)
Definition glob_pdf (w : World) (dir : string) : list string :=
  filter (glob_match dir) (map fst (files w)).

Definition makedirs (p : string) (w : World) : World :=
  mkWorld (dirs w ++ [p]) (files w) (log w) (sessions w) (uncaught w).

(** *** Natural order *)

(** Modelled from the spec: natural sort orders strings so that embedded
    numeric substrings compare by numeric value, not lexicographically
    ([natsort.natsorted] is not part of the module).  A string is cut
    into alternating text and number chunks, chunk lists are compared
    lexicographically, and the sort is stable. *)
Inductive Chunk : Type :=
| CNum (n : N)
| CText (s : string).

Definition is_digit (c : ascii) : bool :=
  ((48 <=? nat_of_ascii c) && (nat_of_ascii c <=? 57))%nat.

Definition digit_value (c : ascii) : N := N.of_nat (nat_of_ascii c - 48).

Fixpoint natural_key_from (s : string) (acc : Chunk) : list Chunk :=
  match s with
  | EmptyString => [acc]
  | String c s' =>
      if is_digit c then
        match acc with
        | CNum n => natural_key_from s' (CNum (10 * n + digit_value c))
        | CText _ => acc :: natural_key_from s' (CNum (digit_value c))
        end
      else
        match acc with
        | CText t =>
            natural_key_from s' (CText (t ++ String c EmptyString))
        | CNum _ => acc :: natural_key_from s' (CText (String c EmptyString))
        end
  end.

Definition natural_key (s : string) : list Chunk :=
  natural_key_from s (CText EmptyString).

Definition chunk_compare (a b : Chunk) : comparison :=
  match a, b with
  | CNum m, CNum n => N.compare m n
  | CNum _, CText _ => Lt
  | CText _, CNum _ => Gt
  | CText s, CText t => String.compare s t
  end.

Fixpoint key_compare (k1 k2 : list Chunk) : comparison :=
  match k1, k2 with
  | [], [] => Eq
  | [], _ :: _ => Lt
  | _ :: _, [] => Gt
  | a :: r1, b :: r2 =>
      match chunk_compare a b with
      | Eq => key_compare r1 r2
      | c => c
      end
  end.

Definition natural_le (a b : string) : bool :=
  match key_compare (natural_key a) (natural_key b) with
  | Gt => false
  | _ => true
  end.

Fixpoint nat_insert (x : string) (l : list string) : list string :=
  match l with
  | [] => [x]
  | y :: rest =>
      if natural_le y x then y :: nat_insert x rest else x :: y :: rest
  end.

(** Modelled from the spec: [natsort.natsorted], the stable sort into
    natural order. *)
Definition natsorted (l : list string) : list string :=
  fold_left (fun acc x => nat_insert x acc) l [].

(* ================================================================== *)
(** ** The operations of the module *)
(* ================================================================== *)

Section Operations.

Context {C : Collaborators}.

(** *** [masking_to_pdf] *)

Definition black : Color := (0, 0, 0).

(** The loop over [mask_rect_array] on one page.  (The DEBUG message
    of each round is below the logger's level.) *)
Fixpoint register_masks (mask_rect_array : list PyObj) (page : Page)
  : list LogRec * Page :=
  match mask_rect_array with
  | [] => ([], page)
  | mask_rect :: rest =>
      match mask_rect with
      | ObjRect r =>
          if rect_is_valid r
          then register_masks rest (add_redact_annot r black page)
          else let (l, p) := register_masks rest page in
               ((ERROR, MsgInvalidMask mask_rect) :: l, p)
      | ObjOther _ =>
          let (l, p) := register_masks rest page in
          ((ERROR, MsgInvalidMask mask_rect) :: l, p)
      end
  end.

Definition masking_page (mask_rect_array : list PyObj) (page : Page)
  : list LogRec * Page :=
  let page := normalize_rotation page in
  let (l, page) := register_masks mask_rect_array page in
  (l, apply_redactions page).

Fixpoint masking_pages (mask_rect_array : list PyObj) (pages : Document)
  : list LogRec * Document :=
  match pages with
  | [] => ([], [])
  | page :: rest =>
      let (l1, page') := masking_page mask_rect_array page in
      let (l2, rest') := masking_pages mask_rect_array rest in
      (l1 ++ l2, page' :: rest')
  end.

Definition masking_to_pdf (input_pdf_path output_pdf_path : string)
  (mask_rect_array : list PyObj) (overwrite : bool) : World -> World :=
  try_except_finally
    (e <- os_path_exists input_pdf_path ;;
     when (negb e)
       (logger FATAL (MsgInputMissing input_pdf_path "masking_to_pdf") ;;;
        return_) ;;;
     when (String.eqb input_pdf_path output_pdf_path)
       (logger FATAL (MsgSameAsInput "masking_to_pdf") ;;; return_) ;;;
     e' <- os_path_exists output_pdf_path ;;
     when (negb overwrite && e')
       (logger FATAL (MsgOutputExists output_pdf_path "masking_to_pdf") ;;;
        return_) ;;;
     doc <- pymupdf_open input_pdf_path ;;
     assign "doc" (fst doc) ;;;
     logger DEBUG (MsgProgress "masking") ;;;
     let (l, pages) := masking_pages mask_rect_array (snd doc) in
     emit_all l ;;;
     doc_save output_pdf_path pages ;;;
     logger DEBUG (MsgProgress "masking done"))
    ERROR
    (close_if_open "doc").

(** *** [grid_to_pdf] *)

(** The body of the two nested loops: one cell, clipped to the page. *)
Definition grid_cell (page_width page_height interval : Q)
  (y_start x_start : Z) : list Rect :=
  let x0 := Py.float x_start in
  let y0 := Py.float y_start in
  let x1 := Py.min (inject_Z x_start + interval) page_width in
  let y1 := Py.min (inject_Z y_start + interval) page_height in
  if Py.gt x1 x0 && Py.gt y1 y0 then [mkRect x0 y0 x1 y1] else [].

(** One pass: the rectangles drawn, rows first. *)
Definition grid_cells (page_width page_height interval : Q)
  : Res (list Rect) :=
  Py.bind (range0 (int page_height) (int interval)) (fun ys =>
  Py.bind (range0 (int page_width) (int interval)) (fun xs =>
  Ok (flat_map
        (fun y_start =>
           flat_map (grid_cell page_width page_height interval y_start) xs)
        ys))).

Definition draw_rects (cells : list Rect) (s : Shape) : Shape :=
  fold_left (fun s r => draw_rect r s) cells s.

Definition grid_page (grid_interval grid_width : Q)
  (grid_thin_color grid_medium_color grid_thick_color : Color)
  (page : Page) : Res Page :=
  let page := normalize_rotation page in
  let shape := new_shape in
  let page_width := p_width page in
  let page_height := p_height page in
  Py.bind (grid_cells page_width page_height grid_interval) (fun cells =>
  let shape := finish grid_width grid_thin_color (draw_rects cells shape) in
  let grid_interval_5th := grid_interval * 5 in
  Py.bind (grid_cells page_width page_height grid_interval_5th) (fun cells =>
  let shape :=
    finish (grid_width * 5) grid_medium_color (draw_rects cells shape) in
  let grid_interval_10th := grid_interval * 10 in
  Py.bind (grid_cells page_width page_height grid_interval_10th) (fun cells =>
  let shape :=
    finish (grid_width * 10) grid_thick_color (draw_rects cells shape) in
  Ok (commit shape page)))).

Fixpoint grid_pages (grid_interval grid_width : Q)
  (thin medium thick : Color) (pages : Document) : Res Document :=
  match pages with
  | [] => Ok []
  | page :: rest =>
      Py.bind (grid_page grid_interval grid_width thin medium thick page)
        (fun page' =>
      Py.bind (grid_pages grid_interval grid_width thin medium thick rest)
        (fun rest' => Ok (page' :: rest')))
  end.

Definition grid_to_pdf (input_pdf_path output_pdf_path : string)
  (grid_interval grid_width : Q)
  (grid_thin_color grid_medium_color grid_thick_color : Color)
  (overwrite : bool) : World -> World :=
  try_except_finally
    (e <- os_path_exists input_pdf_path ;;
     when (negb e)
       (logger FATAL (MsgInputMissing input_pdf_path "grid_to_pdf") ;;;
        return_) ;;;
     when (String.eqb input_pdf_path output_pdf_path)
       (logger FATAL (MsgSameAsInput "grid_to_pdf") ;;; return_) ;;;
     e' <- os_path_exists output_pdf_path ;;
     when (negb overwrite && e')
       (logger FATAL (MsgOutputExists output_pdf_path "grid_to_pdf") ;;;
        return_) ;;;
     doc <- pymupdf_open input_pdf_path ;;
     assign "doc" (fst doc) ;;;
     pages <- lift (grid_pages grid_interval grid_width grid_thin_color
                      grid_medium_color grid_thick_color (snd doc)) ;;
     doc_save output_pdf_path pages ;;;
     logger DEBUG (MsgProgress "grid saved"))
    DEBUG
    (close_if_closed "doc").

(** *** The page loop of the stamping operations

    [for page_idx in range(source_doc.page_count)]: the body receives
    the output document built so far and gives the messages it logs
    and the output document it leaves, or raises. *)
Fixpoint for_pages
  (body : Document -> nat -> Page -> list LogRec * Res Document)
  (pages : list Page) (page_idx : nat) (output_doc : Document)
  : list LogRec * Res Document :=
  match pages with
  | [] => ([], Ok output_doc)
  | original_page :: rest =>
      match body output_doc page_idx original_page with
      | (l, Ok output_doc') =>
          let (l', r) := for_pages body rest (S page_idx) output_doc' in
          (l ++ l', r)
      | (l, Raise e) => (l, Raise e)
      end
  end.

(** [new_page.show_pdf_page(rect, source_doc, pno, ...)]. *)
Definition show_pdf_page (rect : Rect) (src : string) (pno : nat)
  (page : Page) : Res Page :=
  if show_pdf_page_accepts rect
  then Ok (add_content (ShownPage rect src pno) page)
  else Raise (ValueError "rect must be finite and not empty").

(** The regions the stamping operations derive from a page size. *)
Definition header_rect (width header_height : Q) : Rect :=
  mkRect 0 0 width header_height.

Definition footer_rect (width height footer_height : Q) : Rect :=
  mkRect 0 (height - footer_height) width height.

(** *** [header_to_pdf] *)

Record HeaderArgs : Type := mkHeaderArgs {
  h_font_name : string;
  h_font_size : Q;
  h_text_color : Color;
  h_header_height : Q;
  h_padding : Q;
  h_resize_original : bool;
  h_delimiter : Delimiters;
  h_stamp_only_firstpage : bool;
  h_draw_header_line : bool;
  h_header_line_color : Color;
  h_header_line_width : Q;
  h_draw_content_border : bool;
  h_content_border_width : Q;
  h_content_border_color : Color
}.

Definition header_defaults : HeaderArgs :=
  mkHeaderArgs "japan" 20 (1, 0, 0) 70 10 false Space false
               false (0, 0, 0) 0.5 false 0.5 (0, 0, 0).

Definition header_content_rect (a : HeaderArgs) (width height : Q) : Rect :=
  if h_resize_original a
  then mkRect 0 (h_header_height a) width height
  else mkRect 0 0 width height.

(** What a round of the page loop of [header_to_pdf] draws on the
    new page, given the regions. *)
Definition header_compose (a : HeaderArgs)
  (src header_text_content : string) (page_idx : nat)
  (original_page new_page : Page) (header_actual_rect content_rect : Rect)
  : Res Page :=
  Py.bind (show_pdf_page content_rect src page_idx new_page)
    (fun new_page =>
  let new_page :=
    if h_draw_content_border a && h_resize_original a then
      let resize_ratio :=
        rect_height content_rect / p_height original_page in
      let actual_shown_rect :=
        create_rect
          ((rect_width content_rect - p_width original_page * resize_ratio)
           / 2)
          (h_header_height a)
          (p_width original_page * resize_ratio)
          (rect_height content_rect - h_content_border_width a) in
      commit (finish (h_content_border_width a) (h_content_border_color a)
                     (draw_rect actual_shown_rect new_shape))
             new_page
    else new_page in
  let new_page :=
    if h_draw_header_line a then
      add_content
        (Line (x0 header_actual_rect + h_padding a,
               y1 header_actual_rect - h_padding a)
              (x1 header_actual_rect - h_padding a,
               y1 header_actual_rect - h_padding a)
              (h_header_line_color a) (h_header_line_width a))
        new_page
    else new_page in
  if h_stamp_only_firstpage a then Ok new_page
  else
    let text_insertion_rect :=
      mkRect (x0 header_actual_rect + h_padding a)
             (y0 header_actual_rect + h_padding a * 2)
             (x1 header_actual_rect - h_padding a * 2)
             (y1 header_actual_rect) in
    Ok (add_content
          (TextBox text_insertion_rect header_text_content
                   (h_font_name a) (h_font_size a) (h_text_color a)
                   TEXT_ALIGN_RIGHT)
          new_page)).

(** One round of the page loop of [header_to_pdf]: the page added to
    the output document. *)
Definition header_page (a : HeaderArgs) (src header_text_content : string)
  (page_idx : nat) (original_page : Page) : Res Page :=
  let original_page := normalize_rotation original_page in
  let new_page :=
    new_page (p_width original_page) (p_height original_page) in
  let header_actual_rect :=
    header_rect (p_width new_page) (h_header_height a) in
  let content_rect :=
    header_content_rect a (p_width new_page) (p_height new_page) in
  header_compose a src header_text_content page_idx original_page new_page
                 header_actual_rect content_rect.

Definition header_body (a : HeaderArgs) (src header_text_content : string)
  (output_doc : Document) (page_idx : nat) (original_page : Page)
  : list LogRec * Res Document :=
  ([], Py.bind (header_page a src header_text_content page_idx
                            original_page)
         (fun new_page => Ok (output_doc ++ [new_page]))).

Definition header_to_pdf (input_pdf_path output_pdf_path : string)
  (overwrite : bool) (a : HeaderArgs) : World -> World :=
  try_except_finally
    (e <- os_path_exists input_pdf_path ;;
     when (negb e)
       (logger FATAL (MsgInputMissing input_pdf_path "header_to_pdf") ;;;
        return_) ;;;
     when (String.eqb input_pdf_path output_pdf_path)
       (logger FATAL (MsgSameAsInput "header_to_pdf") ;;; return_) ;;;
     e' <- os_path_exists output_pdf_path ;;
     when (negb overwrite && e')
       (logger FATAL (MsgOutputExists output_pdf_path "header_to_pdf")) ;;;
     let base_name := basename input_pdf_path in
     header_text_content <-
       lift (split_by_delimiter (splitext_root base_name)
                                (h_delimiter a)) ;;
     source_doc <- pymupdf_open input_pdf_path ;;
     assign "source_doc" (fst source_doc) ;;;
     output_doc <- pymupdf_new ;;
     assign "output_doc" output_doc ;;;
     let (l, r) :=
       for_pages (header_body a input_pdf_path header_text_content)
                 (snd source_doc) 0 [] in
     emit_all l ;;;
     pages <- lift r ;;
     doc_save output_pdf_path pages ;;;
     doc_close output_doc)
    ERROR
    (close_if_open "source_doc" ;;; close_if_open "output_doc").

(** *** [pagenum_to_pdf] *)

Record PagenumArgs : Type := mkPagenumArgs {
  f_font_name : string;
  f_font_size : Q;
  f_text_color : Color;
  f_footer_height : Q;
  f_resize_original : bool;
  f_padding : Q;
  f_show_total_pages : bool;
  f_draw_footer_line : bool;
  f_footer_line_color : Color;
  f_footer_line_width : Q
}.

Definition pagenum_defaults : PagenumArgs :=
  mkPagenumArgs "helv" 8 (0, 0, 0) 30 false 5 false false (0, 0, 0) 0.5.

Definition pagenum_content_rect (a : PagenumArgs) (width height : Q)
  : Rect :=
  let content_rect := mkRect 0 0 width (height - f_footer_height a) in
  if negb (f_resize_original a) then mkRect 0 0 width height
  else content_rect.

(** [page_number_text] of [pagenum_to_pdf]. *)
Definition pagenum_text (show_total_pages : bool)
  (page_idx total_pages : nat) : string :=
  if show_total_pages
  then (Py.str (page_idx + 1) ++ " / " ++ Py.str total_pages)%string
  else Py.str (page_idx + 1).

(** What a round of the page loop of [pagenum_to_pdf] draws on the
    new page, given the regions. *)
Definition pagenum_compose (a : PagenumArgs) (src : string)
  (total_pages page_idx : nat) (new_page : Page)
  (footer_actual_rect content_rect : Rect) : Res Page :=
  Py.bind (show_pdf_page content_rect src page_idx new_page)
    (fun new_page =>
  let page_number_text :=
    pagenum_text (f_show_total_pages a) page_idx total_pages in
  let text_insertion_rect :=
    mkRect (x0 footer_actual_rect + f_padding a)
           (y0 footer_actual_rect + f_padding a)
           (x1 footer_actual_rect - f_padding a)
           (y1 footer_actual_rect - f_padding a) in
  let new_page :=
    add_content
      (TextBox text_insertion_rect page_number_text
               (f_font_name a) (f_font_size a) (f_text_color a)
               TEXT_ALIGN_CENTER)
      new_page in
  let new_page :=
    if f_draw_footer_line a then
      add_content
        (Line (x0 footer_actual_rect + f_padding a,
               y0 footer_actual_rect + f_padding a)
              (x1 footer_actual_rect - f_padding a,
               y0 footer_actual_rect + f_padding a)
              (f_footer_line_color a) (f_footer_line_width a))
        new_page
    else new_page in
  Ok new_page).

Definition pagenum_page (a : PagenumArgs) (src : string)
  (total_pages page_idx : nat) (original_page : Page) : Res Page :=
  let original_page := normalize_rotation original_page in
  let new_page :=
    new_page (p_width original_page) (p_height original_page) in
  let footer_actual_rect :=
    footer_rect (p_width new_page) (p_height new_page)
                (f_footer_height a) in
  let content_rect :=
    pagenum_content_rect a (p_width new_page) (p_height new_page) in
  pagenum_compose a src total_pages page_idx new_page footer_actual_rect
                  content_rect.

Definition pagenum_body (a : PagenumArgs) (src : string)
  (total_pages : nat) (output_doc : Document) (page_idx : nat)
  (original_page : Page) : list LogRec * Res Document :=
  ([], Py.bind (pagenum_page a src total_pages page_idx original_page)
         (fun new_page => Ok (output_doc ++ [new_page]))).

Definition pagenum_to_pdf (input_pdf_path output_pdf_path : string)
  (overwrite : bool) (a : PagenumArgs) : World -> World :=
  try_except_finally
    (e <- os_path_exists input_pdf_path ;;
     when (negb e)
       (logger FATAL (MsgInputMissing input_pdf_path "pagenum_to_pdf") ;;;
        return_) ;;;
     when (String.eqb input_pdf_path output_pdf_path)
       (logger FATAL (MsgSameAsInput "pagenum_to_pdf") ;;; return_) ;;;
     e' <- os_path_exists output_pdf_path ;;
     when (negb overwrite && e')
       (logger FATAL (MsgOutputExists output_pdf_path "pagenum_to_pdf")) ;;;
     source_doc <- pymupdf_open input_pdf_path ;;
     assign "source_doc" (fst source_doc) ;;;
     output_doc <- pymupdf_new ;;
     assign "output_doc" output_doc ;;;
     let total_pages := List.length (snd source_doc) in
     let (l, r) :=
       for_pages (pagenum_body a input_pdf_path total_pages)
                 (snd source_doc) 0 [] in
     emit_all l ;;;
     pages <- lift r ;;
     doc_save output_pdf_path pages ;;;
     doc_close output_doc)
    ERROR
    (close_if_open "source_doc" ;;; close_if_open "output_doc").

(** *** [header_and_pagenum_to_pdf] *)

Record HpArgs : Type := mkHpArgs {
  hp_resize_original : bool;
  hp_header_font_name : string;
  hp_header_font_size : Q;
  hp_header_text_color : Color;
  hp_header_height : Q;
  hp_header_paddiing : Q;
  hp_delimiter : Delimiters;
  hp_stamp_only_firstpage : bool;
  hp_draw_header_line : bool;
  hp_header_line_color : Color;
  hp_header_line_width : Q;
  hp_footer_font_name : string;
  hp_footer_font_size : Q;
  hp_footer_text_color : Color;
  hp_footer_height : Q;
  hp_footer_padding : Q;
  hp_write_pagenum : bool;
  hp_show_total_pages : bool;
  hp_draw_footer_line : bool;
  hp_footer_line_color : Color;
  hp_footer_line_width : Q;
  hp_draw_content_border : bool;
  hp_content_border_width : Q;
  hp_content_border_color : Color
}.

Definition hp_defaults : HpArgs :=
  mkHpArgs true "japan" 20 (1, 0, 0) 70 10 Space false false (0, 0, 0) 0.5
           "helv" 8 (0, 0, 0) 30 3 true false false (0, 0, 0) 0.5
           true 0.5 (0, 0, 0).

Definition hp_content_rect (a : HpArgs) (new_width new_height : Q)
  (original_width original_height : Q) : Rect :=
  if hp_resize_original a
  then mkRect 0 (hp_header_height a) new_width
              (new_height - hp_footer_height a)
  else mkRect 0 0 original_width original_height.

(** [page_number_text] of [header_and_pagenum_to_pdf]. *)
Definition hp_pagenum_text (show_total_pages : bool)
  (page_idx total_pages : nat) : string :=
  if show_total_pages
  then (" " ++ Py.str (page_idx + 1) ++ " / " ++ Py.str total_pages)%string
  else (" " ++ Py.str (page_idx + 1))%string.

(** The part of a round that follows the collapse check: what is drawn
    on the new page. *)
Definition hp_compose (a : HpArgs) (src header_text_content : string)
  (total_pages page_idx : nat) (original_page new_page : Page)
  (actual_header_rect actual_footer_rect content_rect : Rect) : Res Page :=
  Py.bind (show_pdf_page content_rect src page_idx new_page)
    (fun new_page =>
  let new_page :=
    if hp_write_pagenum a then
      let page_number_text :=
        hp_pagenum_text (hp_show_total_pages a) page_idx total_pages in
      let footer_insertion_rect :=
        mkRect (x0 actual_footer_rect + hp_footer_padding a)
               (y0 actual_footer_rect + hp_footer_padding a)
               (x1 actual_footer_rect - hp_footer_padding a)
               (y1 actual_footer_rect - hp_footer_padding a) in
      add_content
        (TextBox footer_insertion_rect page_number_text
                 (hp_footer_font_name a) (hp_footer_font_size a)
                 (hp_footer_text_color a) TEXT_ALIGN_CENTER)
        new_page
    else new_page in
  let new_page :=
    if hp_draw_footer_line a then
      add_content
        (Line (x0 actual_footer_rect + hp_footer_padding a,
               y0 actual_footer_rect + hp_footer_padding a)
              (x1 actual_footer_rect - hp_footer_padding a,
               y0 actual_footer_rect + hp_footer_padding a)
              (hp_footer_line_color a) (hp_footer_line_width a))
        new_page
    else new_page in
  let new_page :=
    if hp_draw_content_border a && hp_resize_original a then
      let resize_ratio :=
        rect_height content_rect / p_height original_page in
      let actual_shown_rect :=
        create_rect
          ((rect_width content_rect - p_width original_page * resize_ratio)
           / 2)
          (hp_header_height a)
          (p_width original_page * resize_ratio)
          (rect_height content_rect) in
      commit (finish (hp_content_border_width a)
                     (hp_content_border_color a)
                     (draw_rect actual_shown_rect new_shape))
             new_page
    else new_page in
  let new_page :=
    if hp_draw_header_line a then
      add_content
        (Line (x0 actual_header_rect + hp_header_paddiing a,
               y1 actual_header_rect - hp_header_paddiing a)
              (x1 actual_header_rect - hp_header_paddiing a,
               y1 actual_header_rect - hp_header_paddiing a)
              (hp_header_line_color a) (hp_header_line_width a))
        new_page
    else new_page in
  if hp_stamp_only_firstpage a && (0 <? page_idx)%nat then Ok new_page
  else
    let header_insertion_rect :=
      mkRect (x0 actual_header_rect + hp_header_paddiing a)
             (y0 actual_header_rect + hp_header_paddiing a * 3)
             (x1 actual_header_rect - hp_header_paddiing a * 3)
             (y1 actual_header_rect) in
    Ok (add_content
          (TextBox header_insertion_rect header_text_content
                   (hp_header_font_name a) (hp_header_font_size a)
                   (hp_header_text_color a) TEXT_ALIGN_RIGHT)
          new_page)).

(** One round of the page loop.  [output_doc.new_page] has already put
    the new page at the end of the output document when the collapse
    check is made; [insert_pdf] then appends the copy of the original
    page behind it. *)
Definition hp_body (a : HpArgs) (src header_text_content : string)
  (total_pages : nat) (output_doc : Document) (page_idx : nat)
  (original_page : Page) : list LogRec * Res Document :=
  let original_page := normalize_rotation original_page in
  let new_page :=
    new_page (p_width original_page) (p_height original_page) in
  let actual_header_rect :=
    header_rect (p_width new_page) (hp_header_height a) in
  let actual_footer_rect :=
    footer_rect (p_width new_page) (p_height new_page)
                (hp_footer_height a) in
  let content_rect :=
    hp_content_rect a (p_width new_page) (p_height new_page)
                    (p_width original_page) (p_height original_page) in
  if Py.le (rect_height content_rect) 0 then
    ([(WARNING, MsgCollapse (page_idx + 1))],
     Ok ((output_doc ++ [new_page]) ++ [original_page]))
  else
    ([], Py.bind (hp_compose a src header_text_content total_pages
                             page_idx original_page new_page
                             actual_header_rect actual_footer_rect
                             content_rect)
           (fun new_page => Ok (output_doc ++ [new_page]))).

Definition header_and_pagenum_to_pdf
  (input_pdf_path output_pdf_path : string) (overwrite : bool)
  (a : HpArgs) : World -> World :=
  try_except_finally
    (e <- os_path_exists input_pdf_path ;;
     when (negb e)
       (logger FATAL
          (MsgInputMissing input_pdf_path "header_and_pagenum_to_pdf") ;;;
        return_) ;;;
     when (String.eqb input_pdf_path output_pdf_path)
       (logger FATAL (MsgSameAsInput "header_and_pagenum_to_pdf") ;;;
        return_) ;;;
     e' <- os_path_exists output_pdf_path ;;
     when (negb overwrite && e')
       (logger FATAL
          (MsgOutputExists output_pdf_path "header_and_pagenum_to_pdf")) ;;;
     let base_name := basename input_pdf_path in
     header_text_content <-
       lift (split_by_delimiter (splitext_root base_name)
                                (hp_delimiter a)) ;;
     source_doc <- pymupdf_open input_pdf_path ;;
     assign "source_doc" (fst source_doc) ;;;
     output_doc <- pymupdf_new ;;
     assign "output_doc" output_doc ;;;
     let total_pages := List.length (snd source_doc) in
     let (l, r) :=
       for_pages (hp_body a input_pdf_path header_text_content total_pages)
                 (snd source_doc) 0 [] in
     emit_all l ;;;
     pages <- lift r ;;
     doc_save output_pdf_path pages ;;;
     doc_close output_doc ;;;
     doc_close (fst source_doc))
    ERROR
    (close_if_open "source_doc" ;;; close_if_open "output_doc").

(** *** [header_and_frame_to_pdf] *)

Record FrameArgs : Type := mkFrameArgs {
  fr_header_font_name : string;
  fr_header_font_size : Q;
  fr_header_text_color : Color;
  fr_header_height : Q;
  fr_header_padding : Q;
  fr_delimiter : Delimiters;
  fr_stamp_only_firstpage : bool;
  fr_footer_height : Q;
  fr_footer_padding : Q;
  fr_frame_width : Q;
  fr_frame_color : Color
}.

Definition frame_defaults : FrameArgs :=
  mkFrameArgs "japan" 20 (1, 0, 0) 70 10 Space false 30 3 0.5 (0, 0, 0).

(** The keyword arguments [header_and_frame_to_pdf] passes on; the
    others keep their defaults. *)
Definition frame_hp_args (a : FrameArgs) : HpArgs :=
  mkHpArgs (hp_resize_original hp_defaults)
           (fr_header_font_name a) (fr_header_font_size a)
           (fr_header_text_color a) (fr_header_height a)
           (fr_header_padding a) (fr_delimiter a)
           (fr_stamp_only_firstpage a)
           (hp_draw_header_line hp_defaults)
           (hp_header_line_color hp_defaults)
           (hp_header_line_width hp_defaults)
           (hp_footer_font_name hp_defaults)
           (hp_footer_font_size hp_defaults)
           (hp_footer_text_color hp_defaults)
           (fr_footer_height a) (fr_footer_padding a)
           false
           (hp_show_total_pages hp_defaults)
           (hp_draw_footer_line hp_defaults)
           (hp_footer_line_color hp_defaults)
           (hp_footer_line_width hp_defaults)
           true (fr_frame_width a) (fr_frame_color a).

Definition header_and_frame_to_pdf
  (input_pdf_path output_pdf_path : string) (overwrite : bool)
  (a : FrameArgs) : World -> World :=
  header_and_pagenum_to_pdf input_pdf_path output_pdf_path overwrite
                            (frame_hp_args a).

(** *** The folder-wide operations *)

(** [for pdf_in_file in ...: body]; an exception that leaves [body]
    ends the loop. *)
Fixpoint for_files (body : string -> World -> World) (l : list string)
  (w : World) : World :=
  match l with
  | [] => w
  | pdf_in_file :: rest =>
      let w' := body pdf_in_file w in
      match uncaught w' with
      | Some _ => w'
      | None => for_files body rest w'
      end
  end.

(** [if not os.path.exists(abspath(out)): os.makedirs(abspath(out))]
    followed by a message at level [lvl]. *)
Definition ensure_folder (lvl : Level) (output_folder_abspath : string)
  (w : World) : World :=
  if negb (path_exists w (abspath output_folder_abspath))
  then emit lvl (MsgFolderCreated output_folder_abspath)
            (makedirs (abspath output_folder_abspath) w)
  else w.

(** The steps the four folder-wide operations share: the two guards,
    the preparation of the output folder ([prepare], in the order each
    operation has it), and the loop over
    [glob.glob(input_folder_abspath + "/*.pdf")], which announces each
    file at level [lvl] and calls the single-document operation. *)
Definition in_folder (func : string)
  (prepare : string -> string -> World -> World) (lvl : Level)
  (single : string -> string -> World -> World)
  (input_folder_path output_folder_path : string) (w : World) : World :=
  if String.eqb input_folder_path output_folder_path
  then emit FATAL (MsgSameFolder func) w
  else if negb (path_exists w input_folder_path)
  then emit FATAL (MsgFolderMissing input_folder_path func) w
  else
    let input_folder_abspath := abspath input_folder_path in
    let output_folder_abspath := abspath output_folder_path in
    let w := prepare input_folder_abspath output_folder_abspath w in
    for_files
      (fun pdf_in_file w =>
         let pdf_out_file :=
           (output_folder_abspath ++ "/" ++ basename pdf_in_file)%string in
         single pdf_in_file pdf_out_file
                (emit lvl (MsgFileStart pdf_in_file pdf_out_file) w))
      (glob_pdf w input_folder_abspath) w.

Definition masking_to_pdf_in_folder
  (input_folder_path output_folder_path : string)
  (rect_array : list PyObj) (overwrite : bool) : World -> World :=
  in_folder "masking_to_pdf_in_folder"
    (fun i o w => emit INFO (MsgFolderStart i o) (ensure_folder INFO o w))
    INFO
    (fun pdf_in_file pdf_out_file =>
       masking_to_pdf pdf_in_file pdf_out_file rect_array overwrite)
    input_folder_path output_folder_path.

Definition header_to_pdf_in_folder
  (input_folder_path output_folder_path : string) (a : HeaderArgs)
  : World -> World :=
  in_folder "header_to_pdf_in_folder"
    (fun i o w =>
       ensure_folder DEBUG o (emit DEBUG (MsgFolderStart i (abspath i)) w))
    DEBUG
    (fun pdf_in_file pdf_out_file =>
       header_to_pdf pdf_in_file pdf_out_file true a)
    input_folder_path output_folder_path.

Definition header_and_pagenum_to_pdf_in_folder
  (input_folder_path output_folder_path : string) (overwrite : bool)
  (a : HpArgs) : World -> World :=
  in_folder "header_and_pagenum_to_pdf_in_folder"
    (fun i o w =>
       ensure_folder INFO o (emit INFO (MsgFolderStart i (abspath i)) w))
    INFO
    (fun pdf_in_file pdf_out_file =>
       header_and_pagenum_to_pdf pdf_in_file pdf_out_file overwrite a)
    input_folder_path output_folder_path.

Definition header_and_frame_to_pdf_in_folder
  (input_folder_path output_folder_path : string) (overwrite : bool)
  (a : FrameArgs) : World -> World :=
  in_folder "header_and_frame_to_pdf_in_folder"
    (fun _ o w => ensure_folder DEBUG o w)
    DEBUG
    (fun pdf_in_file pdf_out_file =>
       header_and_frame_to_pdf pdf_in_file pdf_out_file overwrite a)
    input_folder_path output_folder_path.

(** *** [concat_pdf] *)

(** [for pdf_in_file in output_doc_paths: ...]. *)
Fixpoint concat_files (output_doc_paths : list string)
  (output_doc : Document) : M Document :=
  match output_doc_paths with
  | [] => ret output_doc
  | pdf_in_file :: rest =>
      tmp_doc <- pymupdf_open pdf_in_file ;;
      assign "tmp_doc" (fst tmp_doc) ;;;
      logger INFO (MsgProgress pdf_in_file) ;;;
      let output_doc := (output_doc ++ snd tmp_doc)%list in
      doc_close (fst tmp_doc) ;;;
      concat_files rest output_doc
  end.

Definition concat_pdf (input_folder_path output_pdf_path : string)
  (overwrite : bool) (w : World) : World :=
  if negb (path_exists w input_folder_path)
  then emit FATAL (MsgFolderMissing input_folder_path "concat_pdf") w
  else
    let w :=
      if negb overwrite && path_exists w output_pdf_path
      then emit FATAL (MsgOutputExists output_pdf_path "concat_pdf") w
      else w in
    let input_folder_abspath := abspath input_folder_path in
    try_except_finally
      (output_doc <- pymupdf_new ;;
       assign "output_doc" output_doc ;;;
       paths <- (fun f => (Next (glob_pdf (world f) input_folder_abspath),
                           f)) ;;
       let output_doc_paths := natsorted paths in
       logger INFO (MsgProgress "concat") ;;;
       pages <- concat_files output_doc_paths [] ;;
       doc_save output_pdf_path pages ;;;
       doc_close output_doc)
      ERROR
      (close_if_open "tmp_doc" ;;; close_if_open "output_doc")
      w.


(** *** Observations on a page *)






(** Does the vertical line at [x] (resp. the horizontal line at [y])
    carry a side of one of the cells? *)
Definition on_vertical_side (cells : list Rect) (x : Q) : Prop :=
  exists c, In c cells /\ (x0 c == x \/ x1 c == x).

Definition on_horizontal_side (cells : list Rect) (y : Q) : Prop :=
  exists c, In c cells /\ (y0 c == y \/ y1 c == y).

(** Every side of every cell of [coarse] lies on a side of [fine]. *)
Definition aligned (fine coarse : list Rect) : Prop :=
  forall c, In c coarse ->
    on_vertical_side fine (x0 c) /\ on_vertical_side fine (x1 c) /\
    on_horizontal_side fine (y0 c) /\ on_horizontal_side fine (y1 c).


(** The pages of the PDF stored at a path (none when there is no
    such PDF). *)
Definition pages_at (w : World) (path : string) : Document :=
  match lookup path (files w) with
  | Some (PdfFile pages) => pages
  | _ => []
  end.

End Operations.

(* ================================================================== *)
(** ** Sample inputs *)
(* ================================================================== *)

(** A 200 x 300 page with some content of its own. *)
Definition sample_page : Page := mkPage 200 300 0%Z [Native 0] [].

(** An input folder whose listing gives "10.pdf" before "2.pdf", and an
    output folder that already holds a "2.pdf". *)
Definition sample_world : World :=
  mkWorld ["/in"; "/out"]%string
          [("/in/10.pdf"%string, PdfFile [sample_page]);
           ("/in/2.pdf"%string, PdfFile [sample_page; sample_page]);
           ("/out/2.pdf"%string, PdfFile [mkPage 1 1 0%Z [] []])]
          [] [] None.

(** Header 150 and footer 160 on a page of height 300. *)
Definition collapsing_args : HpArgs :=
  mkHpArgs true "japan" 20 (1, 0, 0) 150 10 Space false false (0, 0, 0) 0.5
           "helv" 8 (0, 0, 0) 160 3 true false false (0, 0, 0) 0.5
           true 0.5 (0, 0, 0).



Definition sample_masks : list PyObj :=
  [ObjRect (mkRect 10 10 50 50); ObjRect (mkRect 10 10 10 50);
   ObjOther "(10, 10, 50, 50)"; ObjRect (mkRect 60 60 20 20)].


(* ================================================================== *)
(** ** Frame conditions and further observations *)
(* ================================================================== *)

(** What a run may change when [out] is the only path it may write: no
    exception has left a function, the directories are the same, the log
    has only grown, and every path but [out] holds what it held. *)
Definition preserved (out : string) (w w' : World) : Prop :=
  uncaught w' = uncaught w /\
  dirs w' = dirs w /\
  (exists l, log w' = (log w ++ l)%list) /\
  forall p, p <> out -> lookup p (files w') = lookup p (files w).

Definition step_preserves (out : string) {A : Type} (m : M A) : Prop :=
  forall f, preserved out (world f) (world (snd (m f))).

Definition never_raises {A : Type} (m : M A) : Prop :=
  forall f, match fst (m f) with Exc _ => False | _ => True end.

(** A session that was opened on [p] and closed exactly once. *)
Definition closed_once (p : option string) : Session := mkSession p true 1.

(** A session once [close] has run on it if it was still open. *)
Definition ensure_closed (s : Session) : Session :=
  if s_closed s then s else mkSession (s_path s) true (S (s_closes s)).

Definition page_size (p : Page) : Q * Q := (p_width p, p_height p).


(** The point [(px, py)] lies in the cell [c] (sides at [x1], [y1]
    excluded). *)
Definition in_cell (c : Rect) (px py : Q) : Prop :=
  x0 c <= px /\ px < x1 c /\ y0 c <= py /\ py < y1 c.

(* ================================================================== *)
(** ** Properties *)
(* ================================================================== *)

Lemma split_sep_nonempty (c : ascii) (s : string) : split_sep c s <> [].
Proof.
  destruct s as [|a s]; simpl; [discriminate|].
  destruct (Ascii.eqb a c); [discriminate|].
  destruct (split_sep c s); discriminate.
Qed.

Lemma split_sep_head (c : ascii) (s : string) :
  index0 (split_sep c s) = Ok (segment_before c s).
Proof.
  induction s as [|a s IH]; simpl; [reflexivity|].
  destruct (Ascii.eqb a c); [reflexivity|].
  destruct (split_sep c s) as [|seg segs] eqn:E.
  - exfalso. exact (split_sep_nonempty c s E).
  - simpl in IH. injection IH as ->. reflexivity.
Qed.

Lemma split_ws_cons (a : ascii) (s : string) :
  split_ws (String a s) =
  if isspace a then split_ws s
  else match s with
       | EmptyString => [String a EmptyString]
       | String b _ =>
           if isspace b then String a EmptyString :: split_ws s
           else match split_ws s with
                | w :: ws => String a w :: ws
                | [] => [String a EmptyString]
                end
       end.
Proof. reflexivity. Qed.

Lemma split_ws_word (s : string) (a : ascii) :
  isspace a = false ->
  exists ws, split_ws (String a s) = String a (take_word s) :: ws.
Proof.
  revert a. induction s as [|b s IH]; intros a Ha;
    rewrite split_ws_cons, Ha.
  - eexists; reflexivity.
  - cbn [take_word]. destruct (isspace b) eqn:Hb.
    + eexists; reflexivity.
    + destruct (IH b Hb) as [ws E]. rewrite E. eexists; reflexivity.
Qed.

Lemma split_ws_take_word (a : ascii) (s : string) :
  isspace a = false ->
  index0 (split_ws (String a s)) = Ok (String a (take_word s)).
Proof.
  intros Ha. destruct (split_ws_word s a Ha) as [ws E]. rewrite E. reflexivity.
Qed.

Lemma split_ws_head (s : string) :
  has_word s = true -> index0 (split_ws s) = Ok (first_word s).
Proof.
  induction s as [|a s IH]; intros H; [discriminate|].
  destruct (isspace a) eqn:Ha.
  - cbn [has_word] in H. rewrite Ha in H. simpl in H.
    rewrite split_ws_cons. cbn [first_word]. rewrite Ha. apply IH, H.
  - rewrite split_ws_take_word by exact Ha. cbn [first_word].
    rewrite Ha. reflexivity.
Qed.


(** *** [split_by_delimiter] *)

Lemma segment_before_absent (c : ascii) (s : string) :
  contains_char c s = false -> segment_before c s = s.
Proof.
  induction s as [|a s IH]; simpl; [reflexivity|].
  destruct (Ascii.eqb a c); simpl; [discriminate|].
  intros H. rewrite IH by exact H. reflexivity.
Qed.

Lemma segment_before_first (c : ascii) (pre post : string) :
  contains_char c pre = false ->
  segment_before c (pre ++ String c post) = pre.
Proof.
  induction pre as [|a pre IH]; simpl.
  - rewrite Ascii.eqb_refl. reflexivity.
  - destruct (Ascii.eqb a c); simpl; [discriminate|].
    intros H. rewrite IH by exact H. reflexivity.
Qed.

Lemma split_by_delimiter_char (text : string) (d : Delimiters) (c : ascii) :
  d <> Space -> delimiter_char d = Some c ->
  split_by_delimiter text d = Ok (segment_before c text).
Proof.
  intros Hd Hc.
  destruct d; simpl in Hc; try discriminate; try congruence;
    injection Hc as <-; apply split_sep_head.
Qed.

(** C8, counterexample: with the [Space] variant the text [" a"], whose
    first segment before the first space is empty, yields ["a"]; and the
    empty text, in which no space occurs, yields no string at all. *)
Lemma split_by_delimiter_space_counterexample :
  split_by_delimiter " a" Space = Ok "a"%string /\
  first_segment_spec " a" Space = ""%string /\
  split_by_delimiter " a" Space <> Ok (first_segment_spec " a" Space) /\
  split_by_delimiter "" Space = Raise IndexError.
Proof.
  repeat split; try reflexivity. discriminate.
Qed.

(** C8, amended: for every text and every variant other than [Space],
    [split_by_delimiter] returns the segment before the first occurrence
    of the variant's character, and the whole text when the variant is
    [No] or the character does not occur; with [Space] it returns the
    first maximal run of non-whitespace characters of a text that has
    one. *)
Theorem split_by_delimiter_first_segment :
  (forall text d, d <> Space ->
     split_by_delimiter text d = Ok (first_segment_spec text d)) /\
  (forall text, split_by_delimiter text No = Ok text) /\
  (forall text d c, d <> Space -> delimiter_char d = Some c ->
     contains_char c text = false -> split_by_delimiter text d = Ok text) /\
  (forall d c pre post, d <> Space -> delimiter_char d = Some c ->
     contains_char c pre = false ->
     split_by_delimiter (pre ++ String c post) d = Ok pre) /\
  (forall text, has_word text = true ->
     split_by_delimiter text Space = Ok (first_word text)).
Proof.
  split; [|split; [|split; [|split]]].
  - intros text d Hd. unfold first_segment_spec.
    destruct (delimiter_char d) as [c|] eqn:Hc.
    + apply split_by_delimiter_char; assumption.
    + destruct d; simpl in Hc; try discriminate. reflexivity.
  - reflexivity.
  - intros text d c Hd Hc Habs.
    rewrite (split_by_delimiter_char text d c Hd Hc).
    rewrite segment_before_absent by exact Habs. reflexivity.
  - intros d c pre post Hd Hc Habs.
    rewrite (split_by_delimiter_char _ d c Hd Hc).
    rewrite segment_before_first by exact Habs. reflexivity.
  - intros text Hw. apply split_ws_head, Hw.
Qed.

Lemma split_by_delimiter_first_segment_witness :
  split_by_delimiter "report_2024_v2" Underscore = Ok "report"%string /\
  split_by_delimiter "report" Underscore = Ok "report"%string /\
  split_by_delimiter "  scan 01" Space = Ok "scan"%string.
Proof.
  destruct split_by_delimiter_first_segment as (_ & _ & Habs & Hfirst & Hws).
  split; [|split].
  - apply (Hfirst Underscore "_"%char "report"%string "2024_v2"%string).
    + discriminate.
    + reflexivity.
    + reflexivity.
  - apply (Habs "report"%string Underscore "_"%char).
    + discriminate.
    + reflexivity.
    + reflexivity.
  - apply (Hws "  scan 01"%string). reflexivity.
Defined.

(** *** Regions, masks and stamped texts *)

Section StampingProperties.

Context {C : Collaborators}.

Lemma normalize_rotation_size (p : Page) :
  p_width (normalize_rotation p) = p_width p /\
  p_height (normalize_rotation p) = p_height p.
Proof.
  unfold normalize_rotation. destruct (p_rotation p =? 0)%Z; split; reflexivity.
Qed.

(** C2: on a page of width W and height H the stamping operations
    derive the header region (0, 0, W, headerHeight) and the footer
    region (0, H - footerHeight, W, H); the content region is
    (0, headerHeight, W, H - footerHeight) when the original is resized
    (with headerHeight = 0 in [pagenum_to_pdf]) and the full page
    (0, 0, W, H) otherwise ([header_to_pdf], which has no footer, uses
    (0, headerHeight, W, H)); and each round of the page loops of
    [header_and_pagenum_to_pdf] and [pagenum_to_pdf] draws with exactly
    these regions. *)
Theorem stamping_regions (page : Page) :
  let W := p_width page in
  let H := p_height page in
  (forall header_height, header_rect W header_height
                         = mkRect 0 0 W header_height) /\
  (forall footer_height, footer_rect W H footer_height
                         = mkRect 0 (H - footer_height) W H) /\
  (forall a, hp_content_rect a W H W H
             = if hp_resize_original a
               then mkRect 0 (hp_header_height a) W (H - hp_footer_height a)
               else mkRect 0 0 W H) /\
  (forall a, pagenum_content_rect a W H
             = if f_resize_original a
               then mkRect 0 0 W (H - f_footer_height a)
               else mkRect 0 0 W H) /\
  (forall a, header_content_rect a W H
             = if h_resize_original a
               then mkRect 0 (h_header_height a) W H
               else mkRect 0 0 W H) /\
  (forall a src text total output_doc page_idx,
     let header := mkRect 0 0 W (hp_header_height a) in
     let footer := mkRect 0 (H - hp_footer_height a) W H in
     let content :=
       if hp_resize_original a
       then mkRect 0 (hp_header_height a) W (H - hp_footer_height a)
       else mkRect 0 0 W H in
     hp_body a src text total output_doc page_idx page
     = if Py.le (rect_height content) 0
       then ([(WARNING, MsgCollapse (page_idx + 1))],
             Ok ((output_doc ++ [new_page W H])
                 ++ [normalize_rotation page]))
       else ([], Py.bind (hp_compose a src text total page_idx
                                     (normalize_rotation page)
                                     (new_page W H) header footer content)
                   (fun p => Ok (output_doc ++ [p])))) /\
  (forall a src total page_idx,
     let footer := mkRect 0 (H - f_footer_height a) W H in
     let content :=
       if f_resize_original a
       then mkRect 0 0 W (H - f_footer_height a)
       else mkRect 0 0 W H in
     pagenum_page a src total page_idx page
     = pagenum_compose a src total page_idx (new_page W H) footer content).
Proof.
  intros W H.
  destruct (normalize_rotation_size page) as [HW HH].
  assert (Hhp : forall a, hp_content_rect a W H W H
             = if hp_resize_original a
               then mkRect 0 (hp_header_height a) W (H - hp_footer_height a)
               else mkRect 0 0 W H) by reflexivity.
  assert (Hpn : forall a, pagenum_content_rect a W H
             = if f_resize_original a
               then mkRect 0 0 W (H - f_footer_height a)
               else mkRect 0 0 W H).
  { intros a. unfold pagenum_content_rect.
    destruct (f_resize_original a); reflexivity. }
  split; [reflexivity|]. split; [reflexivity|].
  split; [exact Hhp|]. split; [exact Hpn|]. split; [reflexivity|]. split.
  - intros a src text total output_doc page_idx. cbv zeta.
    rewrite <- Hhp. unfold hp_body. cbv zeta.
    cbn [p_width p_height new_page]. rewrite HW, HH. reflexivity.
  - intros a src total page_idx. cbv zeta. rewrite <- Hpn.
    unfold pagenum_page. cbv zeta.
    cbn [p_width p_height new_page]. rewrite HW, HH. reflexivity.
Qed.

(** **** Redaction masks *)




(** **** Page-number and header texts *)

(** The page-number text in the words of the specification. *)
Lemma pagenum_text_spec (show_total_pages : bool) (i total : nat) :
  pagenum_text show_total_pages i total
  = if show_total_pages
    then (Py.str (i + 1) ++ " / " ++ Py.str total)%string
    else Py.str (i + 1).
Proof. reflexivity. Qed.












End StampingProperties.

(** *** The operations on sample inputs *)

(** C1: on a single-page 200 x 300 document with header height 150 and
    footer height 160 the content region has collapsed; the output
    document of [header_and_pagenum_to_pdf] then holds two pages for the
    one source page: the new, empty page and, behind it, the copy of the
    original. *)
Theorem collapse_leaves_extra_page :
  let w := header_and_pagenum_to_pdf (C := spec_collaborators)
             "/in/10.pdf" "/out/10.pdf" true collapsing_args sample_world in
  lookup "/out/10.pdf" (files w)
  = Some (PdfFile [new_page 200 300; sample_page]) /\
  log w = [(WARNING, MsgCollapse 1)].
Proof. vm_compute. split; reflexivity. Qed.

(** [header_to_pdf] has no collapse check: with the original resized and
    a header as high as the page it hands the empty content region to
    [show_pdf_page], and writes no output when that call raises. *)
Lemma header_to_pdf_no_collapse_check :
  let a := mkHeaderArgs "japan" 20 (1, 0, 0) 300 10 true Space false
                        false (0, 0, 0) 0.5 false 0.5 (0, 0, 0) in
  let w := header_to_pdf (C := spec_collaborators)
             "/in/10.pdf" "/out/10.pdf" true a sample_world in
  lookup "/out/10.pdf" (files w) = None /\
  log w = [(ERROR,
            MsgException (ValueError "rect must be finite and not empty"))].
Proof. vm_compute. split; reflexivity. Qed.

(** C5: [header_to_pdf] called without overwrite permission on an output
    file that exists logs at fatal severity and then goes on: the
    existing output file is replaced.  [pagenum_to_pdf],
    [header_and_pagenum_to_pdf] and [concat_pdf] do the same. *)
Theorem overwrite_guard_does_not_return :
  let old := lookup "/out/2.pdf" (files sample_world) in
  let w1 := header_to_pdf (C := spec_collaborators)
              "/in/2.pdf" "/out/2.pdf" false header_defaults sample_world in
  let w2 := pagenum_to_pdf (C := spec_collaborators)
              "/in/2.pdf" "/out/2.pdf" false pagenum_defaults sample_world in
  let w3 := header_and_pagenum_to_pdf (C := spec_collaborators)
              "/in/2.pdf" "/out/2.pdf" false hp_defaults sample_world in
  let w4 := concat_pdf (C := spec_collaborators)
              "/in" "/out/2.pdf" false sample_world in
  path_exists sample_world "/out/2.pdf" = true /\
  (hd_error (log w1) = Some (FATAL, MsgOutputExists "/out/2.pdf" "header_to_pdf")
   /\ lookup "/out/2.pdf" (files w1) <> old) /\
  (hd_error (log w2) = Some (FATAL, MsgOutputExists "/out/2.pdf" "pagenum_to_pdf")
   /\ lookup "/out/2.pdf" (files w2) <> old) /\
  (hd_error (log w3)
   = Some (FATAL, MsgOutputExists "/out/2.pdf" "header_and_pagenum_to_pdf")
   /\ lookup "/out/2.pdf" (files w3) <> old) /\
  (hd_error (log w4) = Some (FATAL, MsgOutputExists "/out/2.pdf" "concat_pdf")
   /\ lookup "/out/2.pdf" (files w4) <> old).
Proof.
  vm_compute. repeat split; discriminate.
Qed.

(** C7: [grid_to_pdf] on a readable document opens a session and returns
    with that session still open: it was never closed. *)
Theorem grid_to_pdf_leaves_session_open :
  let w := grid_to_pdf (C := spec_collaborators)
             "/in/10.pdf" "/out/grid.pdf" 10 0.1
             (0.502, 1, 0.553) (0.008, 0.859, 0.102) (0, 0.702, 0.075)
             true sample_world in
  sessions w = [mkSession (Some "/in/10.pdf"%string) false 0] /\
  (exists pages, lookup "/out/grid.pdf" (files w) = Some (PdfFile pages)) /\
  uncaught w = None.
Proof.
  vm_compute. split; [reflexivity|]. split; [|reflexivity].
  eexists. reflexivity.
Qed.




(** *** Folder-wide operations and concatenation *)

Section FolderProperties.

Context {C : Collaborators}.

Lemma lookup_write_file (path : string) (d : FileData)
  (l : list (string * FileData)) :
  lookup path (write_file path d l) = Some d.
Proof.
  induction l as [|[k v] rest IH]; cbn.
  - rewrite String.eqb_refl. reflexivity.
  - destruct (String.eqb path k) eqn:E; cbn; rewrite E; [reflexivity|].
    exact IH.
Qed.

Lemma emit_files (lvl : Level) (m : Msg) (w : World) :
  files (emit lvl m w) = files w.
Proof. destruct lvl; reflexivity. Qed.

Lemma doc_close_files (h : Handle) (f : Frame) :
  files (world (snd (doc_close h f))) = files (world f).
Proof. unfold doc_close. destruct (is_closed (world f) h); reflexivity. Qed.

Lemma close_if_open_files (var : string) (f : Frame) :
  files (world (snd (close_if_open var f))) = files (world f).
Proof.
  unfold close_if_open. destruct (lookup var (locals f)); [|reflexivity].
  destruct (negb (is_closed (world f) h)); [|reflexivity].
  apply doc_close_files.
Qed.

Lemma try_except_finally_files (body fin : M unit) (lvl : Level)
  (w : World) :
  (forall f, files (world (snd (fin f))) = files (world f)) ->
  files (try_except_finally body lvl fin w)
  = files (world (snd (body (mkFrame w [])))).
Proof.
  intros Hfin. unfold try_except_finally.
  destruct (body (mkFrame w [])) as [c f1]. cbn [snd].
  set (f2 := match c with
             | Exc e => snd (logger lvl (MsgException e) f1)
             | _ => f1
             end).
  assert (H2 : files (world f2) = files (world f1)).
  { unfold f2. destruct c; try reflexivity. cbn. apply emit_files. }
  specialize (Hfin f2). destruct (fin f2) as [c' f3]. cbn [snd] in Hfin.
  rewrite <- H2, <- Hfin. destruct c'; reflexivity.
Qed.

Lemma nth_error_new_session (l : list Session) (s : Session) :
  nth_error (l ++ [s]) (List.length l) = Some s.
Proof.
  rewrite nth_error_app2 by lia. rewrite Nat.sub_diag. reflexivity.
Qed.

Lemma close_nth_new_session (l : list Session) (s : Session) :
  close_nth (List.length l) (l ++ [s])
  = (l ++ [mkSession (s_path s) true (S (s_closes s))])%list.
Proof. induction l as [|x l IH]; cbn; [reflexivity|]. rewrite IH. reflexivity. Qed.




End FolderProperties.

(** *** Guards and sessions of [masking_to_pdf] and [grid_to_pdf] *)

Section GuardProperties.

Context {C : Collaborators}.

(** [masking_to_pdf] and [grid_to_pdf] return from the overwrite guard:
    the world is left as it was, but for the fatal message. *)
Lemma masking_to_pdf_overwrite_guard (input output : string)
  (masks : list PyObj) (w : World) :
  path_exists w input = true -> input <> output ->
  path_exists w output = true ->
  masking_to_pdf input output masks false w
  = emit FATAL (MsgOutputExists output "masking_to_pdf") w.
Proof.
  intros Hin Hneq Hout. apply String.eqb_neq in Hneq.
  unfold masking_to_pdf, try_except_finally, bindM, os_path_exists, when.
  cbn [world locals]. rewrite Hin. cbn [negb ret world locals fst snd].
  rewrite Hneq. cbn [ret world locals fst snd]. rewrite Hout.
  reflexivity.
Qed.

Lemma grid_to_pdf_overwrite_guard (input output : string)
  (interval width : Q) (thin medium thick : Color) (w : World) :
  path_exists w input = true -> input <> output ->
  path_exists w output = true ->
  grid_to_pdf input output interval width thin medium thick false w
  = emit FATAL (MsgOutputExists output "grid_to_pdf") w.
Proof.
  intros Hin Hneq Hout. apply String.eqb_neq in Hneq.
  unfold grid_to_pdf, try_except_finally, bindM, os_path_exists, when.
  cbn [world locals]. rewrite Hin. cbn [negb ret world locals fst snd].
  rewrite Hneq. cbn [ret world locals fst snd]. rewrite Hout.
  reflexivity.
Qed.

Lemma emit_sessions (lvl : Level) (m : Msg) (w : World) :
  sessions (emit lvl m w) = sessions w.
Proof. destruct lvl; reflexivity. Qed.

Lemma fold_emit_sessions (l : list LogRec) (w : World) :
  sessions (fold_left (fun w r => emit (fst r) (snd r) w) l w)
  = sessions w.
Proof.
  revert w. induction l as [|r l IH]; intros w; cbn; [reflexivity|].
  rewrite IH. apply emit_sessions.
Qed.

(** What the [finally] clauses do to the session named "doc", given
    the frame the body leaves: no session opened, or one, still open. *)
Lemma finally_close_if_open (body : M unit) (lvl : Level) (w : World)
  (p : option string) :
  (let f1 := snd (body (mkFrame w [])) in
   (sessions (world f1) = sessions w /\ lookup "doc" (locals f1) = None) \/
   (sessions (world f1) = (sessions w ++ [mkSession p false 0])%list /\
    lookup "doc" (locals f1) = Some (List.length (sessions w)))) ->
  let w' := try_except_finally body lvl (close_if_open "doc") w in
  sessions w' = sessions w \/
  sessions w' = (sessions w ++ [mkSession p true 1])%list.
Proof.
  cbv zeta. unfold try_except_finally.
  destruct (body (mkFrame w [])) as [c f1]. cbn [snd].
  set (f2 := match c with
             | Exc e => snd (logger lvl (MsgException e) f1)
             | _ => f1
             end).
  assert (H2 : sessions (world f2) = sessions (world f1)
               /\ locals f2 = locals f1).
  { unfold f2. destruct c; try (split; reflexivity).
    cbn. split; [apply emit_sessions | reflexivity]. }
  destruct H2 as [Hs Hl]. unfold close_if_open. rewrite Hl.
  intros [[Hsess Hdoc]|[Hsess Hdoc]]; rewrite Hdoc.
  - left. congruence.
  - right. unfold is_closed, doc_close, is_closed.
    rewrite Hs, Hsess, nth_error_new_session. cbn [s_closed negb].
    cbn [world sessions]. apply close_nth_new_session.
Qed.

Lemma finally_close_if_closed (body : M unit) (lvl : Level) (w : World)
  (p : option string) :
  (let f1 := snd (body (mkFrame w [])) in
   (sessions (world f1) = sessions w /\ lookup "doc" (locals f1) = None) \/
   (sessions (world f1) = (sessions w ++ [mkSession p false 0])%list /\
    lookup "doc" (locals f1) = Some (List.length (sessions w)))) ->
  let w' := try_except_finally body lvl (close_if_closed "doc") w in
  sessions w' = sessions w \/
  sessions w' = (sessions w ++ [mkSession p false 0])%list.
Proof.
  cbv zeta. unfold try_except_finally.
  destruct (body (mkFrame w [])) as [c f1]. cbn [snd].
  set (f2 := match c with
             | Exc e => snd (logger lvl (MsgException e) f1)
             | _ => f1
             end).
  assert (H2 : sessions (world f2) = sessions (world f1)
               /\ locals f2 = locals f1).
  { unfold f2. destruct c; try (split; reflexivity).
    cbn. split; [apply emit_sessions | reflexivity]. }
  destruct H2 as [Hs Hl]. unfold close_if_closed. rewrite Hl.
  intros [[Hsess Hdoc]|[Hsess Hdoc]]; rewrite Hdoc.
  - left. congruence.
  - right. unfold is_closed.
    rewrite Hs, Hsess, nth_error_new_session. cbn [s_closed].
    congruence.
Qed.

(** On every exit path [masking_to_pdf] has either opened no session,
    or opened one and closed it exactly once. *)
Lemma masking_to_pdf_sessions (input output : string)
  (masks : list PyObj) (overwrite : bool) (w : World) :
  let w' := masking_to_pdf input output masks overwrite w in
  sessions w' = sessions w \/
  sessions w' = (sessions w ++ [mkSession (Some input) true 1])%list.
Proof.
  apply finally_close_if_open. cbv zeta.
  unfold bindM, os_path_exists, when. cbn [world locals].
  destruct (path_exists w input); cbn [negb ret fst snd world locals];
    [|(left; cbn; split; first [reflexivity | apply emit_sessions])].
  destruct (String.eqb input output); cbn [ret fst snd world locals];
    [(left; cbn; split; first [reflexivity | apply emit_sessions])|].
  destruct (negb overwrite && path_exists w output);
    cbn [ret fst snd world locals]; [(left; cbn; split; first [reflexivity | apply emit_sessions])|].
  unfold pymupdf_open. cbn [world locals].
  destruct (lookup input (files w)) as [[pages|]|];
    try (left; split; reflexivity).
  unfold assign. cbn [fst snd world locals]. unfold logger at 1, on_world.
  cbn [fst snd world locals emit].
  destruct (masking_pages masks pages) as [l pages'].
  unfold emit_all, on_world. cbn [fst snd world locals].
  right. unfold doc_save.
  destruct (save_accepts pages'); unfold on_world, raise, logger, on_world;
    cbn [fst snd world locals emit store sessions];
    rewrite fold_emit_sessions; split; reflexivity.
Qed.

(** On every exit path [grid_to_pdf] has either opened no session, or
    opened one and left it open. *)
Lemma grid_to_pdf_sessions (input output : string) (interval width : Q)
  (thin medium thick : Color) (overwrite : bool) (w : World) :
  let w' := grid_to_pdf input output interval width thin medium thick
                        overwrite w in
  sessions w' = sessions w \/
  sessions w' = (sessions w ++ [mkSession (Some input) false 0])%list.
Proof.
  apply finally_close_if_closed. cbv zeta.
  unfold bindM, os_path_exists, when. cbn [world locals].
  destruct (path_exists w input); cbn [negb ret fst snd world locals];
    [|(left; cbn; split; first [reflexivity | apply emit_sessions])].
  destruct (String.eqb input output); cbn [ret fst snd world locals];
    [(left; cbn; split; first [reflexivity | apply emit_sessions])|].
  destruct (negb overwrite && path_exists w output);
    cbn [ret fst snd world locals]; [(left; cbn; split; first [reflexivity | apply emit_sessions])|].
  unfold pymupdf_open. cbn [world locals].
  destruct (lookup input (files w)) as [[pages|]|];
    try (left; split; reflexivity).
  unfold assign. cbn [fst snd world locals]. right.
  destruct (grid_pages interval width thin medium thick pages)
    as [pages'|e]; cbn [lift ret raise fst snd world locals];
    [|split; reflexivity].
  unfold doc_save.
  destruct (save_accepts pages'); unfold on_world, raise, logger, on_world;
    cbn [fst snd world locals emit store sessions]; split; reflexivity.
Qed.

(** **** What the operations write *)

Lemma fold_emit_files (l : list LogRec) (w : World) :
  files (fold_left (fun w r => emit (fst r) (snd r) w) l w) = files w.
Proof.
  revert w. induction l as [|r l IH]; intros w; cbn; [reflexivity|].
  rewrite IH. apply emit_files.
Qed.

Lemma finally_two_files (a b : string) (f : Frame) :
  files (world (snd ((close_if_open a ;;; close_if_open b) f)))
  = files (world f).
Proof.
  unfold bindM.
  pose proof (close_if_open_files a f) as H1.
  destruct (close_if_open a f) as [[[]| |e] f1]; cbn [snd] in *;
    try exact H1.
  rewrite close_if_open_files. exact H1.
Qed.

Lemma masking_pages_map (masks : list PyObj) (pages : Document) :
  snd (masking_pages masks pages)
  = map (fun p => snd (masking_page masks p)) pages.
Proof.
  induction pages as [|p rest IH]; cbn [masking_pages map]; [reflexivity|].
  destruct (masking_page masks p) as [l1 p'].
  destruct (masking_pages masks rest) as [l2 rest'].
  cbn [snd] in *. rewrite IH. reflexivity.
Qed.

(** [masking_to_pdf] on a readable document saves the pages the page
    loop leaves. *)
Lemma masking_to_pdf_saves (input output : string) (masks : list PyObj)
  (w : World) (pages : Document) :
  path_exists w input = true -> input <> output ->
  lookup input (files w) = Some (PdfFile pages) ->
  save_accepts (map (fun p => snd (masking_page masks p)) pages) = true ->
  lookup output (files (masking_to_pdf input output masks true w))
  = Some (PdfFile (map (fun p => snd (masking_page masks p)) pages)).
Proof.
  intros Hin Hneq Hfile Hsave. apply String.eqb_neq in Hneq.
  unfold masking_to_pdf. rewrite try_except_finally_files
    by (intros f; apply close_if_open_files).
  unfold bindM, os_path_exists, when. cbn [world locals].
  rewrite Hin. cbn [negb ret fst snd world locals]. rewrite Hneq.
  cbn [negb andb ret fst snd world locals].
  unfold pymupdf_open. cbn [world locals]. rewrite Hfile.
  unfold assign. cbn [fst snd world locals]. unfold logger at 1, on_world.
  cbn [fst snd world locals emit].
  rewrite <- masking_pages_map in *.
  destruct (masking_pages masks pages) as [l pages']. cbn [snd] in *.
  unfold emit_all, on_world. cbn [fst snd world locals].
  unfold doc_save. rewrite Hsave. unfold on_world, logger, on_world.
  cbn [fst snd world locals emit store files]. apply lookup_write_file.
Qed.

(** The stamping operations on a readable document save the pages their
    page loop leaves, whether or not the output file exists and whatever
    the overwrite flag says. *)
Lemma pagenum_to_pdf_saves (input output : string) (overwrite : bool)
  (a : PagenumArgs) (w : World) (pages out : Document) (l : list LogRec) :
  path_exists w input = true -> input <> output ->
  lookup input (files w) = Some (PdfFile pages) ->
  for_pages (pagenum_body a input (List.length pages)) pages 0 []
  = (l, Ok out) ->
  save_accepts out = true ->
  lookup output (files (pagenum_to_pdf input output overwrite a w))
  = Some (PdfFile out).
Proof.
  intros Hin Hneq Hfile Hloop Hsave. apply String.eqb_neq in Hneq.
  unfold pagenum_to_pdf. rewrite try_except_finally_files
    by (intros f; apply finally_two_files).
  unfold bindM, os_path_exists, when. cbn [world locals].
  rewrite Hin. cbn [negb ret fst snd world locals]. rewrite Hneq.
  cbn [ret fst snd world locals].
  assert (Hfile' : forall m, lookup input (files (emit FATAL m w))
                             = Some (PdfFile pages)) by (intros m; exact Hfile).
  destruct (negb overwrite && path_exists w output);
    unfold logger, on_world, pymupdf_open, ret; cbn [fst snd world locals];
    rewrite ?Hfile', ?Hfile; unfold pymupdf_new, assign;
    cbn [fst snd world locals]; rewrite Hloop;
    unfold emit_all, on_world, lift, ret; cbn [fst snd world locals];
    unfold doc_save; rewrite Hsave; unfold on_world;
    rewrite doc_close_files; cbn [world store files];
    apply lookup_write_file.
Qed.

Lemma header_to_pdf_saves (input output : string) (overwrite : bool)
  (a : HeaderArgs) (w : World) (pages out : Document) (l : list LogRec)
  (text : string) :
  path_exists w input = true -> input <> output ->
  lookup input (files w) = Some (PdfFile pages) ->
  split_by_delimiter (splitext_root (basename input)) (h_delimiter a)
  = Ok text ->
  for_pages (header_body a input text) pages 0 [] = (l, Ok out) ->
  save_accepts out = true ->
  lookup output (files (header_to_pdf input output overwrite a w))
  = Some (PdfFile out).
Proof.
  intros Hin Hneq Hfile Htext Hloop Hsave. apply String.eqb_neq in Hneq.
  unfold header_to_pdf. rewrite try_except_finally_files
    by (intros f; apply finally_two_files).
  unfold bindM, os_path_exists, when. cbn [world locals].
  rewrite Hin. cbn [negb ret fst snd world locals]. rewrite Hneq.
  cbn [ret fst snd world locals]. rewrite Htext.
  assert (Hfile' : forall m, lookup input (files (emit FATAL m w))
                             = Some (PdfFile pages)) by (intros m; exact Hfile).
  destruct (negb overwrite && path_exists w output);
    unfold logger, on_world, pymupdf_open, lift, ret;
    cbn [fst snd world locals];
    rewrite ?Hfile', ?Hfile; unfold pymupdf_new, assign;
    cbn [fst snd world locals]; rewrite Hloop;
    unfold emit_all, on_world, lift, ret; cbn [fst snd world locals];
    unfold doc_save; rewrite Hsave; unfold on_world;
    rewrite doc_close_files; cbn [world store files];
    apply lookup_write_file.
Qed.

Lemma header_and_pagenum_to_pdf_saves (input output : string)
  (overwrite : bool) (a : HpArgs) (w : World) (pages out : Document)
  (l : list LogRec) (text : string) :
  path_exists w input = true -> input <> output ->
  lookup input (files w) = Some (PdfFile pages) ->
  split_by_delimiter (splitext_root (basename input)) (hp_delimiter a)
  = Ok text ->
  for_pages (hp_body a input text (List.length pages)) pages 0 []
  = (l, Ok out) ->
  save_accepts out = true ->
  lookup output (files (header_and_pagenum_to_pdf input output overwrite a w))
  = Some (PdfFile out).
Proof.
  intros Hin Hneq Hfile Htext Hloop Hsave. apply String.eqb_neq in Hneq.
  unfold header_and_pagenum_to_pdf. rewrite try_except_finally_files
    by (intros f; apply finally_two_files).
  unfold bindM, os_path_exists, when. cbn [world locals].
  rewrite Hin. cbn [negb ret fst snd world locals]. rewrite Hneq.
  cbn [ret fst snd world locals]. rewrite Htext.
  assert (Hfile' : forall m, lookup input (files (emit FATAL m w))
                             = Some (PdfFile pages)) by (intros m; exact Hfile).
  destruct (negb overwrite && path_exists w output);
    unfold logger, on_world, pymupdf_open, lift, ret;
    cbn [fst snd world locals];
    rewrite ?Hfile', ?Hfile; unfold pymupdf_new, assign;
    cbn [fst snd world locals]; rewrite Hloop;
    unfold emit_all, on_world, lift, ret; cbn [fst snd world locals];
    unfold doc_save; rewrite Hsave; unfold on_world.
  all: repeat match goal with
       | |- context [doc_close ?h ?f] =>
           let H := fresh in
           pose proof (doc_close_files h f) as H;
           destruct (doc_close h f) as [[[]| |?] ?]; cbn [snd] in *
       end;
       cbn [fst snd world store files] in *;
       repeat match goal with H : files _ = _ |- _ => rewrite H end;
       cbn [fst snd world store files];
       apply lookup_write_file.
Qed.

End GuardProperties.

(** *** The grid *)

Section GridProperties.

Lemma range0_positive_step (stop step : Z) :
  (0 < step)%Z ->
  exists l, range0 stop step = Ok l /\
    forall z, In z l <->
              exists k, (0 <= k)%Z /\ z = (k * step)%Z /\ (z < stop)%Z.
Proof.
  intros Hstep. unfold range0.
  destruct (step =? 0)%Z eqn:E0; [apply Z.eqb_eq in E0; lia|].
  destruct (0 <? step)%Z eqn:Epos; [|apply Z.ltb_ge in Epos; lia].
  eexists. split; [reflexivity|]. intros z. rewrite in_map_iff. split.
  - intros [k [<- Hk]]. apply in_seq in Hk. exists (Z.of_nat k).
    split; [lia|]. split; [reflexivity|].
    assert (Hq : (Z.of_nat k < (stop + step - 1) / step)%Z) by lia.
    pose proof (Z.mul_div_le (stop + step - 1) step Hstep). nia.
  - intros [k [Hk [-> Hlt]]]. exists (Z.to_nat k).
    rewrite Z2Nat.id by exact Hk. split; [reflexivity|].
    apply in_seq. split; [lia|]. cbn [Nat.add].
    pose proof (Z.mul_succ_div_gt (stop + step - 1) step Hstep).
    assert (k < (stop + step - 1) / step)%Z by nia. lia.
Qed.

Lemma gt_iff (a b : Q) : Py.gt a b = true <-> b < a.
Proof.
  unfold Py.gt. rewrite negb_true_iff. split.
  - intros H. apply Qnot_le_lt. intros Hle.
    apply Qle_bool_iff in Hle. congruence.
  - intros H. apply not_true_is_false. intros Hle.
    apply Qle_bool_iff in Hle. apply Qle_not_lt in Hle. contradiction.
Qed.

(** The cell of a round of the nested loops: the clipped rectangle,
    drawn exactly when it has positive width and height. *)
Lemma grid_cell_In (W H I : Q) (y x : Z) (c : Rect) :
  In c (grid_cell W H I y x) <->
  c = mkRect (inject_Z x) (inject_Z y)
             (Qmin (inject_Z x + I) W) (Qmin (inject_Z y + I) H) /\
  inject_Z x < Qmin (inject_Z x + I) W /\
  inject_Z y < Qmin (inject_Z y + I) H.
Proof.
  unfold grid_cell, Py.float, Py.min.
  destruct (Py.gt (Qmin (inject_Z x + I) W) (inject_Z x)
            && Py.gt (Qmin (inject_Z y + I) H) (inject_Z y)) eqn:E.
  - apply andb_true_iff in E. destruct E as [Ex Ey].
    apply gt_iff in Ex. apply gt_iff in Ey. cbn. split.
    + intros [<-|[]]. repeat split; assumption.
    + intros [-> _]. left. reflexivity.
  - cbn. split; [intros []|]. intros [_ [Hx Hy]].
    apply gt_iff in Hx. apply gt_iff in Hy. rewrite Hx, Hy in E.
    discriminate.
Qed.


Lemma grid_cells_In (W H I : Q) :
  (0 < int I)%Z ->
  exists cells, grid_cells W H I = Ok cells /\
    forall c, In c cells <->
      exists ky kx, (0 <= ky)%Z /\ (0 <= kx)%Z /\
        (ky * int I < int H)%Z /\ (kx * int I < int W)%Z /\
        In c (grid_cell W H I (ky * int I) (kx * int I)).
Proof.
  intros Hstep. unfold grid_cells.
  destruct (range0_positive_step (int H) (int I) Hstep) as [ys [-> Hys]].
  destruct (range0_positive_step (int W) (int I) Hstep) as [xs [-> Hxs]].
  cbn [Py.bind]. eexists. split; [reflexivity|]. intros c.
  rewrite in_flat_map. split.
  - intros [y [Hy Hin]]. apply in_flat_map in Hin.
    destruct Hin as [x [Hx Hin]].
    apply Hys in Hy. destruct Hy as [ky [Hky [-> Hylt]]].
    apply Hxs in Hx. destruct Hx as [kx [Hkx [-> Hxlt]]].
    exists ky, kx. repeat split; assumption.
  - intros [ky [kx [Hky [Hkx [Hylt [Hxlt Hin]]]]]].
    exists (ky * int I)%Z. split.
    + apply Hys. exists ky. repeat split; assumption.
    + apply in_flat_map. exists (kx * int I)%Z. split; [|exact Hin].
      apply Hxs. exists kx. repeat split; assumption.
Qed.

Lemma int_inject_Z (z : Z) : int (inject_Z z) = z.
Proof. unfold int. cbn. apply Z.quot_1_r. Qed.

Lemma int_inject_Z_mult (z m : Z) : int (inject_Z z * inject_Z m) = (z * m)%Z.
Proof. unfold int. cbn. apply Z.quot_1_r. Qed.

(** Clipping at whole numbers. *)
Lemma clip_whole (x s w : Z) (I : Q) :
  I == inject_Z s ->
  Qmin (inject_Z x + I) (inject_Z w) == inject_Z (Z.min (x + s) w).
Proof.
  intros HI.
  assert (Hsum : inject_Z x + I == inject_Z (x + s)).
  { rewrite inject_Z_plus, HI. reflexivity. }
  destruct (Q.min_spec (inject_Z x + I) (inject_Z w)) as [[Hlt ->]|[Hle ->]].
  - rewrite Hsum in Hlt. rewrite <- Zlt_Qlt in Hlt.
    rewrite Z.min_l by lia. exact Hsum.
  - rewrite Hsum in Hle. rewrite <- Zle_Qle in Hle.
    rewrite Z.min_r by lia. reflexivity.
Qed.

(** On a page of whole-number size, with a whole-number interval, the
    cell that starts at a grid point inside the page is drawn. *)
Lemma whole_cell_drawn (w h s : Z) (I : Q) (ky kx : Z) (cells : list Rect) :
  I == inject_Z s -> int I = s -> (1 <= s)%Z ->
  grid_cells (inject_Z w) (inject_Z h) I = Ok cells ->
  (0 <= ky)%Z -> (0 <= kx)%Z -> (ky * s < h)%Z -> (kx * s < w)%Z ->
  exists c, In c cells /\
    x0 c == inject_Z (kx * s) /\ y0 c == inject_Z (ky * s) /\
    x1 c == inject_Z (Z.min (kx * s + s) w) /\
    y1 c == inject_Z (Z.min (ky * s + s) h).
Proof.
  intros HI Hint Hs Hcells Hky Hkx Hy Hx.
  destruct (grid_cells_In (inject_Z w) (inject_Z h) I) as [cells' [Hc' Hin]];
    [lia|].
  rewrite Hcells in Hc'. injection Hc' as <-.
  exists (mkRect (inject_Z (kx * s)) (inject_Z (ky * s))
                 (Qmin (inject_Z (kx * s) + I) (inject_Z w))
                 (Qmin (inject_Z (ky * s) + I) (inject_Z h))).
  split.
  - apply Hin. exists ky, kx. rewrite Hint, !int_inject_Z.
    repeat split; try assumption. apply grid_cell_In.
    split; [reflexivity|].
    rewrite !(clip_whole _ s _ I HI), <- !Zlt_Qlt. lia.
  - cbn. repeat split; try reflexivity; apply clip_whole, HI.
Qed.

Lemma whole_cell_shape (w h s : Z) (I : Q) (cells : list Rect) (c : Rect) :
  I == inject_Z s -> int I = s -> (1 <= s)%Z ->
  grid_cells (inject_Z w) (inject_Z h) I = Ok cells ->
  In c cells ->
  exists ky kx, (0 <= ky)%Z /\ (0 <= kx)%Z /\
    (ky * s < h)%Z /\ (kx * s < w)%Z /\
    x0 c == inject_Z (kx * s) /\ y0 c == inject_Z (ky * s) /\
    x1 c == inject_Z (Z.min (kx * s + s) w) /\
    y1 c == inject_Z (Z.min (ky * s + s) h).
Proof.
  intros HI Hint Hs Hcells Hc.
  destruct (grid_cells_In (inject_Z w) (inject_Z h) I) as [cells' [Hc' Hin]];
    [lia|].
  rewrite Hcells in Hc'. injection Hc' as <-.
  apply Hin in Hc. destruct Hc as [ky [kx [Hky [Hkx [Hy [Hx Hcell]]]]]].
  rewrite Hint, !int_inject_Z in *.
  apply grid_cell_In in Hcell. destruct Hcell as [-> _].
  exists ky, kx. cbn.
  repeat split; try assumption; try reflexivity; apply clip_whole, HI.
Qed.



Lemma draw_rects_shape (cells : list Rect) (s : Shape) :
  draw_rects cells s = mkShape (pending s ++ cells) (finished s).
Proof.
  unfold draw_rects. revert s.
  induction cells as [|c cells IH]; intros s; cbn.
  - rewrite app_nil_r. destruct s; reflexivity.
  - rewrite IH. cbn. rewrite <- app_assoc. reflexivity.
Qed.

Lemma finish_cells (cells : list Rect) (width : Q) (color : Color)
  (done : list Content) :
  cells <> [] ->
  finish width color (draw_rects cells (mkShape [] done))
  = mkShape [] (done ++ [Path cells width color]).
Proof.
  intros Hne. rewrite draw_rects_shape. cbn.
  destruct cells; [contradiction|]. reflexivity.
Qed.


End GridProperties.

(** *** Instances on the sample inputs *)








(* ================================================================== *)
(** ** Further properties of the operations *)
(* ================================================================== *)

Section FrameProperties.

Context {C : Collaborators}.

Lemma preserved_refl (out : string) (w : World) : preserved out w w.
Proof.
  repeat split; try reflexivity. exists []. rewrite app_nil_r. reflexivity.
Qed.

Lemma preserved_trans (out : string) (w1 w2 w3 : World) :
  preserved out w1 w2 -> preserved out w2 w3 -> preserved out w1 w3.
Proof.
  intros (Hu1 & Hd1 & [l1 Hl1] & Hf1) (Hu2 & Hd2 & [l2 Hl2] & Hf2).
  repeat split; try congruence.
  - exists (l1 ++ l2)%list. rewrite Hl2, Hl1, app_assoc. reflexivity.
  - intros p Hp. rewrite Hf2, Hf1 by exact Hp. reflexivity.
Qed.

Lemma preserved_emit (out : string) (lvl : Level) (m : Msg) (w : World) :
  preserved out w (emit lvl m w).
Proof.
  destruct lvl; try apply preserved_refl;
    (repeat split; try reflexivity; eexists; reflexivity).
Qed.

Lemma preserved_add_session (out : string) (s : Session) (w : World) :
  preserved out w (add_session s w).
Proof.
  repeat split; try reflexivity. exists []. cbn. rewrite app_nil_r.
  reflexivity.
Qed.

Lemma lookup_write_file_other (p path : string) (d : FileData)
  (l : list (string * FileData)) :
  p <> path -> lookup p (write_file path d l) = lookup p l.
Proof.
  intros Hp. induction l as [|[k v] rest IH]; cbn.
  - apply String.eqb_neq in Hp. rewrite Hp. reflexivity.
  - destruct (String.eqb path k) eqn:E; cbn.
    + apply String.eqb_eq in E. subst k.
      apply String.eqb_neq in Hp. rewrite Hp. reflexivity.
    + destruct (String.eqb p k); [reflexivity | exact IH].
Qed.

Lemma preserved_store (out : string) (pages : Document) (w : World) :
  preserved out w (store out pages w).
Proof.
  repeat split; try reflexivity.
  - exists []. cbn. rewrite app_nil_r. reflexivity.
  - intros p Hp. cbn. apply lookup_write_file_other, Hp.
Qed.

Lemma sp_ret (out : string) (A : Type) (a : A) : step_preserves out (ret a).
Proof. intros f. apply preserved_refl. Qed.

Lemma sp_return (out : string) (A : Type) :
  step_preserves out (@return_ A).
Proof. intros f. apply preserved_refl. Qed.

Lemma sp_raise (out : string) (A : Type) (e : Exn) :
  step_preserves out (@raise A e).
Proof. intros f. apply preserved_refl. Qed.

Lemma sp_lift (out : string) (A : Type) (r : Res A) :
  step_preserves out (lift r).
Proof. destruct r; [apply sp_ret | apply sp_raise]. Qed.

Lemma sp_bind (out : string) (A B : Type) (m : M A) (k : A -> M B) :
  step_preserves out m -> (forall a, step_preserves out (k a)) ->
  step_preserves out (bindM m k).
Proof.
  intros Hm Hk f. unfold bindM. specialize (Hm f).
  destruct (m f) as [[a| |e] f1]; cbn [snd] in *; try exact Hm.
  eapply preserved_trans; [exact Hm | apply Hk].
Qed.

Lemma sp_when (out : string) (c : bool) (m : M unit) :
  step_preserves out m -> step_preserves out (when c m).
Proof. intros Hm. destruct c; [exact Hm | apply sp_ret]. Qed.

Lemma sp_logger (out : string) (lvl : Level) (m : Msg) :
  step_preserves out (logger lvl m).
Proof. intros f. apply preserved_emit. Qed.

Lemma sp_emit_all (out : string) (l : list LogRec) :
  step_preserves out (emit_all l).
Proof.
  intros f. unfold emit_all, on_world. cbn [snd world].
  generalize (world f). induction l as [|r l IH]; intros w; cbn.
  - apply preserved_refl.
  - eapply preserved_trans; [apply preserved_emit | apply IH].
Qed.

Lemma sp_exists (out p : string) : step_preserves out (os_path_exists p).
Proof. intros f. apply preserved_refl. Qed.

Lemma sp_assign (out var : string) (h : Handle) :
  step_preserves out (assign var h).
Proof. intros f. apply preserved_refl. Qed.

Lemma sp_open (out path : string) : step_preserves out (pymupdf_open path).
Proof.
  intros f. unfold pymupdf_open.
  destruct (lookup path (files (world f))) as [[pages|]|];
    try apply preserved_refl.
  apply preserved_add_session.
Qed.

Lemma sp_new (out : string) : step_preserves out pymupdf_new.
Proof. intros f. apply preserved_add_session. Qed.

Lemma sp_close (out : string) (h : Handle) : step_preserves out (doc_close h).
Proof.
  intros f. unfold doc_close. destruct (is_closed (world f) h);
    [apply preserved_refl|].
  repeat split; try reflexivity. exists []. cbn. rewrite app_nil_r.
  reflexivity.
Qed.

Lemma sp_save (out : string) (pages : Document) :
  step_preserves out (doc_save out pages).
Proof.
  intros f. unfold doc_save. destruct (save_accepts pages);
    [apply preserved_store | apply preserved_refl].
Qed.

Lemma sp_close_if_open (out var : string) :
  step_preserves out (close_if_open var).
Proof.
  intros f. unfold close_if_open.
  destruct (lookup var (locals f)); [|apply preserved_refl].
  destruct (negb (is_closed (world f) h)); [apply sp_close|].
  apply preserved_refl.
Qed.

Lemma nr_close_if_open (var : string) : never_raises (close_if_open var).
Proof.
  intros f. unfold close_if_open.
  destruct (lookup var (locals f)); [|exact I].
  destruct (is_closed (world f) h) eqn:E; cbn [negb]; [exact I|].
  unfold doc_close. rewrite E. exact I.
Qed.

Lemma nr_two (a b : string) :
  never_raises (close_if_open a ;;; close_if_open b).
Proof.
  intros f. unfold bindM. pose proof (nr_close_if_open a f) as Ha.
  destruct (close_if_open a f) as [[[]| |e] f1]; cbn [fst] in *;
    [apply nr_close_if_open | exact I | contradiction].
Qed.

(** A [try / except / finally] whose body and [finally] clause keep the
    frame condition, and whose [finally] clause cannot raise, keeps it. *)
Lemma tef_preserved (out : string) (body fin : M unit) (lvl : Level) :
  step_preserves out body -> step_preserves out fin -> never_raises fin ->
  forall w, preserved out w (try_except_finally body lvl fin w).
Proof.
  intros Hbody Hfin Hnr w. unfold try_except_finally.
  specialize (Hbody (mkFrame w [])). cbn [world] in Hbody.
  destruct (body (mkFrame w [])) as [c f1]. cbn [snd] in Hbody.
  set (f2 := match c with
             | Exc e => snd (logger lvl (MsgException e) f1)
             | _ => f1
             end).
  assert (H2 : preserved out w (world f2)).
  { unfold f2. destruct c; try exact Hbody.
    eapply preserved_trans; [exact Hbody | apply sp_logger]. }
  specialize (Hfin f2). specialize (Hnr f2).
  destruct (fin f2) as [c' f3]. cbn [fst snd] in *.
  destruct c'; try contradiction;
    (eapply preserved_trans; [exact H2 | exact Hfin]).
Qed.

(** With the inverted test of [grid_to_pdf] the [finally] clause does
    nothing when the body has left no session or an open one. *)
Lemma tef_closed_preserved (out : string) (body : M unit) (lvl : Level)
  (w : World) (p : option string) :
  step_preserves out body ->
  (let f1 := snd (body (mkFrame w [])) in
   (sessions (world f1) = sessions w /\ lookup "doc" (locals f1) = None) \/
   (sessions (world f1) = (sessions w ++ [mkSession p false 0])%list /\
    lookup "doc" (locals f1) = Some (List.length (sessions w)))) ->
  preserved out w (try_except_finally body lvl (close_if_closed "doc") w).
Proof.
  intros Hbody. cbv zeta. unfold try_except_finally.
  specialize (Hbody (mkFrame w [])). cbn [world] in Hbody.
  destruct (body (mkFrame w [])) as [c f1]. cbn [snd] in *.
  set (f2 := match c with
             | Exc e => snd (logger lvl (MsgException e) f1)
             | _ => f1
             end).
  assert (H2 : preserved out w (world f2)).
  { unfold f2. destruct c; try exact Hbody.
    eapply preserved_trans; [exact Hbody | apply sp_logger]. }
  assert (H3 : sessions (world f2) = sessions (world f1)
               /\ locals f2 = locals f1).
  { unfold f2. destruct c; try (split; reflexivity).
    cbn. split; [apply emit_sessions | reflexivity]. }
  destruct H3 as [Hs Hl]. unfold close_if_closed. rewrite Hl.
  intros [[Hsess Hdoc]|[Hsess Hdoc]]; rewrite Hdoc.
  - exact H2.
  - unfold is_closed. rewrite Hs, Hsess, nth_error_new_session.
    cbn [s_closed]. exact H2.
Qed.

(** Whatever its arguments and the world it runs in, a single-document
    operation keeps the frame condition of its output path. *)
Lemma single_operations_preserved (input output : string) (overwrite : bool)
  (w : World) :
  (forall masks,
     preserved output w (masking_to_pdf input output masks overwrite w)) /\
  (forall interval width thin medium thick,
     preserved output w
       (grid_to_pdf input output interval width thin medium thick
                    overwrite w)) /\
  (forall a, preserved output w (header_to_pdf input output overwrite a w)) /\
  (forall a, preserved output w (pagenum_to_pdf input output overwrite a w)) /\
  (forall a, preserved output w
               (header_and_pagenum_to_pdf input output overwrite a w)) /\
  (forall a, preserved output w
               (header_and_frame_to_pdf input output overwrite a w)).
Proof.
  assert (Hhp : forall a, preserved output w
                  (header_and_pagenum_to_pdf input output overwrite a w)).
  { intros a. unfold header_and_pagenum_to_pdf. apply tef_preserved.
    - repeat first
        [ apply sp_bind; [|intros ?] | apply sp_when | apply sp_logger
        | apply sp_return | apply sp_exists | apply sp_open
        | apply sp_assign | apply sp_emit_all | apply sp_save
        | apply sp_close | apply sp_lift | apply sp_new | apply sp_ret
        | match goal with
          | |- step_preserves _ (let (_, _) := ?x in _) => destruct x
          end ].
    - apply sp_bind; [|intros ?]; apply sp_close_if_open.
    - apply nr_two. }
  split; [|split; [|split; [|split; [|split]]]].
  - intros masks. unfold masking_to_pdf. apply tef_preserved.
    + repeat first
        [ apply sp_bind; [|intros ?] | apply sp_when | apply sp_logger
        | apply sp_return | apply sp_exists | apply sp_open
        | apply sp_assign | apply sp_emit_all | apply sp_save
        | apply sp_close | apply sp_lift | apply sp_new | apply sp_ret
        | match goal with
          | |- step_preserves _ (let (_, _) := ?x in _) => destruct x
          end ].
    + apply sp_close_if_open.
    + apply nr_close_if_open.
  - intros interval width thin medium thick. unfold grid_to_pdf.
    apply (tef_closed_preserved _ _ _ _ (Some input)).
    + repeat first
        [ apply sp_bind; [|intros ?] | apply sp_when | apply sp_logger
        | apply sp_return | apply sp_exists | apply sp_open
        | apply sp_assign | apply sp_emit_all | apply sp_save
        | apply sp_close | apply sp_lift | apply sp_new | apply sp_ret ].
    + cbv zeta. unfold bindM, os_path_exists, when. cbn [world locals].
      destruct (path_exists w input); cbn [negb ret fst snd world locals];
        [|(left; cbn; split; first [reflexivity | apply emit_sessions])].
      destruct (String.eqb input output); cbn [ret fst snd world locals];
        [(left; cbn; split; first [reflexivity | apply emit_sessions])|].
      destruct (negb overwrite && path_exists w output);
        cbn [ret fst snd world locals];
        [(left; cbn; split; first [reflexivity | apply emit_sessions])|].
      unfold pymupdf_open. cbn [world locals].
      destruct (lookup input (files w)) as [[pages|]|];
        try (left; split; reflexivity).
      unfold assign. cbn [fst snd world locals]. right.
      destruct (grid_pages interval width thin medium thick pages)
        as [pages'|e]; cbn [lift ret raise fst snd world locals];
        [|split; reflexivity].
      unfold doc_save.
      destruct (save_accepts pages'); unfold on_world, raise, logger, on_world;
        cbn [fst snd world locals emit store sessions]; split; reflexivity.
  - intros a. unfold header_to_pdf. apply tef_preserved.
    + repeat first
        [ apply sp_bind; [|intros ?] | apply sp_when | apply sp_logger
        | apply sp_return | apply sp_exists | apply sp_open
        | apply sp_assign | apply sp_emit_all | apply sp_save
        | apply sp_close | apply sp_lift | apply sp_new | apply sp_ret
        | match goal with
          | |- step_preserves _ (let (_, _) := ?x in _) => destruct x
          end ].
    + apply sp_bind; [|intros ?]; apply sp_close_if_open.
    + apply nr_two.
  - intros a. unfold pagenum_to_pdf. apply tef_preserved.
    + repeat first
        [ apply sp_bind; [|intros ?] | apply sp_when | apply sp_logger
        | apply sp_return | apply sp_exists | apply sp_open
        | apply sp_assign | apply sp_emit_all | apply sp_save
        | apply sp_close | apply sp_lift | apply sp_new | apply sp_ret
        | match goal with
          | |- step_preserves _ (let (_, _) := ?x in _) => destruct x
          end ].
    + apply sp_bind; [|intros ?]; apply sp_close_if_open.
    + apply nr_two.
  - exact Hhp.
  - intros a. apply Hhp.
Qed.

(** The first two guards of the single-document operations. *)
Lemma masking_to_pdf_guards (input output : string) (masks : list PyObj)
  (overwrite : bool) (w : World) :
  (path_exists w input = false ->
   masking_to_pdf input output masks overwrite w
   = emit FATAL (MsgInputMissing input "masking_to_pdf") w) /\
  (path_exists w input = true -> input = output ->
   masking_to_pdf input output masks overwrite w
   = emit FATAL (MsgSameAsInput "masking_to_pdf") w).
Proof.
  split; [intros Hin | intros Hin <-];
    unfold masking_to_pdf, try_except_finally, bindM, os_path_exists, when;
    cbn [world locals]; rewrite Hin; cbn [negb ret fst snd world locals];
    rewrite ?String.eqb_refl; reflexivity.
Qed.

Lemma grid_to_pdf_guards (input output : string) (interval width : Q)
  (thin medium thick : Color) (overwrite : bool) (w : World) :
  (path_exists w input = false ->
   grid_to_pdf input output interval width thin medium thick overwrite w
   = emit FATAL (MsgInputMissing input "grid_to_pdf") w) /\
  (path_exists w input = true -> input = output ->
   grid_to_pdf input output interval width thin medium thick overwrite w
   = emit FATAL (MsgSameAsInput "grid_to_pdf") w).
Proof.
  split; [intros Hin | intros Hin <-];
    unfold grid_to_pdf, try_except_finally, bindM, os_path_exists, when;
    cbn [world locals]; rewrite Hin; cbn [negb ret fst snd world locals];
    rewrite ?String.eqb_refl; reflexivity.
Qed.

Lemma header_to_pdf_guards (input output : string) (overwrite : bool)
  (a : HeaderArgs) (w : World) :
  (path_exists w input = false ->
   header_to_pdf input output overwrite a w
   = emit FATAL (MsgInputMissing input "header_to_pdf") w) /\
  (path_exists w input = true -> input = output ->
   header_to_pdf input output overwrite a w
   = emit FATAL (MsgSameAsInput "header_to_pdf") w).
Proof.
  split; [intros Hin | intros Hin <-];
    unfold header_to_pdf, try_except_finally, bindM, os_path_exists, when;
    cbn [world locals]; rewrite Hin; cbn [negb ret fst snd world locals];
    rewrite ?String.eqb_refl; reflexivity.
Qed.

Lemma pagenum_to_pdf_guards (input output : string) (overwrite : bool)
  (a : PagenumArgs) (w : World) :
  (path_exists w input = false ->
   pagenum_to_pdf input output overwrite a w
   = emit FATAL (MsgInputMissing input "pagenum_to_pdf") w) /\
  (path_exists w input = true -> input = output ->
   pagenum_to_pdf input output overwrite a w
   = emit FATAL (MsgSameAsInput "pagenum_to_pdf") w).
Proof.
  split; [intros Hin | intros Hin <-];
    unfold pagenum_to_pdf, try_except_finally, bindM, os_path_exists, when;
    cbn [world locals]; rewrite Hin; cbn [negb ret fst snd world locals];
    rewrite ?String.eqb_refl; reflexivity.
Qed.

Lemma header_and_pagenum_to_pdf_guards (input output : string)
  (overwrite : bool) (a : HpArgs) (w : World) :
  (path_exists w input = false ->
   header_and_pagenum_to_pdf input output overwrite a w
   = emit FATAL (MsgInputMissing input "header_and_pagenum_to_pdf") w) /\
  (path_exists w input = true -> input = output ->
   header_and_pagenum_to_pdf input output overwrite a w
   = emit FATAL (MsgSameAsInput "header_and_pagenum_to_pdf") w).
Proof.
  split; [intros Hin | intros Hin <-];
    unfold header_and_pagenum_to_pdf, try_except_finally, bindM,
      os_path_exists, when;
    cbn [world locals]; rewrite Hin; cbn [negb ret fst snd world locals];
    rewrite ?String.eqb_refl; reflexivity.
Qed.



(** X2: a single-document operation whose input path does not exist, or
    whose input path exists and is also given as output path, logs one
    fatal message and does nothing else: no session is opened, no file
    or directory is touched. *)
Theorem input_guards_return (input output : string) (overwrite : bool)
  (w : World) :
  (path_exists w input = false ->
   (forall masks, masking_to_pdf input output masks overwrite w
                  = emit FATAL (MsgInputMissing input "masking_to_pdf") w) /\
   (forall i gw c1 c2 c3,
      grid_to_pdf input output i gw c1 c2 c3 overwrite w
      = emit FATAL (MsgInputMissing input "grid_to_pdf") w) /\
   (forall a, header_to_pdf input output overwrite a w
              = emit FATAL (MsgInputMissing input "header_to_pdf") w) /\
   (forall a, pagenum_to_pdf input output overwrite a w
              = emit FATAL (MsgInputMissing input "pagenum_to_pdf") w) /\
   (forall a, header_and_pagenum_to_pdf input output overwrite a w
              = emit FATAL
                  (MsgInputMissing input "header_and_pagenum_to_pdf") w) /\
   (forall a, header_and_frame_to_pdf input output overwrite a w
              = emit FATAL
                  (MsgInputMissing input "header_and_pagenum_to_pdf") w)) /\
  (path_exists w input = true -> input = output ->
   (forall masks, masking_to_pdf input output masks overwrite w
                  = emit FATAL (MsgSameAsInput "masking_to_pdf") w) /\
   (forall i gw c1 c2 c3,
      grid_to_pdf input output i gw c1 c2 c3 overwrite w
      = emit FATAL (MsgSameAsInput "grid_to_pdf") w) /\
   (forall a, header_to_pdf input output overwrite a w
              = emit FATAL (MsgSameAsInput "header_to_pdf") w) /\
   (forall a, pagenum_to_pdf input output overwrite a w
              = emit FATAL (MsgSameAsInput "pagenum_to_pdf") w) /\
   (forall a, header_and_pagenum_to_pdf input output overwrite a w
              = emit FATAL (MsgSameAsInput "header_and_pagenum_to_pdf") w) /\
   (forall a, header_and_frame_to_pdf input output overwrite a w
              = emit FATAL (MsgSameAsInput "header_and_pagenum_to_pdf") w)).
Proof.
  split.
  - intros Hin. repeat split; intros.
    + apply masking_to_pdf_guards, Hin.
    + apply grid_to_pdf_guards, Hin.
    + apply header_to_pdf_guards, Hin.
    + apply pagenum_to_pdf_guards, Hin.
    + apply header_and_pagenum_to_pdf_guards, Hin.
    + apply header_and_pagenum_to_pdf_guards, Hin.
  - intros Hin Heq. repeat split; intros.
    + apply masking_to_pdf_guards; assumption.
    + apply grid_to_pdf_guards; assumption.
    + apply header_to_pdf_guards; assumption.
    + apply pagenum_to_pdf_guards; assumption.
    + apply header_and_pagenum_to_pdf_guards; assumption.
    + apply header_and_pagenum_to_pdf_guards; assumption.
Qed.

End FrameProperties.

Section SessionProperties.

Context {C : Collaborators}.

Lemma nth_error_two_first (l : list Session) (a b : Session) :
  nth_error (l ++ [a; b]) (List.length l) = Some a.
Proof.
  rewrite nth_error_app2 by lia. rewrite Nat.sub_diag. reflexivity.
Qed.

Lemma nth_error_two_second (l : list Session) (a b : Session) :
  nth_error (l ++ [a; b]) (S (List.length l)) = Some b.
Proof.
  rewrite nth_error_app2 by lia.
  replace (S (List.length l) - List.length l)%nat with 1%nat by lia.
  reflexivity.
Qed.

Lemma close_nth_two_first (l : list Session) (a b : Session) :
  close_nth (List.length l) (l ++ [a; b])
  = (l ++ [mkSession (s_path a) true (S (s_closes a)); b])%list.
Proof.
  induction l as [|x l IH]; cbn; [reflexivity|]. rewrite IH. reflexivity.
Qed.

Lemma close_nth_two_second (l : list Session) (a b : Session) :
  close_nth (S (List.length l)) (l ++ [a; b])
  = (l ++ [a; mkSession (s_path b) true (S (s_closes b))])%list.
Proof.
  induction l as [|x l IH]; cbn; [reflexivity|].
  cbn in IH. rewrite IH. reflexivity.
Qed.

(** The [finally] clause of the stamping operations closes whichever of
    the two sessions is still open, and only those. *)
Lemma finally_two_sessions (f : Frame) (l : list Session) (a b : Session) :
  sessions (world f) = (l ++ [a; b])%list ->
  lookup "source_doc" (locals f) = Some (List.length l) ->
  lookup "output_doc" (locals f) = Some (S (List.length l)) ->
  let f' := snd ((close_if_open "source_doc" ;;; close_if_open "output_doc")
                   f) in
  sessions (world f') = (l ++ [ensure_closed a; ensure_closed b])%list.
Proof.
  intros Hs Hsrc Hout. cbv zeta. unfold bindM.
  assert (H1 : exists f1,
             close_if_open "source_doc" f = (Next tt, f1) /\
             locals f1 = locals f /\
             sessions (world f1) = (l ++ [ensure_closed a; b])%list).
  { unfold close_if_open. rewrite Hsrc. unfold is_closed.
    rewrite Hs, nth_error_two_first. unfold ensure_closed.
    destruct (s_closed a) eqn:Ea; cbn [negb].
    - exists f. repeat split. exact Hs.
    - unfold doc_close, is_closed. rewrite Hs, nth_error_two_first, Ea.
      eexists. split; [reflexivity|]. split; [reflexivity|].
      cbn [world sessions]. rewrite ?Hs. apply close_nth_two_first. }
  destruct H1 as [f1 [-> [Hl1 Hs1]]].
  unfold close_if_open. rewrite Hl1, Hout. unfold is_closed.
  rewrite Hs1, nth_error_two_second.
  assert (Hb : ensure_closed b
               = if s_closed b then b
                 else mkSession (s_path b) true (S (s_closes b)))
    by reflexivity.
  rewrite Hb. clear Hb.
  destruct (s_closed b) eqn:Eb; cbn [negb snd].
  - exact Hs1.
  - unfold doc_close, is_closed. rewrite Hs1, nth_error_two_second, Eb.
    cbn [snd world sessions]. rewrite ?Hs1, close_nth_two_second.
    reflexivity.
Qed.

(** What [try / except / finally] with that clause leaves, given the
    frame the body leaves: no session, or the two sessions of the
    operation, each open or closed once. *)
Lemma finally_two_balanced (body : M unit) (lvl : Level) (w : World)
  (input : string) :
  (let f1 := snd (body (mkFrame w [])) in
   sessions (world f1) = sessions w /\ locals f1 = [] \/
   exists a b,
     sessions (world f1) = (sessions w ++ [a; b])%list /\
     lookup "source_doc" (locals f1) = Some (List.length (sessions w)) /\
     lookup "output_doc" (locals f1) = Some (S (List.length (sessions w))) /\
     ensure_closed a = closed_once (Some input) /\
     ensure_closed b = closed_once None) ->
  let w' := try_except_finally body lvl
              (close_if_open "source_doc" ;;; close_if_open "output_doc") w in
  sessions w' = sessions w \/
  sessions w'
  = (sessions w ++ [closed_once (Some input); closed_once None])%list.
Proof.
  cbv zeta. unfold try_except_finally.
  destruct (body (mkFrame w [])) as [c f1]. cbn [snd].
  set (f2 := match c with
             | Exc e => snd (logger lvl (MsgException e) f1)
             | _ => f1
             end).
  assert (H2 : sessions (world f2) = sessions (world f1)
               /\ locals f2 = locals f1).
  { unfold f2. destruct c; try (split; reflexivity).
    cbn. split; [apply emit_sessions | reflexivity]. }
  destruct H2 as [Hs Hl]. clearbody f2.
  intros [[Hsess Hloc]|(a & b & Hsess & Hsrc & Hout & Ha & Hb)].
  - left. unfold bindM, close_if_open. rewrite Hl, Hloc.
    cbn [lookup fst snd]. rewrite Hl, Hloc. cbn [lookup].
    rewrite Hs. exact Hsess.
  - right.
    pose proof (finally_two_sessions f2 (sessions w) a b) as Hfin.
    cbv zeta in Hfin. rewrite Hs, Hl in Hfin.
    specialize (Hfin Hsess Hsrc Hout).
    pose proof (nr_two "source_doc" "output_doc" f2) as Hnr.
    destruct ((close_if_open "source_doc" ;;; close_if_open "output_doc") f2)
      as [c' f3]. cbn [fst snd] in *.
    destruct c'; try contradiction; rewrite Hfin, Ha, Hb; reflexivity.
Qed.

Lemma doc_close_last (f : Frame) (l : list Session) (s : Session) :
  sessions (world f) = (l ++ [s])%list -> s_closed s = false ->
  exists f',
    doc_close (List.length l) f = (Next tt, f') /\
    locals f' = locals f /\
    sessions (world f')
    = (l ++ [mkSession (s_path s) true (S (s_closes s))])%list.
Proof.
  intros Hs Hopen. unfold doc_close, is_closed.
  rewrite Hs, nth_error_new_session, Hopen. eexists.
  split; [reflexivity|]. split; [reflexivity|].
  cbn [world sessions]. apply close_nth_new_session.
Qed.

Lemma pagenum_to_pdf_sessions (input output : string) (overwrite : bool)
  (a : PagenumArgs) (w : World) :
  let w' := pagenum_to_pdf input output overwrite a w in
  sessions w' = sessions w \/
  sessions w'
  = (sessions w ++ [closed_once (Some input); closed_once None])%list.
Proof.
  apply finally_two_balanced. cbv zeta.
  unfold bindM, os_path_exists, when. cbn [world locals].
  destruct (path_exists w input); cbn [negb ret fst snd world locals];
    [|left; cbn; split; first [reflexivity | apply emit_sessions]].
  destruct (String.eqb input output); cbn [ret fst snd world locals];
    [left; cbn; split; first [reflexivity | apply emit_sessions]|].
  destruct (negb overwrite && path_exists w output);
    unfold logger, on_world, ret, pymupdf_open;
    cbn [fst snd world locals emit files];
    (destruct (lookup input (files w)) as [[pages|]|];
     [|left; split; reflexivity|left; split; reflexivity]);
    unfold assign, pymupdf_new;
    cbn [fst snd world locals sessions add_session];
    match goal with
    | |- context [for_pages ?b ?ps ?i ?o] =>
        destruct (for_pages b ps i o) as [l r]
    end;
    right; exists (mkSession (Some input) false 0);
    unfold emit_all, on_world; cbn [fst snd world locals];
    (destruct r as [out|e]; cbn [lift ret raise fst snd world locals];
     [unfold doc_save; destruct (save_accepts out);
      unfold on_world, raise; cbn [fst snd world locals]|]).
  all: first
    [ match goal with
      | |- context [doc_close ?h ?F] =>
          destruct (doc_close_last F
                      (sessions w ++ [mkSession (Some input) false 0])%list
                      (mkSession None false 0))
            as (f' & Hclose & Hl & Hs);
          [ cbn [world store sessions]; rewrite fold_emit_sessions;
            reflexivity
          | reflexivity
          | rewrite Hclose ]
      end;
      exists (mkSession None true 1); cbn [snd]; rewrite Hs, Hl;
      cbn [locals s_path s_closes]; rewrite <- app_assoc, last_length;
      repeat split; reflexivity
    | exists (mkSession None false 0);
      cbn [world store sessions locals snd];
      rewrite ?fold_emit_sessions; cbn [sessions add_session];
      rewrite <- app_assoc, last_length; repeat split; reflexivity ].
Qed.

Lemma header_to_pdf_sessions (input output : string) (overwrite : bool)
  (a : HeaderArgs) (w : World) :
  let w' := header_to_pdf input output overwrite a w in
  sessions w' = sessions w \/
  sessions w'
  = (sessions w ++ [closed_once (Some input); closed_once None])%list.
Proof.
  apply finally_two_balanced. cbv zeta.
  unfold bindM, os_path_exists, when. cbn [world locals].
  destruct (path_exists w input); cbn [negb ret fst snd world locals];
    [|left; cbn; split; first [reflexivity | apply emit_sessions]].
  destruct (String.eqb input output); cbn [ret fst snd world locals];
    [left; cbn; split; first [reflexivity | apply emit_sessions]|].
  destruct (negb overwrite && path_exists w output);
    unfold logger, on_world, ret, pymupdf_open;
    cbn [fst snd world locals emit files];
    (destruct (split_by_delimiter (splitext_root (basename input))
                                  (h_delimiter a)) as [text|e0];
     cbn [lift ret raise fst snd world locals files];
     [|left; split; reflexivity]);
    (destruct (lookup input (files w)) as [[pages|]|];
     [|left; split; reflexivity|left; split; reflexivity]);
    unfold assign, pymupdf_new;
    cbn [fst snd world locals sessions add_session];
    match goal with
    | |- context [for_pages ?b ?ps ?i ?o] =>
        destruct (for_pages b ps i o) as [l r]
    end;
    right; exists (mkSession (Some input) false 0);
    unfold emit_all, on_world; cbn [fst snd world locals];
    (destruct r as [out|e]; cbn [lift ret raise fst snd world locals];
     [unfold doc_save; destruct (save_accepts out);
      unfold on_world, raise; cbn [fst snd world locals]|]).
  all: first
    [ match goal with
      | |- context [doc_close ?h ?F] =>
          destruct (doc_close_last F
                      (sessions w ++ [mkSession (Some input) false 0])%list
                      (mkSession None false 0))
            as (f' & Hclose & Hl & Hs);
          [ cbn [world store sessions]; rewrite fold_emit_sessions;
            reflexivity
          | reflexivity
          | rewrite Hclose ]
      end;
      exists (mkSession None true 1); cbn [snd]; rewrite Hs, Hl;
      cbn [locals s_path s_closes]; rewrite <- app_assoc, last_length;
      repeat split; reflexivity
    | exists (mkSession None false 0);
      cbn [world store sessions locals snd];
      rewrite ?fold_emit_sessions; cbn [sessions add_session];
      rewrite <- app_assoc, last_length; repeat split; reflexivity ].
Qed.

Lemma doc_close_first_of_two (f : Frame) (l : list Session) (a b : Session) :
  sessions (world f) = (l ++ [a; b])%list -> s_closed a = false ->
  exists f',
    doc_close (List.length l) f = (Next tt, f') /\
    locals f' = locals f /\
    sessions (world f')
    = (l ++ [mkSession (s_path a) true (S (s_closes a)); b])%list.
Proof.
  intros Hs Hopen. unfold doc_close, is_closed.
  rewrite Hs, nth_error_two_first, Hopen. eexists.
  split; [reflexivity|]. split; [reflexivity|].
  cbn [world sessions]. apply close_nth_two_first.
Qed.

Lemma header_and_pagenum_to_pdf_sessions (input output : string)
  (overwrite : bool) (a : HpArgs) (w : World) :
  let w' := header_and_pagenum_to_pdf input output overwrite a w in
  sessions w' = sessions w \/
  sessions w'
  = (sessions w ++ [closed_once (Some input); closed_once None])%list.
Proof.
  apply finally_two_balanced. cbv zeta.
  unfold bindM, os_path_exists, when. cbn [world locals].
  destruct (path_exists w input); cbn [negb ret fst snd world locals];
    [|left; cbn; split; first [reflexivity | apply emit_sessions]].
  destruct (String.eqb input output); cbn [ret fst snd world locals];
    [left; cbn; split; first [reflexivity | apply emit_sessions]|].
  destruct (negb overwrite && path_exists w output);
    unfold logger, on_world, ret, pymupdf_open;
    cbn [fst snd world locals emit files];
    (destruct (split_by_delimiter (splitext_root (basename input))
                                  (hp_delimiter a)) as [text|e0];
     cbn [lift ret raise fst snd world locals files];
     [|left; split; reflexivity]);
    (destruct (lookup input (files w)) as [[pages|]|];
     [|left; split; reflexivity|left; split; reflexivity]);
    unfold assign, pymupdf_new;
    cbn [fst snd world locals sessions add_session];
    match goal with
    | |- context [for_pages ?b ?ps ?i ?o] =>
        destruct (for_pages b ps i o) as [l r]
    end;
    right;
    unfold emit_all, on_world; cbn [fst snd world locals];
    (destruct r as [out|e]; cbn [lift ret raise fst snd world locals];
     [unfold doc_save; destruct (save_accepts out);
      unfold on_world, raise; cbn [fst snd world locals]|]).
  all: first
    [ match goal with
      | |- context [doc_close ?h ?F] =>
          destruct (doc_close_last F
                      (sessions w ++ [mkSession (Some input) false 0])%list
                      (mkSession None false 0))
            as (f' & Hclose & Hl & Hs);
          [ cbn [world store sessions]; rewrite fold_emit_sessions;
            reflexivity
          | reflexivity
          | rewrite Hclose ]
      end;
      rewrite <- app_assoc in Hs; cbn [app s_path s_closes] in Hs;
      destruct (doc_close_first_of_two f' (sessions w)
                  (mkSession (Some input) false 0) (mkSession None true 1)
                  Hs eq_refl)
        as (f'' & Hclose2 & Hl2 & Hs2);
      rewrite Hclose2;
      exists (mkSession (Some input) true 1), (mkSession None true 1);
      cbn [snd]; rewrite Hs2, Hl2, Hl;
      cbn [locals s_path s_closes]; rewrite last_length;
      repeat split; reflexivity
    | exists (mkSession (Some input) false 0), (mkSession None false 0);
      cbn [world store sessions locals snd];
      rewrite ?fold_emit_sessions; cbn [sessions add_session];
      rewrite <- app_assoc, last_length; repeat split; reflexivity ].
Qed.

(** X3: on every exit path (guard, exception, normal completion) the
    operations that hold two documents - [header_to_pdf],
    [pagenum_to_pdf], [header_and_pagenum_to_pdf] and
    [header_and_frame_to_pdf] - and [masking_to_pdf] leave the sessions
    they found untouched, and either have opened none or have closed each
    session they opened exactly once. *)
Theorem sessions_closed_exactly_once (input output : string)
  (overwrite : bool) (w : World) :
  (forall masks,
     let w' := masking_to_pdf input output masks overwrite w in
     sessions w' = sessions w \/
     sessions w' = (sessions w ++ [closed_once (Some input)])%list) /\
  (forall a,
     let w' := header_to_pdf input output overwrite a w in
     sessions w' = sessions w \/
     sessions w'
     = (sessions w ++ [closed_once (Some input); closed_once None])%list) /\
  (forall a,
     let w' := pagenum_to_pdf input output overwrite a w in
     sessions w' = sessions w \/
     sessions w'
     = (sessions w ++ [closed_once (Some input); closed_once None])%list) /\
  (forall a,
     let w' := header_and_pagenum_to_pdf input output overwrite a w in
     sessions w' = sessions w \/
     sessions w'
     = (sessions w ++ [closed_once (Some input); closed_once None])%list) /\
  (forall a,
     let w' := header_and_frame_to_pdf input output overwrite a w in
     sessions w' = sessions w \/
     sessions w'
     = (sessions w ++ [closed_once (Some input); closed_once None])%list).
Proof.
  split; [|split; [|split; [|split]]]; intros.
  - apply masking_to_pdf_sessions.
  - apply header_to_pdf_sessions.
  - apply pagenum_to_pdf_sessions.
  - apply header_and_pagenum_to_pdf_sessions.
  - apply header_and_pagenum_to_pdf_sessions.
Qed.

End SessionProperties.

Section ConcatProperties.

Context {C : Collaborators}.








End ConcatProperties.

Section BatchProperties.

Context {C : Collaborators}.

(** X5: a folder-wide operation given the same path as input and output
    folder, or an input folder that does not exist, logs one fatal
    message and does nothing else: it lists no file, creates no folder
    and calls no single-document operation; [concat_pdf] does the same
    when its input folder does not exist. *)
Theorem folder_guards_return (input output : string) (overwrite : bool)
  (w : World) :
  (input = output ->
   (forall masks, masking_to_pdf_in_folder input output masks overwrite w
                  = emit FATAL (MsgSameFolder "masking_to_pdf_in_folder") w) /\
   (forall a, header_to_pdf_in_folder input output a w
              = emit FATAL (MsgSameFolder "header_to_pdf_in_folder") w) /\
   (forall a, header_and_pagenum_to_pdf_in_folder input output overwrite a w
              = emit FATAL
                  (MsgSameFolder "header_and_pagenum_to_pdf_in_folder") w) /\
   (forall a, header_and_frame_to_pdf_in_folder input output overwrite a w
              = emit FATAL
                  (MsgSameFolder "header_and_frame_to_pdf_in_folder") w)) /\
  (input <> output -> path_exists w input = false ->
   (forall masks, masking_to_pdf_in_folder input output masks overwrite w
                  = emit FATAL
                      (MsgFolderMissing input "masking_to_pdf_in_folder") w) /\
   (forall a, header_to_pdf_in_folder input output a w
              = emit FATAL
                  (MsgFolderMissing input "header_to_pdf_in_folder") w) /\
   (forall a, header_and_pagenum_to_pdf_in_folder input output overwrite a w
              = emit FATAL
                  (MsgFolderMissing input
                     "header_and_pagenum_to_pdf_in_folder") w) /\
   (forall a, header_and_frame_to_pdf_in_folder input output overwrite a w
              = emit FATAL
                  (MsgFolderMissing input
                     "header_and_frame_to_pdf_in_folder") w)) /\
  (path_exists w input = false ->
   concat_pdf input output overwrite w
   = emit FATAL (MsgFolderMissing input "concat_pdf") w).
Proof.
  split; [|split].
  - intros <-.
    unfold masking_to_pdf_in_folder, header_to_pdf_in_folder,
      header_and_pagenum_to_pdf_in_folder, header_and_frame_to_pdf_in_folder,
      in_folder.
    rewrite String.eqb_refl. repeat split.
  - intros Hneq Hin. apply String.eqb_neq in Hneq.
    unfold masking_to_pdf_in_folder, header_to_pdf_in_folder,
      header_and_pagenum_to_pdf_in_folder, header_and_frame_to_pdf_in_folder,
      in_folder.
    rewrite Hneq, Hin. repeat split.
  - intros Hin. unfold concat_pdf. rewrite Hin. reflexivity.
Qed.

Lemma for_files_all (body : string -> World -> World) (l : list string) :
  (forall f w, uncaught (body f w) = uncaught w) ->
  forall w, uncaught w = None ->
    for_files body l w = fold_left (fun w f => body f w) l w.
Proof.
  intros Hbody. induction l as [|f rest IH]; intros w Hw; cbn;
    [reflexivity|].
  assert (Hu : uncaught (body f w) = None) by (rewrite Hbody; exact Hw).
  rewrite Hu. apply IH, Hu.
Qed.

Lemma emit_uncaught (lvl : Level) (m : Msg) (w : World) :
  uncaught (emit lvl m w) = uncaught w.
Proof. destruct lvl; reflexivity. Qed.

Lemma ensure_folder_uncaught (lvl : Level) (o : string) (w : World) :
  uncaught (ensure_folder lvl o w) = uncaught w.
Proof.
  unfold ensure_folder. destruct (negb (path_exists w (abspath o)));
    [|reflexivity].
  rewrite emit_uncaught. reflexivity.
Qed.

Lemma ensure_folder_files (lvl : Level) (o : string) (w : World) :
  files (ensure_folder lvl o w) = files w.
Proof.
  unfold ensure_folder. destruct (negb (path_exists w (abspath o)));
    [|reflexivity].
  rewrite emit_files. reflexivity.
Qed.

(** The loop of a folder-wide operation over single-document calls that
    let no exception escape: every listed file is handed over, in
    listing order, and only the output paths of the calls can change. *)
Lemma in_folder_all (func : string)
  (prepare : string -> string -> World -> World) (lvl : Level)
  (single : string -> string -> World -> World)
  (input output : string) (w : World) :
  (forall i o w0, preserved o w0 (single i o w0)) ->
  (forall i o w0, uncaught (prepare i o w0) = uncaught w0
                  /\ files (prepare i o w0) = files w0) ->
  input <> output -> path_exists w input = true -> uncaught w = None ->
  let outfile := fun f => (abspath output ++ "/" ++ basename f)%string in
  let w0 := prepare (abspath input) (abspath output) w in
  let listing := glob_pdf w (abspath input) in
  let w' := in_folder func prepare lvl single input output w in
  w' = fold_left
         (fun w f => single f (outfile f)
                            (emit lvl (MsgFileStart f (outfile f)) w))
         listing w0 /\
  uncaught w' = None /\
  forall p, (forall f, In f listing -> p <> outfile f) ->
            lookup p (files w') = lookup p (files w).
Proof.
  intros Hsingle Hprep Hneq Hin Hunc outfile w0 listing w'.
  assert (Hstep : forall f w1,
            preserved (outfile f) w1
              (single f (outfile f)
                      (emit lvl (MsgFileStart f (outfile f)) w1))).
  { intros f w1. eapply preserved_trans;
      [apply preserved_emit | apply Hsingle]. }
  assert (Hlist : glob_pdf w0 (abspath input) = listing).
  { unfold glob_pdf, w0. destruct (Hprep (abspath input) (abspath output) w)
      as [_ ->]. reflexivity. }
  assert (Hw' : w' = fold_left
                       (fun w f => single f (outfile f)
                                     (emit lvl (MsgFileStart f (outfile f)) w))
                       listing w0).
  { unfold w', in_folder. apply String.eqb_neq in Hneq.
    rewrite Hneq, Hin. cbn [negb]. fold w0. rewrite Hlist.
    apply for_files_all.
    - intros f w1. apply (Hstep f w1).
    - unfold w0. destruct (Hprep (abspath input) (abspath output) w)
        as [-> _]. exact Hunc. }
  split; [exact Hw'|]. rewrite Hw'. clear Hw' w'.
  assert (Hw0 : uncaught w0 = None /\ files w0 = files w).
  { unfold w0. destruct (Hprep (abspath input) (abspath output) w)
      as [-> ->]. split; [exact Hunc | reflexivity]. }
  destruct Hw0 as [Hu0 Hf0]. rewrite <- Hf0. clearbody w0.
  clear Hlist Hf0. revert w0 Hu0.
  induction listing as [|f rest IH]; intros w0 Hu0; cbn [fold_left].
  - split; [exact Hu0 | reflexivity].
  - destruct (Hstep f w0) as (Hu & _ & _ & Hfiles).
    destruct (IH (single f (outfile f)
                         (emit lvl (MsgFileStart f (outfile f)) w0)))
      as [IHu IHf].
    { rewrite Hu. exact Hu0. }
    split; [exact IHu|]. intros p Hp.
    rewrite IHf by (intros g Hg; apply Hp; right; exact Hg).
    apply Hfiles, Hp. left. reflexivity.
Qed.

(** X6: a folder-wide operation whose guards pass hands every .pdf file
    of the input folder, in listing order, to its single-document
    operation with output path outputDir/basename(input): a file that
    cannot be processed does not stop the batch, no exception escapes,
    and no file other than those output paths is changed. *)
Theorem folder_operations_process_every_file (input output : string)
  (overwrite : bool) (w : World) :
  input <> output -> path_exists w input = true -> uncaught w = None ->
  let outfile := fun f => (abspath output ++ "/" ++ basename f)%string in
  let listing := glob_pdf w (abspath input) in
  let untouched := fun w' =>
    uncaught w' = None /\
    forall p, (forall f, In f listing -> p <> outfile f) ->
              lookup p (files w') = lookup p (files w) in
  (forall masks,
     let w' := masking_to_pdf_in_folder input output masks overwrite w in
     w' = fold_left
            (fun w f => masking_to_pdf f (outfile f) masks overwrite
                          (emit INFO (MsgFileStart f (outfile f)) w))
            listing
            (emit INFO (MsgFolderStart (abspath input) (abspath output))
                  (ensure_folder INFO (abspath output) w)) /\
     untouched w') /\
  (forall a,
     let w' := header_to_pdf_in_folder input output a w in
     w' = fold_left
            (fun w f => header_to_pdf f (outfile f) true a w)
            listing (ensure_folder DEBUG (abspath output) w) /\
     untouched w') /\
  (forall a,
     let w' := header_and_pagenum_to_pdf_in_folder input output overwrite a w
     in
     w' = fold_left
            (fun w f => header_and_pagenum_to_pdf f (outfile f) overwrite a
                          (emit INFO (MsgFileStart f (outfile f)) w))
            listing
            (ensure_folder INFO (abspath output)
               (emit INFO (MsgFolderStart (abspath input)
                                          (abspath (abspath input))) w)) /\
     untouched w') /\
  (forall a,
     let w' := header_and_frame_to_pdf_in_folder input output overwrite a w in
     w' = fold_left
            (fun w f => header_and_frame_to_pdf f (outfile f) overwrite a w)
            listing (ensure_folder DEBUG (abspath output) w) /\
     untouched w').
Proof.
  intros Hneq Hin Hunc outfile listing untouched.
  split; [|split; [|split]]; intros x; cbv zeta.
  - destruct (in_folder_all "masking_to_pdf_in_folder"
                (fun i o w => emit INFO (MsgFolderStart i o)
                                   (ensure_folder INFO o w))
                INFO
                (fun f g => masking_to_pdf f g x overwrite)
                input output w) as (H1 & H2 & H3); try assumption.
    + intros i o w0.
      apply (single_operations_preserved i o overwrite w0).
    + intros i o w0. rewrite emit_uncaught, emit_files,
        ensure_folder_uncaught, ensure_folder_files. split; reflexivity.
    + split; [exact H1|]. split; [exact H2 | exact H3].
  - destruct (in_folder_all "header_to_pdf_in_folder"
                (fun i o w => ensure_folder DEBUG o
                                (emit DEBUG (MsgFolderStart i (abspath i)) w))
                DEBUG
                (fun f g => header_to_pdf f g true x)
                input output w) as (H1 & H2 & H3); try assumption.
    + intros i o w0. apply (single_operations_preserved i o true w0).
    + intros i o w0. rewrite ensure_folder_uncaught, ensure_folder_files.
      split; reflexivity.
    + split; [exact H1|]. split; [exact H2 | exact H3].
  - destruct (in_folder_all "header_and_pagenum_to_pdf_in_folder"
                (fun i o w => ensure_folder INFO o
                                (emit INFO (MsgFolderStart i (abspath i)) w))
                INFO
                (fun f g => header_and_pagenum_to_pdf f g overwrite x)
                input output w) as (H1 & H2 & H3); try assumption.
    + intros i o w0.
      apply (single_operations_preserved i o overwrite w0).
    + intros i o w0. rewrite ensure_folder_uncaught, ensure_folder_files.
      split; reflexivity.
    + split; [exact H1|]. split; [exact H2 | exact H3].
  - destruct (in_folder_all "header_and_frame_to_pdf_in_folder"
                (fun _ o w => ensure_folder DEBUG o w)
                DEBUG
                (fun f g => header_and_frame_to_pdf f g overwrite x)
                input output w) as (H1 & H2 & H3); try assumption.
    + intros i o w0.
      apply (single_operations_preserved i o overwrite w0).
    + intros i o w0. rewrite ensure_folder_uncaught, ensure_folder_files.
      split; reflexivity.
    + split; [exact H1|]. split; [exact H2 | exact H3].
Qed.

End BatchProperties.

Lemma input_guards_return_witness :
  path_exists sample_world "/in/none.pdf" = false /\
  path_exists sample_world "/in/2.pdf" = true /\
  masking_to_pdf (C := spec_collaborators) "/in/none.pdf" "/out/none.pdf"
                 sample_masks true sample_world
  = emit FATAL (MsgInputMissing "/in/none.pdf" "masking_to_pdf")
         sample_world /\
  pagenum_to_pdf (C := spec_collaborators) "/in/2.pdf" "/in/2.pdf" true
                 pagenum_defaults sample_world
  = emit FATAL (MsgSameAsInput "pagenum_to_pdf") sample_world.
Proof.
  destruct (input_guards_return (C := spec_collaborators)
              "/in/none.pdf" "/out/none.pdf" true sample_world)
    as [Hmissing _].
  destruct (input_guards_return (C := spec_collaborators)
              "/in/2.pdf" "/in/2.pdf" true sample_world)
    as [_ Hsame].
  split; [reflexivity|]. split; [reflexivity|]. split.
  - apply (proj1 (Hmissing eq_refl)).
  - apply (proj1 (proj2 (proj2 (proj2 (Hsame eq_refl eq_refl))))).
Defined.


Lemma folder_guards_return_witness :
  path_exists sample_world "/nowhere" = false /\
  header_to_pdf_in_folder (C := spec_collaborators) "/in" "/in"
                          header_defaults sample_world
  = emit FATAL (MsgSameFolder "header_to_pdf_in_folder") sample_world /\
  concat_pdf (C := spec_collaborators) "/nowhere" "/out/all.pdf" true
             sample_world
  = emit FATAL (MsgFolderMissing "/nowhere" "concat_pdf") sample_world.
Proof.
  split; [reflexivity|]. split.
  - destruct (folder_guards_return (C := spec_collaborators)
                "/in" "/in" true sample_world) as [Hsame _].
    apply (proj1 (proj2 (Hsame eq_refl))).
  - destruct (folder_guards_return (C := spec_collaborators)
                "/nowhere" "/out/all.pdf" true sample_world)
      as (_ & _ & Hcat).
    apply (Hcat eq_refl).
Defined.

Lemma folder_operations_process_every_file_witness :
  "/in"%string <> "/out"%string /\
  path_exists sample_world "/in" = true /\
  uncaught sample_world = None /\
  header_and_frame_to_pdf_in_folder (C := spec_collaborators) "/in" "/out"
                                    true frame_defaults sample_world
  = fold_left
      (fun w f =>
         header_and_frame_to_pdf (C := spec_collaborators) f
           ("/out" ++ "/" ++ basename f)%string true frame_defaults w)
      ["/in/10.pdf"; "/in/2.pdf"]%string sample_world.
Proof.
  assert (Hneq : "/in"%string <> "/out"%string) by discriminate.
  split; [exact Hneq|]. split; [reflexivity|]. split; [reflexivity|].
  destruct (folder_operations_process_every_file (C := spec_collaborators)
              "/in" "/out" true sample_world Hneq eq_refl eq_refl)
    as (_ & _ & _ & Hframe).
  apply (proj1 (Hframe frame_defaults)).
Defined.

Section DelimiterProperties.

Lemma split_ws_no_word (s : string) :
  has_word s = false -> split_ws s = [].
Proof.
  induction s as [|a s IH]; intros H; [reflexivity|].
  cbn [has_word] in H. apply orb_false_elim in H. destruct H as [Ha Hs].
  apply negb_false_iff in Ha. rewrite split_ws_cons, Ha. apply IH, Hs.
Qed.

Lemma isspace_differs (a c : ascii) :
  isspace a = false -> isspace c = true -> Ascii.eqb a c = false.
Proof.
  intros Ha Hc. destruct (Ascii.eqb a c) eqn:E; [|reflexivity].
  apply Ascii.eqb_eq in E. subst. congruence.
Qed.

Lemma take_word_no_space (c : ascii) (s : string) :
  isspace c = true -> contains_char c (take_word s) = false.
Proof.
  intros Hc. induction s as [|a s IH]; cbn [take_word]; [reflexivity|].
  destruct (isspace a) eqn:Ha; [reflexivity|].
  cbn [contains_char]. rewrite (isspace_differs a c Ha Hc), IH. reflexivity.
Qed.

Lemma take_word_fixed (s : string) : take_word (take_word s) = take_word s.
Proof.
  induction s as [|a s IH]; cbn [take_word]; [reflexivity|].
  destruct (isspace a) eqn:Ha; [reflexivity|].
  cbn [take_word]. rewrite Ha, IH. reflexivity.
Qed.

Lemma take_word_prefix (s : string) :
  exists rest, s = (take_word s ++ rest)%string.
Proof.
  induction s as [|a s [rest IH]]; cbn [take_word].
  - exists EmptyString. reflexivity.
  - destruct (isspace a).
    + exists (String a s). reflexivity.
    + exists rest. cbn [append]. rewrite <- IH. reflexivity.
Qed.

Lemma first_word_shape (s : string) :
  has_word s = true ->
  exists pre a s' rest,
    isspace a = false /\ has_word pre = false /\
    first_word s = String a (take_word s') /\
    s = (pre ++ String a (take_word s') ++ rest)%string.
Proof.
  induction s as [|b s IH]; intros H; [discriminate|].
  cbn [has_word first_word] in *. destruct (isspace b) eqn:Hb.
  - cbn [negb orb] in H.
    destruct (IH H) as (pre & a & s' & rest & Ha & Hpre & Hf & Hs).
    exists (String b pre), a, s', rest.
    split; [exact Ha|]. split.
    { cbn [has_word]. rewrite Hb, Hpre. reflexivity. }
    split; [exact Hf|]. cbn [append]. f_equal. exact Hs.
  - destruct (take_word_prefix s) as [rest Hrest].
    exists EmptyString, b, s, rest.
    split; [exact Hb|]. split; [reflexivity|]. split; [reflexivity|].
    cbn [append]. rewrite <- Hrest. reflexivity.
Qed.

Lemma segment_before_clean (c : ascii) (s : string) :
  contains_char c (segment_before c s) = false.
Proof.
  induction s as [|a s IH]; cbn [segment_before]; [reflexivity|].
  destruct (Ascii.eqb a c) eqn:E; [reflexivity|].
  cbn [contains_char]. rewrite E, IH. reflexivity.
Qed.

Lemma segment_before_prefix (c : ascii) (s : string) :
  exists rest, s = (segment_before c s ++ rest)%string.
Proof.
  induction s as [|a s [rest IH]]; cbn [segment_before].
  - exists EmptyString. reflexivity.
  - destruct (Ascii.eqb a c).
    + exists (String a s). reflexivity.
    + exists rest. cbn [append]. rewrite <- IH. reflexivity.
Qed.

Lemma Delimiters_eq_Space (d : Delimiters) : d = Space \/ d <> Space.
Proof. destruct d; (left; reflexivity) || (right; discriminate). Qed.

(** X7: [split_by_delimiter] raises exactly when the delimiter is
    [Space] and the text has no character that is not whitespace (the
    empty text included); what it raises then is [IndexError].  With
    every other delimiter it returns for every text. *)
Theorem split_by_delimiter_raises (text : string) (d : Delimiters) :
  ((exists e, split_by_delimiter text d = Raise e) <->
   d = Space /\ has_word text = false) /\
  (forall e, split_by_delimiter text d = Raise e -> e = IndexError).
Proof.
  assert (Hchar : forall c, index0 (split_sep c text) <> Raise IndexError
                            /\ forall e, index0 (split_sep c text) = Raise e
                                         -> False).
  { intros c. rewrite split_sep_head. split; [discriminate|].
    intros e He. discriminate. }
  destruct (has_word text) eqn:Hw.
  - assert (Hok : forall e, split_by_delimiter text d <> Raise e).
    { intros e He. destruct d; cbn [split_by_delimiter] in He;
        try discriminate; try (exact (proj2 (Hchar _) e He)).
      rewrite (split_ws_head text Hw) in He. discriminate. }
    split.
    + split.
      * intros [e He]. destruct (Hok e He).
      * intros [_ Hfalse]. discriminate.
    + intros e He. destruct (Hok e He).
  - split.
    + split.
      * intros [e He]. split; [|reflexivity].
        destruct d; cbn [split_by_delimiter] in He;
          try discriminate; try (destruct (proj2 (Hchar _) e He)).
        reflexivity.
      * intros [-> _]. exists IndexError. cbn [split_by_delimiter].
        rewrite (split_ws_no_word text Hw). reflexivity.
    + intros e He.
      destruct d; cbn [split_by_delimiter] in He;
        try discriminate; try (destruct (proj2 (Hchar _) e He)).
      rewrite (split_ws_no_word text Hw) in He. cbn in He. congruence.
Qed.

Lemma split_by_delimiter_raises_witness :
  (exists e, split_by_delimiter "   " Space = Raise e) /\
  split_by_delimiter "" Space = Raise IndexError.
Proof.
  split.
  - apply (proj1 (split_by_delimiter_raises "   " Space)).
    split; reflexivity.
  - destruct (proj2 (proj1 (split_by_delimiter_raises "" Space))
                (conj eq_refl eq_refl)) as [e He].
    rewrite He. f_equal.
    exact (proj2 (split_by_delimiter_raises "" Space) e He).
Defined.

(** X8: what [split_by_delimiter] returns contains no occurrence of the
    delimiter's character, and splitting it again at the same delimiter
    gives it back unchanged.  With [Space] the result is not empty,
    holds no whitespace character at all and follows a run of
    whitespace in the text; with every other delimiter it is a prefix
    of the text. *)
Theorem split_by_delimiter_result (text : string) (d : Delimiters)
  (r : string) :
  split_by_delimiter text d = Ok r ->
  split_by_delimiter r d = Ok r /\
  (forall c, delimiter_char d = Some c -> contains_char c r = false) /\
  (d = Space ->
   r <> EmptyString /\
   (forall c, isspace c = true -> contains_char c r = false) /\
   exists pre rest, text = (pre ++ r ++ rest)%string /\ has_word pre = false)
  /\
  (d <> Space -> exists rest, text = (r ++ rest)%string).
Proof.
  intros Hr.
  destruct (delimiter_char d) as [c|] eqn:Hc.
  - destruct (Delimiters_eq_Space d) as [->|Hd].
    + cbn [delimiter_char] in Hc. injection Hc as <-.
      destruct (has_word text) eqn:Hw.
      2:{ cbn [split_by_delimiter] in Hr.
          rewrite (split_ws_no_word text Hw) in Hr. discriminate. }
      cbn [split_by_delimiter] in Hr.
      rewrite (split_ws_head text Hw) in Hr. injection Hr as <-.
      destruct (first_word_shape text Hw)
        as (pre & a & s' & rest & Ha & Hpre & Hf & Hs).
      rewrite Hf.
      assert (Hclean : forall c0, isspace c0 = true ->
                contains_char c0 (String a (take_word s')) = false).
      { intros c0 Hc0. cbn [contains_char].
        rewrite (isspace_differs a c0 Ha Hc0), take_word_no_space
          by exact Hc0. reflexivity. }
      split; [|split; [|split]].
      * cbn [split_by_delimiter].
        rewrite split_ws_take_word by exact Ha.
        rewrite take_word_fixed. reflexivity.
      * intros c0 Hc0. injection Hc0 as <-. apply Hclean. reflexivity.
      * intros _. split; [discriminate|]. split; [exact Hclean|].
        exists pre, rest. split; [exact Hs | exact Hpre].
      * intros Hneq. destruct (Hneq eq_refl).
    + rewrite (split_by_delimiter_char text d c Hd Hc) in Hr.
      injection Hr as <-.
      split; [|split; [|split]].
      * rewrite (split_by_delimiter_char _ d c Hd Hc).
        rewrite segment_before_absent by apply segment_before_clean.
        reflexivity.
      * intros c0 Hc0. injection Hc0 as <-. apply segment_before_clean.
      * intros Heq. destruct (Hd Heq).
      * intros _. apply segment_before_prefix.
  - destruct d; cbn [delimiter_char] in Hc; try discriminate.
    cbn [split_by_delimiter] in Hr. injection Hr as <-.
    split; [reflexivity|]. split; [intros c Hc0; discriminate|].
    split; [intros Heq; discriminate|].
    intros _. exists EmptyString. clear. induction text as [|a t IH];
      cbn [append]; [reflexivity|]. rewrite <- IH. reflexivity.
Qed.

Lemma split_by_delimiter_result_witness :
  split_by_delimiter "report" Underscore = Ok "report"%string /\
  contains_char "_" "report" = false.
Proof.
  destruct (split_by_delimiter_result "report_2024_v2" Underscore "report"
              eq_refl) as (Hagain & Hclean & _).
  split; [exact Hagain|]. apply Hclean. reflexivity.
Defined.

End DelimiterProperties.

Section MaskingProperties.

Context {C : Collaborators}.






End MaskingProperties.

Section GridEdgeProperties.

Lemma int_zero_iff (x : Q) : int x = 0%Z <-> -1 < x /\ x < 1.
Proof.
  destruct x as [n d]. unfold int, Qlt. cbn [Qnum Qden].
  rewrite Z.quot_small_iff by discriminate.
  change (Z.abs (Z.pos d)) with (Z.pos d). lia.
Qed.

Lemma int_scaled_nonzero (x : Q) (k : Z) :
  (1 <= k)%Z -> int x <> 0%Z -> int (x * inject_Z k) <> 0%Z.
Proof.
  intros Hk Hx Hz. apply Hx. apply int_zero_iff.
  apply int_zero_iff in Hz. destruct Hz as [Hlo Hhi].
  assert (Hk' : 1 <= inject_Z k).
  { change 1 with (inject_Z 1). rewrite <- Zle_Qle. exact Hk. }
  split.
  - destruct (Qlt_le_dec (-1) x) as [H|H]; [exact H|]. exfalso.
    assert (x * inject_Z k <= -1 * 1).
    { setoid_replace (x * inject_Z k) with (- ((- x) * inject_Z k)) by ring.
      setoid_replace (-1 * 1) with (- (1 * 1)) by ring.
      apply Qopp_le_compat. apply Qmult_le_compat_nonneg.
      - split; [lra | lra].
      - split; [lra | exact Hk']. }
    lra.
  - destruct (Qlt_le_dec x 1) as [H|H]; [exact H|]. exfalso.
    assert (1 * 1 <= x * inject_Z k).
    { apply Qmult_le_compat_nonneg.
      - split; [lra | exact H].
      - split; [lra | exact Hk']. }
    lra.
Qed.

Lemma int_sign (x : Q) :
  (0 <= x -> (0 <= int x)%Z) /\ (x <= 0 -> (int x <= 0)%Z).
Proof.
  destruct x as [n d]. unfold int, Qle. cbn [Qnum Qden]. split; intros H.
  - apply Z.quot_pos; lia.
  - assert (Hn : (0 <= - n)%Z) by lia.
    pose proof (Z.quot_pos (- n) (Z.pos d) Hn ltac:(lia)) as Hq.
    rewrite Z.quot_opp_l in Hq by discriminate. lia.
Qed.

Lemma range0_nonzero_step (stop step : Z) :
  step <> 0%Z -> exists l, range0 stop step = Ok l.
Proof.
  intros H. unfold range0. apply Z.eqb_neq in H. rewrite H.
  eexists. reflexivity.
Qed.

Lemma range0_negative_step (stop step : Z) :
  (step < 0)%Z -> (0 <= stop)%Z -> range0 stop step = Ok [].
Proof.
  intros Hs Hstop. unfold range0.
  assert (E1 : (step =? 0)%Z = false) by (apply Z.eqb_neq; lia).
  assert (E2 : (0 <? step)%Z = false) by (apply Z.ltb_ge; lia).
  rewrite E1, E2.
  assert (Hq : ((- stop + - step - 1) / - step <= 0)%Z).
  { assert (((- stop + - step - 1) / - step < 1)%Z); [|lia].
    apply Z.div_lt_upper_bound; lia. }
  destruct ((- stop + - step - 1) / - step)%Z eqn:E; try lia; reflexivity.
Qed.

Lemma finish_any_cells (cells : list Rect) (width : Q) (color : Color)
  (done : list Content) :
  finish width color (draw_rects cells (mkShape [] done))
  = mkShape [] (done ++ match cells with
                        | [] => []
                        | _ => [Path cells width color]
                        end).
Proof.
  destruct cells as [|c cells].
  - cbn. rewrite app_nil_r. reflexivity.
  - apply finish_cells. discriminate.
Qed.

Lemma grid_cells_nonzero (W H I : Q) :
  int I <> 0%Z -> exists cells, grid_cells W H I = Ok cells.
Proof.
  intros HI. unfold grid_cells.
  destruct (range0_nonzero_step (int H) (int I) HI) as [ys ->].
  destruct (range0_nonzero_step (int W) (int I) HI) as [xs ->].
  eexists. reflexivity.
Qed.

Lemma grid_cells_negative (W H I : Q) :
  (int I < 0)%Z -> 0 <= H -> grid_cells W H I = Ok [].
Proof.
  intros HI HH. unfold grid_cells.
  rewrite (range0_negative_step (int H) (int I) HI)
    by (apply int_sign, HH).
  cbn [Py.bind].
  destruct (range0_nonzero_step (int W) (int I)) as [xs ->]; [lia|].
  reflexivity.
Qed.

(** X10: what the grid renderer does with the interval it is given, on
    any page.  An interval strictly between -1 and 1 (0.5, say)
    truncates to a zero step, so the first pass raises [ValueError] and
    the page is not drawn.  With any other interval the page comes back
    with its size and earlier content kept, rotation 0, and one path
    appended for each of the three passes that has at least one cell,
    with stroke widths w, 5w and 10w.  With an interval of -1 or less on
    a page of non-negative height no pass has a cell and nothing is
    drawn. *)
Theorem grid_page_by_interval (I grid_width : Q) (thin medium thick : Color)
  (page : Page) :
  (-1 < I /\ I < 1 ->
   grid_page I grid_width thin medium thick page
   = Raise (ValueError "range() arg 3 must not be zero")) /\
  (I <= -1 \/ 1 <= I ->
   exists c1 c5 c10 page',
     grid_cells (p_width page) (p_height page) I = Ok c1 /\
     grid_cells (p_width page) (p_height page) (I * 5) = Ok c5 /\
     grid_cells (p_width page) (p_height page) (I * 10) = Ok c10 /\
     grid_page I grid_width thin medium thick page = Ok page' /\
     page_size page' = page_size page /\
     p_rotation page' = 0%Z /\
     p_redact_annots page' = p_redact_annots page /\
     p_contents page'
     = (p_contents page
        ++ match c1 with [] => [] | _ => [Path c1 grid_width thin] end
        ++ match c5 with
           | [] => []
           | _ => [Path c5 (grid_width * 5) medium]
           end
        ++ match c10 with
           | [] => []
           | _ => [Path c10 (grid_width * 10) thick]
           end)%list) /\
  (I <= -1 -> 0 <= p_height page ->
   exists page',
     grid_page I grid_width thin medium thick page = Ok page' /\
     p_contents page' = p_contents page).
Proof.
  assert (Hrun : forall c1 c5 c10,
    grid_cells (p_width page) (p_height page) I = Ok c1 ->
    grid_cells (p_width page) (p_height page) (I * 5) = Ok c5 ->
    grid_cells (p_width page) (p_height page) (I * 10) = Ok c10 ->
    exists page',
      grid_page I grid_width thin medium thick page = Ok page' /\
      page_size page' = page_size page /\
      p_rotation page' = 0%Z /\
      p_redact_annots page' = p_redact_annots page /\
      p_contents page'
      = (p_contents page
         ++ match c1 with [] => [] | _ => [Path c1 grid_width thin] end
         ++ match c5 with
            | [] => []
            | _ => [Path c5 (grid_width * 5) medium]
            end
         ++ match c10 with
            | [] => []
            | _ => [Path c10 (grid_width * 10) thick]
            end)%list).
  { intros c1 c5 c10 H1 H5 H10. unfold grid_page. cbv zeta.
    destruct (normalize_rotation_size page) as [Hw Hh].
    rewrite Hw, Hh, H1, H5, H10. cbn [Py.bind].
    eexists. split; [reflexivity|].
    unfold new_shape. rewrite !finish_any_cells.
    unfold commit, page_size.
    cbn [p_width p_height p_rotation p_contents p_redact_annots finished].
    rewrite Hw, Hh.
    split; [reflexivity|].
    split; [unfold normalize_rotation;
            destruct (p_rotation page =? 0)%Z eqn:E;
            [apply Z.eqb_eq, E | reflexivity]|].
    split; [unfold normalize_rotation;
            destruct (p_rotation page =? 0)%Z; reflexivity|].
    cbn [app]. rewrite <- !app_assoc.
    unfold normalize_rotation.
    destruct (p_rotation page =? 0)%Z; reflexivity. }
  assert (Hnz : I <= -1 \/ 1 <= I -> int I <> 0%Z).
  { intros Hout Hz. apply int_zero_iff in Hz. lra. }
  split; [|split].
  - intros Hin. apply int_zero_iff in Hin.
    unfold grid_page, grid_cells, range0. cbv zeta.
    rewrite Hin. reflexivity.
  - intros Hout. specialize (Hnz Hout).
    destruct (grid_cells_nonzero (p_width page) (p_height page) I Hnz)
      as [c1 H1].
    destruct (grid_cells_nonzero (p_width page) (p_height page) (I * 5))
      as [c5 H5].
    { apply (int_scaled_nonzero I 5); [lia | exact Hnz]. }
    destruct (grid_cells_nonzero (p_width page) (p_height page) (I * 10))
      as [c10 H10].
    { apply (int_scaled_nonzero I 10); [lia | exact Hnz]. }
    destruct (Hrun c1 c5 c10 H1 H5 H10) as (page' & Hp).
    exists c1, c5, c10, page'.
    split; [exact H1|]. split; [exact H5|]. split; [exact H10 | exact Hp].
  - intros Hneg Hh.
    assert (Hnz1 : int I <> 0%Z) by (apply Hnz; left; exact Hneg).
    assert (Hlt : forall k, (1 <= k)%Z -> (int (I * inject_Z k) < 0)%Z).
    { intros k Hk.
      pose proof (int_scaled_nonzero I k Hk Hnz1) as Hk0.
      assert (Hle : I * inject_Z k <= 0).
      { assert (Hk' : 1 <= inject_Z k).
        { change 1 with (inject_Z 1). rewrite <- Zle_Qle. exact Hk. }
        setoid_replace (I * inject_Z k) with (- ((- I) * inject_Z k))
          by ring.
        assert (0 <= (- I) * inject_Z k).
        { apply Qmult_le_0_compat; lra. }
        lra. }
      pose proof (proj2 (int_sign (I * inject_Z k)) Hle). lia. }
    assert (H1 : (int I < 0)%Z).
    { pose proof (proj2 (int_sign I) ltac:(lra)). lia. }
    destruct (Hrun [] [] [])
      as (page' & Hp & _ & _ & _ & Hc).
    + apply grid_cells_negative; assumption.
    + apply grid_cells_negative; [apply (Hlt 5%Z); lia | exact Hh].
    + apply grid_cells_negative; [apply (Hlt 10%Z); lia | exact Hh].
    + exists page'. split; [exact Hp|]. rewrite Hc. cbn [app].
      apply app_nil_r.
Qed.

Lemma grid_page_by_interval_witness :
  grid_page (1 # 2) 0.1 (0, 0, 0) (0, 0, 0) (0, 0, 0) sample_page
  = Raise (ValueError "range() arg 3 must not be zero") /\
  exists page',
    grid_page (-10) 0.1 (0, 0, 0) (0, 0, 0) (0, 0, 0) sample_page = Ok page' /\
    p_contents page' = p_contents sample_page.
Proof.
  split.
  - apply (proj1 (grid_page_by_interval (1 # 2) 0.1 (0, 0, 0) (0, 0, 0)
                    (0, 0, 0) sample_page)).
    split; reflexivity.
  - apply (proj2 (proj2 (grid_page_by_interval (-10) 0.1 (0, 0, 0) (0, 0, 0)
                           (0, 0, 0) sample_page))).
    + discriminate.
    + discriminate.
Defined.

End GridEdgeProperties.

Section GridTilingProperties.

Lemma axis_cover (i w : Z) (px : Q) :
  (1 <= i)%Z -> 0 <= px -> px < inject_Z w ->
  exists k, (0 <= k)%Z /\ (k * i < w)%Z /\
    inject_Z (k * i) <= px /\
    px < Qmin (inject_Z (k * i) + inject_Z i) (inject_Z w).
Proof.
  intros Hi H0 Hw.
  pose proof (Qfloor_le px) as Hfl.
  pose proof (Qlt_floor px) as Hfu.
  assert (Hf0 : (0 <= Qfloor px)%Z).
  { change 0%Z with (Qfloor 0). apply Qfloor_resp_le, H0. }
  assert (Hfw : (Qfloor px < w)%Z).
  { rewrite Zlt_Qlt. eapply Qle_lt_trans; [exact Hfl | exact Hw]. }
  set (f := Qfloor px) in *.
  assert (Hi0 : (0 < i)%Z) by lia.
  pose proof (Z.mul_div_le f i Hi0) as Hlo.
  pose proof (Z.mul_succ_div_gt f i Hi0) as Hhi.
  exists (f / i)%Z.
  split; [apply Z.div_pos; lia|]. split; [lia|]. split.
  - eapply Qle_trans; [|exact Hfl]. rewrite <- Zle_Qle. lia.
  - apply Q.min_glb_lt; [|exact Hw].
    eapply Qlt_le_trans; [exact Hfu|].
    rewrite <- inject_Z_plus. rewrite <- Zle_Qle. lia.
Qed.

Lemma axis_unique (i w k k' : Z) (px : Q) :
  (1 <= i)%Z ->
  inject_Z (k * i) <= px ->
  px < Qmin (inject_Z (k * i) + inject_Z i) (inject_Z w) ->
  inject_Z (k' * i) <= px ->
  px < Qmin (inject_Z (k' * i) + inject_Z i) (inject_Z w) ->
  k = k'.
Proof.
  intros Hi Hlo Hhi Hlo' Hhi'.
  assert (H1 : (k' * i < k * i + i)%Z).
  { rewrite Zlt_Qlt, inject_Z_plus.
    eapply Qle_lt_trans; [exact Hlo'|].
    eapply Qlt_le_trans; [exact Hhi | apply Q.le_min_l]. }
  assert (H2 : (k * i < k' * i + i)%Z).
  { rewrite Zlt_Qlt, inject_Z_plus.
    eapply Qle_lt_trans; [exact Hlo|].
    eapply Qlt_le_trans; [exact Hhi' | apply Q.le_min_l]. }
  nia.
Qed.

(** X11: on a page whose width and height are whole numbers, a pass of
    the grid renderer with a whole interval of at least 1 tiles the
    page: every point of the page lies in a cell of the pass, and in
    one cell only (a cell takes its left and top side, not its right
    and bottom side). *)
Theorem grid_pass_tiles_page (i w h : Z) :
  (1 <= i)%Z ->
  exists cells,
    grid_cells (inject_Z w) (inject_Z h) (inject_Z i) = Ok cells /\
    (forall px py,
       0 <= px -> px < inject_Z w -> 0 <= py -> py < inject_Z h ->
       exists c, In c cells /\ in_cell c px py) /\
    (forall c c' px py,
       In c cells -> In c' cells ->
       in_cell c px py -> in_cell c' px py -> c = c').
Proof.
  intros Hi.
  destruct (grid_cells_In (inject_Z w) (inject_Z h) (inject_Z i))
    as [cells [Hcells Hin]].
  { rewrite int_inject_Z. lia. }
  rewrite !int_inject_Z in Hin.
  exists cells. split; [exact Hcells|]. split.
  - intros px py Hx0 Hxw Hy0 Hyh.
    destruct (axis_cover i w px Hi Hx0 Hxw) as (kx & Hkx & Hkxw & Hxl & Hxu).
    destruct (axis_cover i h py Hi Hy0 Hyh) as (ky & Hky & Hkyh & Hyl & Hyu).
    exists (mkRect (inject_Z (kx * i)) (inject_Z (ky * i))
                   (Qmin (inject_Z (kx * i) + inject_Z i) (inject_Z w))
                   (Qmin (inject_Z (ky * i) + inject_Z i) (inject_Z h))).
    split.
    + apply Hin. exists ky, kx.
      split; [exact Hky|]. split; [exact Hkx|].
      split; [exact Hkyh|]. split; [exact Hkxw|].
      apply grid_cell_In. split; [reflexivity|]. split.
      * eapply Qle_lt_trans; [exact Hxl | exact Hxu].
      * eapply Qle_lt_trans; [exact Hyl | exact Hyu].
    + unfold in_cell. cbn [x0 y0 x1 y1].
      split; [exact Hxl|]. split; [exact Hxu|]. split; [exact Hyl | exact Hyu].
  - intros c c' px py Hc Hc' Hp Hp'.
    apply Hin in Hc. destruct Hc as (ky & kx & _ & _ & _ & _ & Hc).
    apply Hin in Hc'. destruct Hc' as (ky' & kx' & _ & _ & _ & _ & Hc').
    apply grid_cell_In in Hc. destruct Hc as [-> _].
    apply grid_cell_In in Hc'. destruct Hc' as [-> _].
    unfold in_cell in Hp, Hp'. cbn [x0 y0 x1 y1] in Hp, Hp'.
    destruct Hp as (Hxl & Hxu & Hyl & Hyu).
    destruct Hp' as (Hxl' & Hxu' & Hyl' & Hyu').
    rewrite (axis_unique i w kx kx' px Hi Hxl Hxu Hxl' Hxu').
    rewrite (axis_unique i h ky ky' py Hi Hyl Hyu Hyl' Hyu').
    reflexivity.
Qed.

Lemma grid_pass_tiles_page_witness :
  exists cells,
    grid_cells (inject_Z 200) (inject_Z 300) (inject_Z 10) = Ok cells /\
    (forall px py,
       0 <= px -> px < inject_Z 200 -> 0 <= py -> py < inject_Z 300 ->
       exists c, In c cells /\ in_cell c px py) /\
    (forall c c' px py,
       In c cells -> In c' cells ->
       in_cell c px py -> in_cell c' px py -> c = c').
Proof. apply (grid_pass_tiles_page 10 200 300). lia. Defined.

Lemma coarse_start_multiple (s m w k : Z) :
  (1 <= s)%Z -> (1 <= m)%Z -> (0 <= k)%Z -> (k * (s * m) < w)%Z ->
  exists k', (0 <= k')%Z /\ (k' * s < w)%Z /\ (k' * s = k * (s * m))%Z.
Proof. intros Hs Hm Hk Hlt. exists (m * k)%Z. nia. Qed.

Lemma coarse_end_multiple (s m w k : Z) :
  (1 <= s)%Z -> (1 <= m)%Z -> (0 <= k)%Z -> (k * (s * m) < w)%Z ->
  exists k', (0 <= k')%Z /\ (k' * s < w)%Z /\
    Z.min (k' * s + s) w = Z.min (k * (s * m) + s * m) w.
Proof.
  intros Hs Hm Hk Hlt.
  destruct (Z_le_gt_dec (k * (s * m) + s * m) w) as [Hfit|Hclip].
  - exists (m * k + m - 1)%Z. split; [nia|]. split; [nia|].
    rewrite !Z.min_l by nia. nia.
  - exists ((w - 1) / s)%Z.
    assert (Hs0 : (0 < s)%Z) by lia.
    pose proof (Z.mul_div_le (w - 1) s Hs0).
    pose proof (Z.mul_succ_div_gt (w - 1) s Hs0).
    assert (0 <= k * (s * m))%Z by nia.
    assert (0 <= (w - 1) / s)%Z by (apply Z.div_pos; lia).
    split; [assumption|]. split; [lia|].
    rewrite !Z.min_r by lia. reflexivity.
Qed.

Lemma aligned_multiple (w h s m : Z) (J K : Q) (fine coarse : list Rect) :
  J == inject_Z s -> int J = s ->
  K == inject_Z (s * m) -> int K = (s * m)%Z ->
  (1 <= s)%Z -> (1 <= m)%Z -> (1 <= w)%Z -> (1 <= h)%Z ->
  grid_cells (inject_Z w) (inject_Z h) J = Ok fine ->
  grid_cells (inject_Z w) (inject_Z h) K = Ok coarse ->
  aligned fine coarse.
Proof.
  intros HJ HintJ HK HintK Hs Hm Hw Hh Hfine Hcoarse c Hin.
  destruct (whole_cell_shape w h (s * m) K coarse c HK HintK
              ltac:(nia) Hcoarse Hin)
    as [ky [kx [Hky [Hkx [Hy [Hx [Ex0 [Ey0 [Ex1 Ey1]]]]]]]]].
  destruct (coarse_start_multiple s m w kx Hs Hm Hkx Hx)
    as [sx [Hsx [Hsxw Esx]]].
  destruct (coarse_start_multiple s m h ky Hs Hm Hky Hy)
    as [sy [Hsy [Hsyh Esy]]].
  destruct (coarse_end_multiple s m w kx Hs Hm Hkx Hx)
    as [ex [Hex [Hexw Eex]]].
  destruct (coarse_end_multiple s m h ky Hs Hm Hky Hy)
    as [ey [Hey [Heyh Eey]]].
  assert (H0h : (0 * s < h)%Z) by lia.
  assert (H0w : (0 * s < w)%Z) by lia.
  split; [|split; [|split]].
  - destruct (whole_cell_drawn w h s J 0 sx fine HJ HintJ Hs Hfine
                ltac:(lia) Hsx H0h Hsxw) as [f [Hf [Fx0 _]]].
    exists f. split; [exact Hf|]. left.
    rewrite Fx0, Ex0, Esx. reflexivity.
  - destruct (whole_cell_drawn w h s J 0 ex fine HJ HintJ Hs Hfine
                ltac:(lia) Hex H0h Hexw) as [f [Hf [_ [_ [Fx1 _]]]]].
    exists f. split; [exact Hf|]. right.
    rewrite Fx1, Ex1, Eex. reflexivity.
  - destruct (whole_cell_drawn w h s J sy 0 fine HJ HintJ Hs Hfine
                Hsy ltac:(lia) Hsyh H0w) as [f [Hf [_ [Fy0 _]]]].
    exists f. split; [exact Hf|]. left.
    rewrite Fy0, Ey0, Esy. reflexivity.
  - destruct (whole_cell_drawn w h s J ey 0 fine HJ HintJ Hs Hfine
                Hey ltac:(lia) Heyh H0w) as [f [Hf [_ [_ [_ Fy1]]]]].
    exists f. split; [exact Hf|]. right.
    rewrite Fy1, Ey1, Eey. reflexivity.
Qed.

(** X12: on a page whose width and height are whole numbers, with a
    whole base interval I of at least 1, every side of a cell of the 10I
    pass of the grid renderer lies on a side of a cell of the 5I pass
    and on a side of a cell of the I pass. *)
Theorem grid_thick_pass_aligned (i w h : Z) :
  (1 <= i)%Z -> (1 <= w)%Z -> (1 <= h)%Z ->
  let I := inject_Z i in
  let W := inject_Z w in
  let H := inject_Z h in
  exists c1 c5 c10,
    grid_cells W H I = Ok c1 /\
    grid_cells W H (I * 5) = Ok c5 /\
    grid_cells W H (I * 10) = Ok c10 /\
    aligned c1 c10 /\ aligned c5 c10.
Proof.
  intros Hi Hw Hh I W H.
  assert (HI1 : I == inject_Z i) by reflexivity.
  assert (HI5 : I * 5 == inject_Z (i * 5)).
  { unfold I. rewrite inject_Z_mult. reflexivity. }
  assert (HI10 : I * 10 == inject_Z (i * 10)).
  { unfold I. rewrite inject_Z_mult. reflexivity. }
  assert (HI10' : I * 10 == inject_Z (i * 5 * 2)).
  { rewrite HI10. replace (i * 5 * 2)%Z with (i * 10)%Z by lia.
    reflexivity. }
  assert (Hint1 : int I = i) by apply int_inject_Z.
  assert (Hint5 : int (I * 5) = (i * 5)%Z)
    by apply (int_inject_Z_mult i 5).
  assert (Hint10 : int (I * 10) = (i * 10)%Z)
    by apply (int_inject_Z_mult i 10).
  assert (Hint10' : int (I * 10) = (i * 5 * 2)%Z) by (rewrite Hint10; lia).
  destruct (grid_cells_In W H I) as [c1 [Hc1 _]]; [lia|].
  destruct (grid_cells_In W H (I * 5)) as [c5 [Hc5 _]]; [lia|].
  destruct (grid_cells_In W H (I * 10)) as [c10 [Hc10 _]]; [lia|].
  exists c1, c5, c10.
  split; [exact Hc1|]. split; [exact Hc5|]. split; [exact Hc10|]. split.
  - apply (aligned_multiple w h i 10 I (I * 10) c1 c10); auto; lia.
  - apply (aligned_multiple w h (i * 5) 2 (I * 5) (I * 10) c5 c10);
      auto; lia.
Qed.

Lemma grid_thick_pass_aligned_witness :
  exists c1 c5 c10,
    grid_cells (inject_Z 200) (inject_Z 300) (inject_Z 10) = Ok c1 /\
    grid_cells (inject_Z 200) (inject_Z 300) (inject_Z 10 * 5) = Ok c5 /\
    grid_cells (inject_Z 200) (inject_Z 300) (inject_Z 10 * 10) = Ok c10 /\
    aligned c1 c10 /\ aligned c5 c10.
Proof. apply (grid_thick_pass_aligned 10 200 300); lia. Defined.

End GridTilingProperties.

Section OutputProperties.

Context {C : Collaborators}.

Lemma header_to_pdf_files (input output : string) (overwrite : bool)
  (a : HeaderArgs) (w : World) :
  path_exists w input = true -> input <> output ->
  files (header_to_pdf input output overwrite a w)
  = match split_by_delimiter (splitext_root (basename input))
                             (h_delimiter a),
          lookup input (files w) with
    | Ok text, Some (PdfFile pages) =>
        match snd (for_pages (header_body a input text) pages 0 []) with
        | Ok out =>
            if save_accepts out
            then write_file output (PdfFile out) (files w)
            else files w
        | Raise _ => files w
        end
    | _, _ => files w
    end.
Proof.
  intros Hin Hneq. apply String.eqb_neq in Hneq.
  unfold header_to_pdf. rewrite try_except_finally_files
    by (intros f; apply finally_two_files).
  unfold bindM, os_path_exists, when. cbn [world locals].
  rewrite Hin. cbn [negb ret fst snd world locals]. rewrite Hneq.
  cbn [ret fst snd world locals].
  destruct (split_by_delimiter (splitext_root (basename input))
                               (h_delimiter a)) as [text|e].
  - destruct (negb overwrite && path_exists w output);
      unfold logger, on_world, pymupdf_open, lift, ret, raise;
      cbn [fst snd world locals emit files];
      (destruct (lookup input (files w)) as [[pages|]|]; [|reflexivity..]);
      unfold assign, pymupdf_new; cbn [fst snd world locals];
      (destruct (for_pages (header_body a input text) pages 0 [])
         as [l [out|e]]);
      cbn [snd]; unfold emit_all, on_world; cbn [fst snd world locals];
      unfold doc_save;
      try (destruct (save_accepts out)); unfold on_world, raise;
      rewrite ?doc_close_files; cbn [fst snd world store files add_session];
      rewrite ?fold_emit_files; reflexivity.
  - destruct (negb overwrite && path_exists w output);
      unfold logger, on_world, lift, raise;
      cbn [fst snd world locals emit files]; reflexivity.
Qed.

Lemma pagenum_to_pdf_files (input output : string) (overwrite : bool)
  (a : PagenumArgs) (w : World) :
  path_exists w input = true -> input <> output ->
  files (pagenum_to_pdf input output overwrite a w)
  = match lookup input (files w) with
    | Some (PdfFile pages) =>
        match snd (for_pages (pagenum_body a input (List.length pages))
                             pages 0 []) with
        | Ok out =>
            if save_accepts out
            then write_file output (PdfFile out) (files w)
            else files w
        | Raise _ => files w
        end
    | _ => files w
    end.
Proof.
  intros Hin Hneq. apply String.eqb_neq in Hneq.
  unfold pagenum_to_pdf. rewrite try_except_finally_files
    by (intros f; apply finally_two_files).
  unfold bindM, os_path_exists, when. cbn [world locals].
  rewrite Hin. cbn [negb ret fst snd world locals]. rewrite Hneq.
  cbn [ret fst snd world locals].
  destruct (negb overwrite && path_exists w output);
    unfold logger, on_world, pymupdf_open, lift, ret, raise;
    cbn [fst snd world locals emit files];
    (destruct (lookup input (files w)) as [[pages|]|]; [|reflexivity..]);
    unfold assign, pymupdf_new; cbn [fst snd world locals];
    (destruct (for_pages (pagenum_body a input (List.length pages))
                         pages 0 []) as [l [out|e]]);
    cbn [snd]; unfold emit_all, on_world; cbn [fst snd world locals];
    unfold doc_save;
    try (destruct (save_accepts out)); unfold on_world, raise;
    rewrite ?doc_close_files; cbn [fst snd world store files add_session];
    rewrite ?fold_emit_files; reflexivity.
Qed.

Lemma header_and_pagenum_to_pdf_files (input output : string)
  (overwrite : bool) (a : HpArgs) (w : World) :
  path_exists w input = true -> input <> output ->
  files (header_and_pagenum_to_pdf input output overwrite a w)
  = match split_by_delimiter (splitext_root (basename input))
                             (hp_delimiter a),
          lookup input (files w) with
    | Ok text, Some (PdfFile pages) =>
        match snd (for_pages (hp_body a input text (List.length pages))
                             pages 0 []) with
        | Ok out =>
            if save_accepts out
            then write_file output (PdfFile out) (files w)
            else files w
        | Raise _ => files w
        end
    | _, _ => files w
    end.
Proof.
  intros Hin Hneq. apply String.eqb_neq in Hneq.
  unfold header_and_pagenum_to_pdf. rewrite try_except_finally_files
    by (intros f; apply finally_two_files).
  unfold bindM, os_path_exists, when. cbn [world locals].
  rewrite Hin. cbn [negb ret fst snd world locals]. rewrite Hneq.
  cbn [ret fst snd world locals].
  destruct (split_by_delimiter (splitext_root (basename input))
                               (hp_delimiter a)) as [text|e].
  - destruct (negb overwrite && path_exists w output);
      unfold logger, on_world, pymupdf_open, lift, ret, raise;
      cbn [fst snd world locals emit files];
      (destruct (lookup input (files w)) as [[pages|]|]; [|reflexivity..]);
      unfold assign, pymupdf_new; cbn [fst snd world locals];
      (destruct (for_pages (hp_body a input text (List.length pages))
                           pages 0 []) as [l [out|e]]);
      cbn [snd]; unfold emit_all, on_world; cbn [fst snd world locals];
      unfold doc_save;
      try (destruct (save_accepts out)); unfold on_world, raise;
      cbn [fst snd world locals];
      repeat match goal with
      | |- context [doc_close ?h ?f] =>
          let H := fresh in
          pose proof (doc_close_files h f) as H;
          destruct (doc_close h f) as [[[]| |?] ?]; cbn [snd] in *
      end;
      cbn [fst snd world store files add_session] in *;
      repeat match goal with H : files _ = _ |- _ => rewrite H end;
      cbn [fst snd world store files add_session];
      rewrite ?fold_emit_files; reflexivity.
  - destruct (negb overwrite && path_exists w output);
      unfold logger, on_world, lift, raise;
      cbn [fst snd world locals emit files]; reflexivity.
Qed.

Lemma masking_to_pdf_files (input output : string) (masks : list PyObj)
  (overwrite : bool) (w : World) :
  path_exists w input = true -> input <> output ->
  negb overwrite && path_exists w output = false ->
  files (masking_to_pdf input output masks overwrite w)
  = match lookup input (files w) with
    | Some (PdfFile pages) =>
        let out := snd (masking_pages masks pages) in
        if save_accepts out
        then write_file output (PdfFile out) (files w)
        else files w
    | _ => files w
    end.
Proof.
  intros Hin Hneq Hover. apply String.eqb_neq in Hneq.
  unfold masking_to_pdf. rewrite try_except_finally_files
    by (intros f; apply close_if_open_files).
  unfold bindM, os_path_exists, when. cbn [world locals].
  rewrite Hin. cbn [negb ret fst snd world locals]. rewrite Hneq.
  cbn [ret fst snd world locals]. rewrite Hover.
  unfold pymupdf_open, ret. cbn [fst snd world locals].
  destruct (lookup input (files w)) as [[pages|]|]; [|reflexivity..].
  unfold assign. cbn [fst snd world locals]. unfold logger at 1, on_world.
  cbn [fst snd world locals emit]. cbv zeta.
  destruct (masking_pages masks pages) as [l pages']. cbn [snd].
  unfold emit_all, on_world. cbn [fst snd world locals].
  unfold doc_save. destruct (save_accepts pages');
    unfold on_world, logger, on_world, raise;
    cbn [fst snd world locals emit store files add_session];
    rewrite ?fold_emit_files; reflexivity.
Qed.

Lemma grid_to_pdf_files (input output : string) (interval width : Q)
  (thin medium thick : Color) (overwrite : bool) (w : World) :
  path_exists w input = true -> input <> output ->
  negb overwrite && path_exists w output = false ->
  let w' := grid_to_pdf input output interval width thin medium thick
                        overwrite w in
  files w'
  = (match lookup input (files w) with
     | Some (PdfFile pages) =>
         match grid_pages interval width thin medium thick pages with
         | Ok out =>
             if save_accepts out
             then write_file output (PdfFile out) (files w)
             else files w
         | Raise _ => files w
         end
     | _ => files w
     end) /\
  log w' = log w.
Proof.
  intros Hin Hneq Hover. apply String.eqb_neq in Hneq. cbv zeta.
  unfold grid_to_pdf, try_except_finally.
  unfold bindM, os_path_exists, when. cbn [world locals].
  rewrite Hin. cbn [negb ret fst snd world locals]. rewrite Hneq.
  cbn [ret fst snd world locals]. rewrite Hover.
  unfold pymupdf_open, ret. cbn [fst snd world locals].
  destruct (lookup input (files w)) as [[pages|]|];
    [|split; reflexivity..].
  unfold assign, lift. cbn [fst snd world locals].
  destruct (grid_pages interval width thin medium thick pages) as [out|e];
    unfold ret, raise, doc_save; try (destruct (save_accepts out));
    unfold on_world, logger, on_world, raise, close_if_closed;
    cbn [fst snd world locals emit lookup String.eqb Ascii.eqb Bool.eqb];
    unfold is_closed;
    cbn [world sessions add_session store];
    rewrite nth_error_new_session; cbn [s_closed];
    split; reflexivity.
Qed.

(** X13: the stamping operations write all of their output or none of
    it.  With an existing input path other than the output path, the
    files after [header_to_pdf], [pagenum_to_pdf],
    [header_and_pagenum_to_pdf] and [header_and_frame_to_pdf] are the
    files before, with the output path holding the document the page
    loop built, when the header text could be derived, the input is a
    readable PDF, the loop finished on every page and [save] accepted
    the document; in every other case (an exception on any page
    included) they are exactly the files before.  The overwrite flag and
    the existence of the output file play no part.  (The pages of the
    input are taken to have positive height: the border computation
    divides by the page height.) *)
Theorem stamping_output_all_or_nothing (input output : string)
  (overwrite : bool) (w : World) :
  path_exists w input = true -> input <> output ->
  Forall (fun p => 0 < p_height p) (pages_at w input) ->
  (forall a,
     files (header_to_pdf input output overwrite a w)
     = match split_by_delimiter (splitext_root (basename input))
                                (h_delimiter a),
             lookup input (files w) with
       | Ok text, Some (PdfFile pages) =>
           match snd (for_pages (header_body a input text) pages 0 []) with
           | Ok out =>
               if save_accepts out
               then write_file output (PdfFile out) (files w)
               else files w
           | Raise _ => files w
           end
       | _, _ => files w
       end) /\
  (forall a,
     files (pagenum_to_pdf input output overwrite a w)
     = match lookup input (files w) with
       | Some (PdfFile pages) =>
           match snd (for_pages (pagenum_body a input (List.length pages))
                                pages 0 []) with
           | Ok out =>
               if save_accepts out
               then write_file output (PdfFile out) (files w)
               else files w
           | Raise _ => files w
           end
       | _ => files w
       end) /\
  (forall a,
     files (header_and_pagenum_to_pdf input output overwrite a w)
     = match split_by_delimiter (splitext_root (basename input))
                                (hp_delimiter a),
             lookup input (files w) with
       | Ok text, Some (PdfFile pages) =>
           match snd (for_pages (hp_body a input text (List.length pages))
                                pages 0 []) with
           | Ok out =>
               if save_accepts out
               then write_file output (PdfFile out) (files w)
               else files w
           | Raise _ => files w
           end
       | _, _ => files w
       end) /\
  (forall a,
     files (header_and_frame_to_pdf input output overwrite a w)
     = match split_by_delimiter (splitext_root (basename input))
                                (fr_delimiter a),
             lookup input (files w) with
       | Ok text, Some (PdfFile pages) =>
           match snd (for_pages (hp_body (frame_hp_args a) input text
                                         (List.length pages))
                                pages 0 []) with
           | Ok out =>
               if save_accepts out
               then write_file output (PdfFile out) (files w)
               else files w
           | Raise _ => files w
           end
       | _, _ => files w
       end).
Proof.
  intros Hin Hneq _. split; [|split; [|split]]; intros a.
  - apply header_to_pdf_files; assumption.
  - apply pagenum_to_pdf_files; assumption.
  - apply header_and_pagenum_to_pdf_files; assumption.
  - unfold header_and_frame_to_pdf.
    apply (header_and_pagenum_to_pdf_files input output overwrite
             (frame_hp_args a) w Hin Hneq).
Qed.

Lemma grid_pages_zero_step (interval width : Q) (thin medium thick : Color)
  (page : Page) (rest : Document) :
  -1 < interval -> interval < 1 ->
  grid_pages interval width thin medium thick (page :: rest)
  = Raise (ValueError "range() arg 3 must not be zero").
Proof.
  intros Hlo Hhi.
  assert (Hz : int interval = 0%Z) by (apply int_zero_iff; split; assumption).
  cbn [grid_pages]. unfold grid_page, grid_cells, range0. cbv zeta.
  rewrite Hz. reflexivity.
Qed.

(** X14: [masking_to_pdf] and [grid_to_pdf], once their three guards
    have passed, write all of their output or none of it: the output
    path holds the processed document when the input is a readable PDF,
    every page was processed and [save] accepted the result, and the
    files are exactly as before in every other case.  [grid_to_pdf]
    moreover fails silently: whatever happens after its guards, it adds
    nothing to the log, so that an unreadable input, or an interval
    strictly between -1 and 1 on a document with a page, leaves neither
    an output file nor a message. *)
Theorem masking_and_grid_output (input output : string) (overwrite : bool)
  (w : World) :
  path_exists w input = true -> input <> output ->
  negb overwrite && path_exists w output = false ->
  (forall masks,
     files (masking_to_pdf input output masks overwrite w)
     = match lookup input (files w) with
       | Some (PdfFile pages) =>
           let out := snd (masking_pages masks pages) in
           if save_accepts out
           then write_file output (PdfFile out) (files w)
           else files w
       | _ => files w
       end) /\
  (forall interval width thin medium thick,
     let w' := grid_to_pdf input output interval width thin medium thick
                           overwrite w in
     files w'
     = (match lookup input (files w) with
        | Some (PdfFile pages) =>
            match grid_pages interval width thin medium thick pages with
            | Ok out =>
                if save_accepts out
                then write_file output (PdfFile out) (files w)
                else files w
            | Raise _ => files w
            end
        | _ => files w
        end) /\
     log w' = log w /\
     (-1 < interval -> interval < 1 ->
      lookup input (files w) <> Some (PdfFile []) ->
      files w' = files w)).
Proof.
  intros Hin Hneq Hover. split.
  - intros masks. apply masking_to_pdf_files; assumption.
  - intros interval width thin medium thick. cbv zeta.
    destruct (grid_to_pdf_files input output interval width thin medium
                thick overwrite w Hin Hneq Hover) as [Hf Hl].
    split; [exact Hf|]. split; [exact Hl|].
    intros Hlo Hhi Hpages. rewrite Hf.
    destruct (lookup input (files w)) as [[[|page rest]|]|];
      try reflexivity.
    + destruct (Hpages eq_refl).
    + rewrite (grid_pages_zero_step interval width thin medium thick
                 page rest Hlo Hhi). reflexivity.
Qed.

End OutputProperties.

Lemma stamping_output_all_or_nothing_witness :
  path_exists sample_world "/in/2.pdf" = true /\
  "/in/2.pdf"%string <> "/out/2.pdf"%string /\
  files (pagenum_to_pdf (C := spec_collaborators) "/in/2.pdf" "/out/2.pdf"
                        false pagenum_defaults sample_world)
  = write_file "/out/2.pdf"
      (PdfFile
         (match snd (for_pages
                       (pagenum_body (C := spec_collaborators)
                          pagenum_defaults "/in/2.pdf" 2)
                       [sample_page; sample_page] 0%nat []) with
          | Ok out => out
          | Raise _ => []
          end))
      (files sample_world).
Proof.
  assert (Hneq : "/in/2.pdf"%string <> "/out/2.pdf"%string) by discriminate.
  split; [reflexivity|]. split; [exact Hneq|].
  assert (Hpos : Forall (fun p => 0 < p_height p)
                        (pages_at sample_world "/in/2.pdf"))
    by (repeat constructor).
  destruct (stamping_output_all_or_nothing (C := spec_collaborators)
              "/in/2.pdf" "/out/2.pdf" false sample_world eq_refl Hneq Hpos)
    as (_ & Hpagenum & _).
  rewrite (Hpagenum pagenum_defaults). reflexivity.
Defined.

Lemma masking_and_grid_output_witness :
  path_exists sample_world "/in/2.pdf" = true /\
  "/in/2.pdf"%string <> "/out/grid.pdf"%string /\
  path_exists sample_world "/out/grid.pdf" = false /\
  log (grid_to_pdf (C := spec_collaborators) "/in/2.pdf" "/out/grid.pdf"
                   (1 # 2) 0.1 (0, 0, 0) (0, 0, 0) (0, 0, 0) false
                   sample_world)
  = log sample_world.
Proof.
  assert (Hneq : "/in/2.pdf"%string <> "/out/grid.pdf"%string)
    by discriminate.
  split; [reflexivity|]. split; [exact Hneq|]. split; [reflexivity|].
  destruct (masking_and_grid_output (C := spec_collaborators)
              "/in/2.pdf" "/out/grid.pdf" false sample_world eq_refl Hneq
              eq_refl)
    as (_ & Hgrid).
  destruct (Hgrid (1 # 2) 0.1 (0, 0, 0) (0, 0, 0) (0, 0, 0))
    as (_ & Hlog & _).
  exact Hlog.
Defined.

Section LoopProperties.

Context {C : Collaborators}.

Lemma hp_body_collapsed (a : HpArgs) (src text : string) (total : nat)
  (doc : Document) (idx : nat) (page : Page) :
  Py.le (rect_height (hp_content_rect a (p_width page) (p_height page)
                                      (p_width page) (p_height page))) 0
  = true ->
  hp_body a src text total doc idx page
  = ([(WARNING, MsgCollapse (idx + 1))],
     Ok ((doc ++ [new_page (p_width page) (p_height page)])
         ++ [normalize_rotation page])%list).
Proof.
  intros Hc. unfold hp_body. cbv zeta.
  destruct (normalize_rotation_size page) as [Hw Hh].
  cbn [new_page p_width p_height]. rewrite Hw, Hh, Hc. reflexivity.
Qed.

Lemma hp_body_composed (a : HpArgs) (src text : string) (total : nat)
  (doc : Document) (idx : nat) (page : Page) :
  Py.le (rect_height (hp_content_rect a (p_width page) (p_height page)
                                      (p_width page) (p_height page))) 0
  = false ->
  (exists p, hp_body a src text total doc idx page
             = ([], Ok (doc ++ [p])%list)) \/
  (exists e, hp_body a src text total doc idx page = ([], Raise e)).
Proof.
  intros Hc. unfold hp_body. cbv zeta.
  destruct (normalize_rotation_size page) as [Hw Hh].
  cbn [new_page p_width p_height]. rewrite Hw, Hh, Hc.
  match goal with
  | |- context [Py.bind ?m _] => destruct m as [p|e]
  end; cbn [Py.bind].
  - left. eexists. reflexivity.
  - right. eexists. reflexivity.
Qed.

Lemma hp_loop_count (a : HpArgs) (src text : string) (total : nat)
  (pages : list Page) :
  forall idx doc l out,
  for_pages (hp_body a src text total) pages idx doc = (l, Ok out) ->
  let collapsed := fun p =>
    Py.le (rect_height (hp_content_rect a (p_width p) (p_height p)
                                        (p_width p) (p_height p))) 0 in
  List.length out
  = (List.length doc + List.length pages
     + List.length (filter collapsed pages))%nat /\
  l = map (fun jp => (WARNING, MsgCollapse (fst jp + 1)))
          (filter (fun jp => collapsed (snd jp))
                  (combine (seq idx (List.length pages)) pages)).
Proof.
  induction pages as [|page rest IH]; intros idx doc l out Hrun; cbv zeta.
  - cbn in Hrun. injection Hrun as <- <-. cbn. split; [lia | reflexivity].
  - cbn [for_pages] in Hrun. cbn [filter List.length seq combine].
    destruct (Py.le (rect_height (hp_content_rect a (p_width page)
                (p_height page) (p_width page) (p_height page))) 0) eqn:Hc.
    + rewrite (hp_body_collapsed a src text total doc idx page Hc) in Hrun.
      destruct (for_pages (hp_body a src text total) rest (S idx) _)
        as [l' r] eqn:Hrest.
      injection Hrun as <- ->.
      destruct (IH _ _ _ _ Hrest) as [Hlen Hl].
      cbn [snd fst]. rewrite Hc. cbn [map List.length fst].
      rewrite Hlen, !length_app. cbn [List.length].
      split; [lia|]. cbn [app]. f_equal. exact Hl.
    + destruct (hp_body_composed a src text total doc idx page Hc)
        as [[p Hp]|[e He]].
      * rewrite Hp in Hrun.
        destruct (for_pages (hp_body a src text total) rest (S idx) _)
          as [l' r] eqn:Hrest.
        injection Hrun as <- ->.
        destruct (IH _ _ _ _ Hrest) as [Hlen Hl].
        cbn [snd fst]. rewrite Hc.
        rewrite Hlen, !length_app. cbn [List.length].
        split; [lia|]. cbn [app]. exact Hl.
      * rewrite He in Hrun. discriminate.
Qed.





(** X15: the overwrite guard of [masking_to_pdf] and [grid_to_pdf]
    returns.  Called without overwrite permission on an output path that
    exists (the input existing and being another path), each of them
    logs one fatal message and does nothing else: the existing output is
    left as it is and no document is opened. *)
Theorem overwrite_guard_returns (input output : string) (w : World) :
  path_exists w input = true -> input <> output ->
  path_exists w output = true ->
  (forall masks,
     masking_to_pdf input output masks false w
     = emit FATAL (MsgOutputExists output "masking_to_pdf") w) /\
  (forall interval width thin medium thick,
     grid_to_pdf input output interval width thin medium thick false w
     = emit FATAL (MsgOutputExists output "grid_to_pdf") w).
Proof.
  intros Hin Hneq Hout. split.
  - intros masks. apply masking_to_pdf_overwrite_guard; assumption.
  - intros interval width thin medium thick.
    apply grid_to_pdf_overwrite_guard; assumption.
Qed.

(** X16: the page loop of [header_and_pagenum_to_pdf], when it finishes,
    leaves one output page for every source page and one more for every
    source page whose content region has collapsed, and logs one warning
    for each of these, carrying the 1-based number of the source page.
    With the original resized, the region of a page collapses exactly
    when the page is no higher than header and footer together; without
    resizing, only when the page has no height.  (The source pages are
    taken to have positive height: the border computation divides by
    the page height.) *)
Theorem collapse_adds_a_page (a : HpArgs) (src text : string) (total : nat)
  (pages : list Page) (idx : nat) (doc : Document) (l : list LogRec)
  (out : Document) :
  Forall (fun p => 0 < p_height p) pages ->
  for_pages (hp_body a src text total) pages idx doc = (l, Ok out) ->
  let collapsed := fun p =>
    Py.le (rect_height (hp_content_rect a (p_width p) (p_height p)
                                        (p_width p) (p_height p))) 0 in
  List.length out
  = (List.length doc + List.length pages
     + List.length (filter collapsed pages))%nat /\
  l = map (fun jp => (WARNING, MsgCollapse (fst jp + 1)))
          (filter (fun jp => collapsed (snd jp))
                  (combine (seq idx (List.length pages)) pages)) /\
  (forall p, collapsed p = true <->
             if hp_resize_original a
             then p_height p <= hp_header_height a + hp_footer_height a
             else p_height p <= 0).
Proof.
  intros _ Hrun. cbv zeta.
  destruct (hp_loop_count a src text total pages idx doc l out Hrun)
    as [Hlen Hl].
  split; [exact Hlen|]. split; [exact Hl|].
  intros p. unfold Py.le, hp_content_rect, rect_height.
  rewrite Qle_bool_iff.
  destruct (hp_resize_original a); cbn [y0 y1]; split; intros H; lra.
Qed.



End LoopProperties.

Lemma overwrite_guard_returns_witness :
  path_exists sample_world "/in/2.pdf" = true /\
  "/in/2.pdf"%string <> "/out/2.pdf"%string /\
  path_exists sample_world "/out/2.pdf" = true /\
  masking_to_pdf (C := spec_collaborators) "/in/2.pdf" "/out/2.pdf"
                 sample_masks false sample_world
  = emit FATAL (MsgOutputExists "/out/2.pdf" "masking_to_pdf") sample_world.
Proof.
  assert (Hneq : "/in/2.pdf"%string <> "/out/2.pdf"%string) by discriminate.
  split; [reflexivity|]. split; [exact Hneq|]. split; [reflexivity|].
  apply (proj1 (overwrite_guard_returns (C := spec_collaborators)
                  "/in/2.pdf" "/out/2.pdf" sample_world eq_refl Hneq
                  eq_refl)).
Defined.

Lemma collapse_adds_a_page_witness :
  exists l out,
    for_pages (hp_body (C := spec_collaborators) collapsing_args
                       "/in/10.pdf" "10" 1)
              [sample_page] 0%nat [] = (l, Ok out) /\
    List.length out = 2%nat.
Proof.
  eexists. eexists. split; [vm_compute; reflexivity|].
  assert (Hpos : Forall (fun p => 0 < p_height p) [sample_page])
    by (repeat constructor).
  exact (proj1 (collapse_adds_a_page (C := spec_collaborators)
                  collapsing_args "/in/10.pdf" "10" 1 [sample_page] 0%nat []
                  _ _ Hpos eq_refl)).
Defined.


Section OutputFolderProperties.

Context {C : Collaborators}.

Lemma emit_dirs (lvl : Level) (m : Msg) (w : World) :
  dirs (emit lvl m w) = dirs w.
Proof. destruct lvl; reflexivity. Qed.

Lemma path_exists_emit (lvl : Level) (m : Msg) (w : World) (p : string) :
  path_exists (emit lvl m w) p = path_exists w p.
Proof. destruct lvl; reflexivity. Qed.

Lemma ensure_folder_dirs (lvl : Level) (o : string) (w : World) :
  dirs (ensure_folder lvl o w)
  = if path_exists w (abspath o) then dirs w
    else (dirs w ++ [abspath o])%list.
Proof.
  unfold ensure_folder. destruct (path_exists w (abspath o)); cbn [negb];
    [reflexivity|].
  rewrite emit_dirs. reflexivity.
Qed.

Lemma fold_left_dirs (step : World -> string -> World) (l : list string) :
  (forall w f, dirs (step w f) = dirs w) ->
  forall w, dirs (fold_left step l w) = dirs w.
Proof.
  intros Hstep. induction l as [|f rest IH]; intros w; cbn [fold_left];
    [reflexivity|].
  rewrite IH. apply Hstep.
Qed.

Lemma in_folder_dirs (func : string)
  (prepare : string -> string -> World -> World) (lvl : Level)
  (single : string -> string -> World -> World)
  (input output : string) (w : World) :
  (forall i o w0, preserved o w0 (single i o w0)) ->
  (forall i o w0, uncaught (prepare i o w0) = uncaught w0
                  /\ files (prepare i o w0) = files w0) ->
  input <> output -> path_exists w input = true -> uncaught w = None ->
  dirs (in_folder func prepare lvl single input output w)
  = dirs (prepare (abspath input) (abspath output) w).
Proof.
  intros Hsingle Hprep Hneq Hin Hunc.
  destruct (in_folder_all func prepare lvl single input output w
              Hsingle Hprep Hneq Hin Hunc) as [-> _].
  apply fold_left_dirs. intros w1 f.
  destruct (Hsingle f (abspath output ++ "/" ++ basename f)%string
              (emit lvl (MsgFileStart f
                 (abspath output ++ "/" ++ basename f)%string) w1))
    as (_ & Hd & _).
  rewrite Hd. apply emit_dirs.
Qed.

(** X19: a folder-wide operation whose guards pass calls [os.makedirs]
    for the output folder exactly when no file or directory of that
    name exists, and for no other path: however many files it
    processes, the single-document operations it runs create and remove
    no directory. *)
Theorem folder_operations_create_output_folder (input output : string)
  (overwrite : bool) (w : World) :
  input <> output -> path_exists w input = true -> uncaught w = None ->
  let out := abspath (abspath output) in
  let expected :=
    if path_exists w out then dirs w else (dirs w ++ [out])%list in
  (forall masks,
     dirs (masking_to_pdf_in_folder input output masks overwrite w)
     = expected) /\
  (forall a, dirs (header_to_pdf_in_folder input output a w) = expected) /\
  (forall a,
     dirs (header_and_pagenum_to_pdf_in_folder input output overwrite a w)
     = expected) /\
  (forall a,
     dirs (header_and_frame_to_pdf_in_folder input output overwrite a w)
     = expected).
Proof.
  intros Hneq Hin Hunc. cbv zeta.
  split; [|split; [|split]]; intros x.
  - unfold masking_to_pdf_in_folder. rewrite in_folder_dirs; try assumption.
    + rewrite emit_dirs. apply ensure_folder_dirs.
    + intros i o w0.
      apply (single_operations_preserved i o overwrite w0).
    + intros i o w0. rewrite emit_uncaught, emit_files,
        ensure_folder_uncaught, ensure_folder_files. split; reflexivity.
  - unfold header_to_pdf_in_folder. rewrite in_folder_dirs; try assumption.
    + apply ensure_folder_dirs.
    + intros i o w0. apply (single_operations_preserved i o true w0).
    + intros i o w0. rewrite ensure_folder_uncaught, ensure_folder_files.
      split; reflexivity.
  - unfold header_and_pagenum_to_pdf_in_folder.
    rewrite in_folder_dirs; try assumption.
    + rewrite ensure_folder_dirs, path_exists_emit, emit_dirs. reflexivity.
    + intros i o w0.
      apply (single_operations_preserved i o overwrite w0).
    + intros i o w0. rewrite ensure_folder_uncaught, ensure_folder_files.
      split; reflexivity.
  - unfold header_and_frame_to_pdf_in_folder.
    rewrite in_folder_dirs; try assumption.
    + apply ensure_folder_dirs.
    + intros i o w0.
      apply (single_operations_preserved i o overwrite w0).
    + intros i o w0. rewrite ensure_folder_uncaught, ensure_folder_files.
      split; reflexivity.
Qed.

End OutputFolderProperties.

Lemma folder_operations_create_output_folder_witness :
  "/in"%string <> "/new"%string /\
  path_exists sample_world "/in" = true /\
  uncaught sample_world = None /\
  dirs (header_and_frame_to_pdf_in_folder (C := spec_collaborators)
          "/in" "/new" true frame_defaults sample_world)
  = ["/in"; "/out"; "/new"]%string.
Proof.
  assert (Hneq : "/in"%string <> "/new"%string) by discriminate.
  split; [exact Hneq|]. split; [reflexivity|]. split; [reflexivity|].
  destruct (folder_operations_create_output_folder
              (C := spec_collaborators) "/in" "/new" true sample_world
              Hneq eq_refl eq_refl) as (_ & _ & _ & Hframe).
  apply (Hframe frame_defaults).
Defined.

Section FailureProperties.

Context {C : Collaborators}.

Lemma header_to_pdf_split_raises (input output : string) (overwrite : bool)
  (a : HeaderArgs) (w : World) (e : Exn) :
  path_exists w input = true -> input <> output ->
  split_by_delimiter (splitext_root (basename input)) (h_delimiter a)
  = Raise e ->
  header_to_pdf input output overwrite a w
  = emit ERROR (MsgException e)
      (if negb overwrite && path_exists w output
       then emit FATAL (MsgOutputExists output "header_to_pdf") w
       else w).
Proof.
  intros Hin Hneq Hsplit. apply String.eqb_neq in Hneq.
  unfold header_to_pdf, try_except_finally.
  unfold bindM, os_path_exists, when. cbn [world locals].
  rewrite Hin. cbn [negb ret fst snd world locals]. rewrite Hneq.
  cbn [ret fst snd world locals]. rewrite Hsplit.
  destruct (negb overwrite && path_exists w output);
    unfold logger, on_world, lift, raise, close_if_open;
    cbn [fst snd world locals lookup]; reflexivity.
Qed.

Lemma header_and_pagenum_to_pdf_split_raises (input output : string)
  (overwrite : bool) (a : HpArgs) (w : World) (e : Exn) :
  path_exists w input = true -> input <> output ->
  split_by_delimiter (splitext_root (basename input)) (hp_delimiter a)
  = Raise e ->
  header_and_pagenum_to_pdf input output overwrite a w
  = emit ERROR (MsgException e)
      (if negb overwrite && path_exists w output
       then emit FATAL
              (MsgOutputExists output "header_and_pagenum_to_pdf") w
       else w).
Proof.
  intros Hin Hneq Hsplit. apply String.eqb_neq in Hneq.
  unfold header_and_pagenum_to_pdf, try_except_finally.
  unfold bindM, os_path_exists, when. cbn [world locals].
  rewrite Hin. cbn [negb ret fst snd world locals]. rewrite Hneq.
  cbn [ret fst snd world locals]. rewrite Hsplit.
  destruct (negb overwrite && path_exists w output);
    unfold logger, on_world, lift, raise, close_if_open;
    cbn [fst snd world locals lookup]; reflexivity.
Qed.

(** X20: a file whose base name, extension removed, holds nothing but
    whitespace cannot be stamped with the [Space] delimiter.
    [header_to_pdf], [header_and_pagenum_to_pdf] and
    [header_and_frame_to_pdf] then fail before any document is opened:
    they log the [IndexError] once at ERROR (after the fatal message of
    the overwrite guard, if that one spoke) and change nothing else. *)
Theorem unnamed_file_is_not_stamped (input output : string)
  (overwrite : bool) (w : World) :
  path_exists w input = true -> input <> output ->
  has_word (splitext_root (basename input)) = false ->
  let after_guard := fun func =>
    if negb overwrite && path_exists w output
    then emit FATAL (MsgOutputExists output func) w
    else w in
  (forall a, h_delimiter a = Space ->
     header_to_pdf input output overwrite a w
     = emit ERROR (MsgException IndexError) (after_guard "header_to_pdf"%string)) /\
  (forall a, hp_delimiter a = Space ->
     header_and_pagenum_to_pdf input output overwrite a w
     = emit ERROR (MsgException IndexError)
            (after_guard "header_and_pagenum_to_pdf"%string)) /\
  (forall a, fr_delimiter a = Space ->
     header_and_frame_to_pdf input output overwrite a w
     = emit ERROR (MsgException IndexError)
            (after_guard "header_and_pagenum_to_pdf"%string)).
Proof.
  intros Hin Hneq Hword. cbv zeta.
  assert (Hsplit : split_by_delimiter (splitext_root (basename input)) Space
                   = Raise IndexError).
  { cbn [split_by_delimiter]. rewrite (split_ws_no_word _ Hword).
    reflexivity. }
  split; [|split]; intros a Hd.
  - apply header_to_pdf_split_raises; try assumption.
    rewrite Hd. exact Hsplit.
  - apply header_and_pagenum_to_pdf_split_raises; try assumption.
    rewrite Hd. exact Hsplit.
  - unfold header_and_frame_to_pdf.
    apply header_and_pagenum_to_pdf_split_raises; try assumption.
    cbn [frame_hp_args hp_delimiter]. rewrite Hd. exact Hsplit.
Qed.

(** X21: [grid_to_pdf] never closes the document it opens.  Once its
    guards have passed and the input has been opened, the run ends with
    that one session added and still open, whatever happens to the pages
    and to the save; no exception escapes and no directory changes. *)
Theorem grid_to_pdf_never_closes (input output : string) (interval width : Q)
  (thin medium thick : Color) (overwrite : bool) (w : World)
  (pages : Document) :
  path_exists w input = true -> input <> output ->
  negb overwrite && path_exists w output = false ->
  lookup input (files w) = Some (PdfFile pages) ->
  let w' := grid_to_pdf input output interval width thin medium thick
                        overwrite w in
  sessions w' = (sessions w ++ [mkSession (Some input) false 0])%list /\
  uncaught w' = uncaught w /\ dirs w' = dirs w.
Proof.
  intros Hin Hneq Hover Hfile. apply String.eqb_neq in Hneq. cbv zeta.
  unfold grid_to_pdf, try_except_finally.
  unfold bindM, os_path_exists, when. cbn [world locals].
  rewrite Hin. cbn [negb ret fst snd world locals]. rewrite Hneq.
  cbn [ret fst snd world locals]. rewrite Hover.
  unfold pymupdf_open, ret. cbn [fst snd world locals]. rewrite Hfile.
  unfold assign, lift. cbn [fst snd world locals].
  destruct (grid_pages interval width thin medium thick pages) as [out|e];
    unfold ret, raise, doc_save; try (destruct (save_accepts out));
    unfold on_world, logger, on_world, raise, close_if_closed;
    cbn [fst snd world locals emit lookup String.eqb Ascii.eqb Bool.eqb];
    unfold is_closed;
    cbn [world sessions add_session store];
    rewrite nth_error_new_session; cbn [s_closed];
    repeat split; reflexivity.
Qed.

End FailureProperties.

Lemma unnamed_file_is_not_stamped_witness :
  let w := mkWorld ["/in"]%string
                   [("/in/ .pdf"%string, PdfFile [sample_page])] [] [] None in
  path_exists w "/in/ .pdf" = true /\
  has_word (splitext_root (basename "/in/ .pdf")) = false /\
  header_to_pdf (C := spec_collaborators) "/in/ .pdf" "/out/x.pdf" true
                header_defaults w
  = emit ERROR (MsgException IndexError) w.
Proof.
  cbv zeta.
  assert (Hneq : "/in/ .pdf"%string <> "/out/x.pdf"%string) by discriminate.
  split; [reflexivity|]. split; [reflexivity|].
  apply (proj1 (unnamed_file_is_not_stamped (C := spec_collaborators)
                  "/in/ .pdf" "/out/x.pdf" true
                  (mkWorld ["/in"]%string
                           [("/in/ .pdf"%string, PdfFile [sample_page])]
                           [] [] None)
                  eq_refl Hneq eq_refl)).
  reflexivity.
Defined.

Lemma grid_to_pdf_never_closes_witness :
  path_exists sample_world "/in/2.pdf" = true /\
  "/in/2.pdf"%string <> "/out/grid.pdf"%string /\
  sessions (grid_to_pdf (C := spec_collaborators) "/in/2.pdf" "/out/grid.pdf"
                        10 0.1 (0, 0, 0) (0, 0, 0) (0, 0, 0) true
                        sample_world)
  = [mkSession (Some "/in/2.pdf"%string) false 0].
Proof.
  assert (Hneq : "/in/2.pdf"%string <> "/out/grid.pdf"%string)
    by discriminate.
  split; [reflexivity|]. split; [exact Hneq|].
  apply (proj1 (grid_to_pdf_never_closes (C := spec_collaborators)
                  "/in/2.pdf" "/out/grid.pdf" 10 0.1 (0, 0, 0) (0, 0, 0)
                  (0, 0, 0) true sample_world [sample_page; sample_page]
                  eq_refl Hneq eq_refl eq_refl)).
Defined.

Section ConcatFrameProperties.

Context {C : Collaborators}.

Lemma sp_concat_files (out : string) (paths : list string) :
  forall output_doc, step_preserves out (concat_files paths output_doc).
Proof.
  induction paths as [|p rest IH]; intros output_doc; cbn [concat_files].
  - apply sp_ret.
  - apply sp_bind; [apply sp_open | intros tmp_doc].
    apply sp_bind; [apply sp_assign | intros _].
    apply sp_bind; [apply sp_logger | intros _].
    apply sp_bind; [apply sp_close | intros _].
    apply IH.
Qed.

(** X22: [concat_pdf] lets no exception escape, creates or removes no
    directory, only appends to the log, and changes no file other than
    its output path: the files it merges are left as they were (unless
    the output path is one of them, which no guard excludes). *)
Theorem concat_pdf_frame (input_folder_path output_pdf_path : string)
  (overwrite : bool) (w : World) :
  let w' := concat_pdf input_folder_path output_pdf_path overwrite w in
  preserved output_pdf_path w w' /\
  forall p, In p (glob_pdf w (abspath input_folder_path)) ->
            p <> output_pdf_path ->
            lookup p (files w') = lookup p (files w).
Proof.
  cbv zeta.
  assert (Hp : preserved output_pdf_path w
                 (concat_pdf input_folder_path output_pdf_path overwrite w)).
  { unfold concat_pdf.
    destruct (negb (path_exists w input_folder_path));
      [apply preserved_emit|].
    cbv zeta.
    eapply preserved_trans;
      [|apply tef_preserved;
        [|apply sp_bind; [|intros ?]; apply sp_close_if_open
         |apply nr_two]].
    - destruct (negb overwrite && path_exists w output_pdf_path);
        [apply preserved_emit | apply preserved_refl].
    - apply sp_bind; [apply sp_new | intros output_doc].
      apply sp_bind; [apply sp_assign | intros _].
      apply sp_bind; [intros f; apply preserved_refl | intros paths].
      apply sp_bind; [apply sp_logger | intros _].
      apply sp_bind; [apply sp_concat_files | intros pages].
      apply sp_bind; [apply sp_save | intros _].
      apply sp_close. }
  split; [exact Hp|].
  intros p _ Hneq. destruct Hp as (_ & _ & _ & Hfiles).
  apply Hfiles, Hneq.
Qed.

End ConcatFrameProperties.

Section SameFolderProperties.

Context {C : Collaborators}.












End SameFolderProperties.

